(** * Pi Network sweeper bots: a shallow embedding and its properties

    The repository ships four overlapping bots.  Each one is embedded in a
    module of its own, named after the banner comment of its source file:

    - [OptimizedSweeper]       "Claim All & Continuous Flood (Optimized & Aggressive)"
    - [ContinuousFlood]        "Claim All & Continuous Flood"
    - [HighPerformanceSweeper] "Pi Network High-Performance Sweeper Bot"
    - [PrecisionClaimBot]      pi-js-bot.js, "Pi Network Transaction Flood Bot"

    Conventions.  JavaScript numbers are modelled exactly: integers as [Z],
    values that may be fractional (multipliers such as 1.5, seconds obtained
    from [Date.now() / 1000], averages) as [Q].  All quantities of the bots
    stay far below 2^53, where these operations are exact on doubles too.
    The Horizon server, the clock and the Stellar SDK are outside the
    repository: the server is an oracle answering the n-th submission, the
    clock is an argument, the SDK's builders are record constructors, and
    whether a builder accepts its arguments or throws is told by the world
    or by a parameter.  Keys and balance ids are taken to be well formed. *)

From Stdlib Require Import ZArith QArith Qround Qminmax List Lia String Bool.
From Stdlib Require Import DecimalString.
From Stdlib Require Import Lqa.
From Stdlib Require Import Permutation Sorted.
From Equations Require Import Equations.
Import ListNotations.

Local Open Scope Z_scope.

(** ** JavaScript arithmetic used by the bots *)

Module JS.

(** [Math.ceil(x / 100) * 100] *)
Definition ceilTo100 (x : Q) : Z := Qceiling (x / 100) * 100.

(** [Math.round(x)]: the nearest integer, halves going up. *)
Definition round (x : Q) : Z := Qfloor (x + (1 # 2)).

(** Truthiness of a number: every number but 0 (NaN does not arise). *)
Definition truthy (n : Z) : bool := negb (n =? 0).

(** A value that is either a Number or a String, with the two coercions
    that [+] and [-] apply to it. *)
Inductive value : Type :=
| Num (n : Z)
| Str (s : string).

Section Coercions.
(** Number-to-String and String-to-Number conversion of the language;
    [None] is NaN. *)
Variable numberToString : Z -> string.
Variable stringToNumber : string -> option Z.

Definition toString (v : value) : string :=
  match v with
  | Num n => numberToString n
  | Str s => s
  end.

Definition toNumber (v : value) : option Z :=
  match v with
  | Num n => Some n
  | Str s => stringToNumber s
  end.

(** [v + n] for a number [n]: a sum, or a concatenation when [v] is a
    string. *)
Definition plus (v : value) (n : Z) : value :=
  match v with
  | Num m => Num (m + n)
  | Str s => Str (s ++ numberToString n)
  end.

(** [a - b] *)
Definition minus (a b : value) : option Z :=
  match toNumber a, toNumber b with
  | Some x, Some y => Some (x - y)
  | _, _ => None
  end.

End Coercions.

(** The two conversions on the strings the bots meet: decimal integers. *)
Definition decimalString (n : Z) : string :=
  NilZero.string_of_int (Z.to_int n).

Definition parseDecimal (s : string) : option Z :=
  option_map Z.of_int (NilZero.int_of_string s).

Section Sort.
Context {A : Type}.
(** [compareFn a b]: [a] is to come after [b] when the result is positive;
    NaN ([None]) counts as 0. *)
Variable compareFn : A -> A -> option Z.

Definition comesAfter (a b : A) : bool :=
  match compareFn a b with
  | Some d => 0 <? d
  | None => false
  end.

Fixpoint insert (x : A) (l : list A) : list A :=
  match l with
  | [] => [x]
  | y :: l' => if comesAfter x y then y :: insert x l' else x :: l
  end.

(** [Array.prototype.sort(compareFn)]: a stable sort. *)
Fixpoint sort (l : list A) : list A :=
  match l with
  | [] => []
  | x :: l' => insert x (sort l')
  end.

End Sort.

End JS.

(** ** What Horizon returns *)

Module Horizon.

(** A claim predicate as Horizon serialises it: a JSON object of which the
    bots read the fields below.  Epochs arrive as decimal strings; a field
    that is present is a non-empty string, hence truthy, and [parseInt] or
    [* 1000] turns it into the number recorded here; [abs_before] is the
    same instant as an ISO date.  [None] is an absent field. *)
#[local] Unset Elimination Schemes.
Inductive predicate : Type :=
  Predicate {
    abs_after : option Z;
    abs_before : option string;
    abs_before_epoch : option Z;
    not_ : option predicate;
    and_ : option (list predicate);
    or_ : option (list predicate)
  }.
#[local] Set Elimination Schemes.

Record claimant : Type := Claimant {
  destination : string;
  claim_predicate : option predicate
}.

Record balance : Type := Balance {
  id : string;
  amount : string;
  claimants : list claimant
}.

(** Categories of a failed submission.  The bots receive an opaque error
    object; the category is what the ledger meant by it. *)
Inductive errorCategory : Type :=
| AlreadyClaimed
| MalformedTransaction
| FeeTooLow
| StaleSequence
| TransportFailure.

Inductive response : Type :=
| Accepted (hash : string)
| Failed (e : errorCategory).

Definition succeeded (r : response) : bool :=
  match r with Accepted _ => true | Failed _ => false end.

(** The server as seen by one bot: the answer to its n-th call of
    [submitTransaction], counted from 0. *)
Definition server : Type := nat -> response.

End Horizon.

(** ** Stellar SDK objects *)

Module Stellar.

Record account : Type := Account {
  account_id : string;
  sequence : Z
}.

Inductive operation : Type :=
| claimClaimableBalance (balanceId : string) (source : option string)
| payment (destination : string) (amount : string) (source : option string)
| pathPaymentStrictSend (sendAmount destination destMin : string).

(** [setTimebounds(lower, upper)] or [setTimeout(seconds)] *)
Inductive timebounds : Type :=
| Timebounds (minTime maxTime : Z)
| Timeout (seconds : Z).

End Stellar.

(** ** The optimized and aggressive sweeper *)

Module OptimizedSweeper.
Import Horizon Stellar.

Record Config : Type := {
  baseFee : Z;
  maxFee : Z;
  feePriorityMultiplier : Z;
  maxSubmissionAttempts : nat;
  floodCount : nat;
  floodInterval : Z;
  timeboundGrace : Z;
  earlySubmitOffset : Z;
  pollIntervalMs : Z
}.

Definition config : Config := {|
  baseFee := 100000;
  maxFee := 500000;
  feePriorityMultiplier := 10;
  maxSubmissionAttempts := 3;
  floodCount := 3;
  floodInterval := 200;
  timeboundGrace := 60;
  earlySubmitOffset := 1;
  pollIntervalMs := 10
|}.

Record transaction : Type := Transaction {
  tx_source : account;
  tx_fee : Z;
  tx_operations : list operation;
  tx_timebounds : timebounds;
  tx_signatures : list string
}.

Inductive envelope : Type :=
| Plain (tx : transaction)
| FeeBump (feeSource : string) (fee : Z) (inner : transaction).

Definition envelope_fee (e : envelope) : Z :=
  match e with
  | Plain tx => tx_fee tx
  | FeeBump _ fee _ => fee
  end.

(** The bot object: its fee and, for the record, every envelope it has
    handed to [server.submitTransaction], oldest first. *)
Record bot : Type := Bot {
  currentFee : Z;
  submissions : list envelope
}.

(** How [submitWithRetries] left: the three [log] lines of the source. *)
Inductive exit : Type :=
| SubmittedOk
| FeeBumpOk (attempt : nat)
| RetriesExhausted.

Section Bot.
Variable cfg : Config.
Variable targetKP : string.
Variable sponsorKP : string.
Variable dest : string.

Definition extractMinTime (b : balance) : Z :=
  match find (fun c => String.eqb (destination c) targetKP) (claimants b) with
  | Some (Claimant _ (Some p)) =>
      match abs_after p with
      | Some t => t
      | None =>
          match not_ p with
          | Some (Predicate _ _ (Some t) _ _ _) => t
          | _ => 0
          end
      end
  | _ => 0
  end.

Definition updateFeeStats (p99 : Z) (b : bot) : bot :=
  let fee := p99 * feePriorityMultiplier cfg in
  {| currentFee := fee * 7; submissions := submissions b |}.

Definition buildAndSign (b : bot) (bal : balance) (sponsorAccount : account)
  : transaction :=
  let unlockTime := extractMinTime bal in
  let lowerBound := unlockTime in
  let upperBound := unlockTime + timeboundGrace cfg in
  {| tx_source := sponsorAccount;
     tx_fee := currentFee b;
     tx_operations :=
       [ claimClaimableBalance (id bal) (Some targetKP);
         payment dest (amount bal) (Some targetKP) ];
     tx_timebounds := Timebounds lowerBound upperBound;
     tx_signatures := [targetKP; sponsorKP] |}.

Definition submitTransaction (srv : server) (b : bot) (e : envelope)
  : response * bot :=
  (srv (List.length (submissions b)),
   {| currentFee := currentFee b; submissions := submissions b ++ [e] |}).

(** The [for] loop of [submitWithRetries]; [remaining] counts the
    iterations still to run, [attempt] is the loop variable. *)
Fixpoint feeBumpLoop (srv : server) (tx : transaction)
         (remaining attempt : nat) (b : bot) : exit * bot :=
  match remaining with
  | O => (RetriesExhausted, b)
  | S remaining' =>
      let b1 := {| currentFee := currentFee b * feePriorityMultiplier cfg;
                   submissions := submissions b |} in
      let feeBump := FeeBump sponsorKP (currentFee b1) tx in
      match submitTransaction srv b1 feeBump with
      | (Accepted _, b2) => (FeeBumpOk attempt, b2)
      | (Failed _, b2) => feeBumpLoop srv tx remaining' (S attempt) b2
      end
  end.

Definition submitWithRetries (srv : server) (b : bot) (tx : transaction)
  : exit * bot :=
  match submitTransaction srv b (Plain tx) with
  | (Accepted _, b1) => (SubmittedOk, b1)
  | (Failed _, b1) =>
      feeBumpLoop srv tx (maxSubmissionAttempts cfg) 1%nat b1
  end.

(** The wait computed in [start] for one balance, in seconds; [nowMs] is
    [Date.now()].  [None] is the [continue] of a balance skipped because
    [extractMinTime] gave 0. *)
Definition start_wait (nowMs : Z) (bal : balance) : option Q :=
  let unlockTime := extractMinTime bal in
  if unlockTime =? 0 then None
  else
    let submitTime := unlockTime - earlySubmitOffset cfg in
    let now := (inject_Z nowMs / 1000)%Q in
    Some (Qmax (inject_Z submitTime - now) 0).

End Bot.

End OptimizedSweeper.


(** ** The continuous-flood sweeper *)

Module ContinuousFlood.
Import Horizon Stellar.

Record Config : Type := {
  baseFee : Z;
  maxFee : Z;
  feePriorityMultiplier : Q;
  maxSubmissionAttempts : nat;
  floodCount : nat;
  floodInterval : Z
}.

Definition config : Config := {|
  baseFee := 100000;
  maxFee := 1000000;
  feePriorityMultiplier := 2;
  maxSubmissionAttempts := 5;
  floodCount := 3;
  floodInterval := 200
|}.

Record transaction : Type := Transaction {
  tx_source : account;
  tx_fee : Z;
  tx_operations : list operation;
  tx_timebounds : timebounds;
  tx_signatures : list string
}.

(** The bot object.  [submissions] records the transactions handed to
    [server.submitTransaction] by the claim loop, oldest first; [floods]
    the duplicates left to timers, each with its delay in milliseconds;
    [accountLoads] counts the calls of [server.loadAccount]. *)
Record bot : Type := Bot {
  currentFee : Z;
  accountLoads : nat;
  submissions : list transaction;
  floods : list (Z * transaction)
}.

(** The world around one bot: the sponsor sequence returned by the n-th
    [loadAccount] ([None] when the call throws, or when the SDK then refuses
    to build the transaction: both end in the [catch] of the claim loop) and
    the answer to the n-th [submitTransaction]. *)
Record world : Type := World {
  loadAccount : nat -> option Z;
  submit : server
}.

Section Bot.
Variable cfg : Config.
Variable targetKP : string.
Variable sponsorKP : string.
Variable dest : string.

(** The constructor sets [currentFee] to [config.baseFee]. *)
Definition constructor : bot :=
  {| currentFee := baseFee cfg; accountLoads := 0;
     submissions := []; floods := [] |}.

Definition updateFeeStats (p80 : Z) (b : bot) : bot :=
  let fee := Qmax (inject_Z p80 * feePriorityMultiplier cfg)
                  (inject_Z (baseFee cfg)) in
  {| currentFee := Z.min (JS.ceilTo100 fee) (maxFee cfg);
     accountLoads := accountLoads b;
     submissions := submissions b;
     floods := floods b |}.

(** [buildTxForBalance] followed by the two [sign] calls of [start];
    [None] when [loadAccount] or the build throws. *)
Definition buildTxForBalance (w : world) (b : bot) (balanceId amount : string)
  : option transaction * bot :=
  let b' := {| currentFee := currentFee b;
               accountLoads := S (accountLoads b);
               submissions := submissions b;
               floods := floods b |} in
  match loadAccount w (accountLoads b) with
  | None => (None, b')
  | Some seq =>
      (Some {| tx_source := Account sponsorKP seq;
               tx_fee := currentFee b;
               tx_operations :=
                 [ claimClaimableBalance balanceId (Some targetKP);
                   payment dest amount (Some targetKP) ];
               tx_timebounds := Timeout 180;
               tx_signatures := [targetKP; sponsorKP] |}, b')
  end.

(** The [catch] block of the claim loop: "Bidding war: bump fee". *)
Definition bumpFee (b : bot) : bot :=
  {| currentFee :=
       Z.min (JS.ceilTo100 (inject_Z (currentFee b) * feePriorityMultiplier cfg))
             (maxFee cfg);
     accountLoads := accountLoads b;
     submissions := submissions b;
     floods := floods b |}.

(** "Flood duplicates": timer [i] resubmits [tx] after [i * floodInterval]. *)
Definition floodDuplicates (tx : transaction) : list (Z * transaction) :=
  map (fun i => (Z.of_nat i * floodInterval cfg, tx)) (seq 0 (floodCount cfg)).

(** The [while (attempt < config.maxSubmissionAttempts)] loop of [start]
    for one balance; [remaining] is [maxSubmissionAttempts - attempt].
    The result tells whether the loop left through [break]. *)
Fixpoint claimLoop (w : world) (balanceId amount : string)
         (remaining : nat) (b : bot) : bool * bot :=
  match remaining with
  | O => (false, b)
  | S remaining' =>
      match buildTxForBalance w b balanceId amount with
      | (None, b1) => claimLoop w balanceId amount remaining' (bumpFee b1)
      | (Some tx, b1) =>
          let b2 := {| currentFee := currentFee b1;
                       accountLoads := accountLoads b1;
                       submissions := submissions b1 ++ [tx];
                       floods := floods b1 |} in
          match submit w (List.length (submissions b1)) with
          | Accepted _ =>
              (true, {| currentFee := currentFee b2;
                        accountLoads := accountLoads b2;
                        submissions := submissions b2;
                        floods := floods b2 ++ floodDuplicates tx |})
          | Failed _ => claimLoop w balanceId amount remaining' (bumpFee b2)
          end
      end
  end.

Definition start_balance (w : world) (b : bot) (bal : balance) : bool * bot :=
  claimLoop w (id bal) (amount bal) (maxSubmissionAttempts cfg) b.

End Bot.

End ContinuousFlood.


(** ** The high-performance sweeper *)

Module HighPerformanceSweeper.
Import Horizon Stellar.

Record Config : Type := {
  horizonUrls : list string;
  baseFee : Z;
  feePriorityMultiplier : Q;
  maxFee : Z;
  maxSubmissionAttempts : nat
}.

Definition config : Config := {|
  horizonUrls := ["https://api.mainnet.minepi.com"%string];
  baseFee := 100000;
  feePriorityMultiplier := 3 # 2;
  maxFee := 1000000;
  maxSubmissionAttempts := 3
|}.

(** The fields of [server.feeStats()] that [updateNetworkFees] parses. *)
Record feeStats : Type := FeeStats {
  max_fee_mode : Z;
  fee_charged_min : Z;
  fee_charged_p80 : Z
}.

Record submissionStatus : Type := SubmissionStatus {
  preparing : bool;
  submitted : bool;
  confirmed : bool;
  attempts : nat
}.

Record unlockData : Type := UnlockData {
  unlockTime : option Z;
  unlockBlock : option Z;
  claimableBalance : option balance;
  claimableBalanceId : option string
}.

(** One parallel submission of a transaction to every Horizon client. *)
Record broadcast : Type := Broadcast {
  broadcast_fee : Z;
  broadcast_clients : nat
}.

(** The bot object: [networkStats.currentFee], [submissionStatus], and for
    the record the broadcasts made so far (oldest first) and the number of
    times the body of [prepareAndSubmitTransaction] was entered. *)
Record bot : Type := Bot {
  currentFee : Z;
  status : submissionStatus;
  broadcasts : list broadcast;
  passes : nat
}.

(** The world around one bot, indexed by the pass through
    [prepareAndSubmitTransaction]: the fee statistics obtained by
    [refreshAccountData] ([None] when it fails or the statistics carry no
    [fee_charged]), whether the SDK builds the transaction, and the answer
    of each client. *)
Record world : Type := World {
  refresh : nat -> option feeStats;
  builds : nat -> bool;
  answers : nat -> nat -> response
}.

(** *** Predicates *)

Section Children.
Variable visit : predicate -> option Z.

(** [for (const subPredicate of ...) { const time = visit(subPredicate);
    if (time) return time; }] *)
Fixpoint firstTime (subs : list predicate) : option Z :=
  match subs with
  | [] => None
  | subPredicate :: rest =>
      match visit subPredicate with
      | Some time => if JS.truthy time then Some time else firstTime rest
      | None => firstTime rest
      end
  end.

End Children.

Fixpoint findUnlockTimeInPredicate (p : predicate) : option Z :=
  match p with
  | Predicate _ _ epoch negated conjuncts disjuncts =>
      match epoch with
      | Some e => Some (e * 1000)
      | None =>
          match negated with
          | Some (Predicate _ _ (Some e) _ _ _) => Some (e * 1000)
          | _ =>
              match
                match conjuncts with
                | Some subs => firstTime findUnlockTimeInPredicate subs
                | None => None
                end
              with
              | Some time => Some time
              | None =>
                  match disjuncts with
                  | Some subs => firstTime findUnlockTimeInPredicate subs
                  | None => None
                  end
              end
          end
      end
  end.

Section AnyChild.
Variable visit : predicate -> bool.

(** [for (const subPredicate of ...) { if (visit(subPredicate)) return true; }] *)
Fixpoint anyChild (subs : list predicate) : bool :=
  match subs with
  | [] => false
  | subPredicate :: rest => if visit subPredicate then true else anyChild rest
  end.

End AnyChild.

Fixpoint hasTimeBasedPredicate (p : predicate) : bool :=
  match p with
  | Predicate _ before epoch negated conjuncts disjuncts =>
      match before, negated, epoch with
      | None, None, None =>
          if match conjuncts with
             | Some subs => anyChild hasTimeBasedPredicate subs
             | None => false
             end
          then true
          else
            match disjuncts with
            | Some subs => anyChild hasTimeBasedPredicate subs
            | None => false
            end
      | _, _, _ => true
      end
  end.

Definition isTimeLockedBalance (targetKeypair : string) (b : balance) : bool :=
  match find (fun c => String.eqb (destination c) targetKeypair) (claimants b) with
  | Some (Claimant _ (Some p)) => hasTimeBasedPredicate p
  | _ => false
  end.

(** [extractUnlockTime] for the predicate of the first claimant whose
    destination is the target. *)
Definition extractUnlockTime (targetKeypair : string) (b : balance) : option Z :=
  match find (fun c => String.eqb (destination c) targetKeypair) (claimants b) with
  | Some (Claimant _ (Some p)) => findUnlockTimeInPredicate p
  | _ => None
  end.

(** The loop of [detectClaimableBalances] over the records returned by
    Horizon; [nowMs] is [Date.now()] and [currentLedgerNum] the sequence of
    the latest ledger, [None] when asking for it throws: the unlock time
    has been stored by then, and the [catch] returns false. *)
Fixpoint detectClaimableBalances (targetKeypair : string)
         (nowMs : Z) (currentLedgerNum : option Z)
         (records : list balance) (u : unlockData)
  : bool * unlockData :=
  match records with
  | [] => (false, u)
  | bal :: rest =>
      if isTimeLockedBalance targetKeypair bal then
        let u1 := {| unlockTime := unlockTime u;
                     unlockBlock := unlockBlock u;
                     claimableBalance := Some bal;
                     claimableBalanceId := Some (id bal) |} in
        match extractUnlockTime targetKeypair bal with
        | Some t =>
            if JS.truthy t then
              let u2 := {| unlockTime := Some t;
                           unlockBlock := unlockBlock u1;
                           claimableBalance := claimableBalance u1;
                           claimableBalanceId := claimableBalanceId u1 |} in
              match currentLedgerNum with
              | Some currentLedgerNum =>
                  let timeUntilUnlock := t - nowMs in
                  let blocksUntilUnlock :=
                    Qceiling (inject_Z timeUntilUnlock / 5000) in
                  (true, {| unlockTime := unlockTime u2;
                            unlockBlock := Some (currentLedgerNum + blocksUntilUnlock);
                            claimableBalance := claimableBalance u2;
                            claimableBalanceId := claimableBalanceId u2 |})
              | None => (false, u2)
              end
            else detectClaimableBalances targetKeypair nowMs currentLedgerNum rest u1
        | None => detectClaimableBalances targetKeypair nowMs currentLedgerNum rest u1
        end
      else detectClaimableBalances targetKeypair nowMs currentLedgerNum rest u
  end.

Section Bot.
Variable cfg : Config.

Definition constructor : bot :=
  {| currentFee := baseFee cfg * 3;
     status := {| preparing := false; submitted := false;
                  confirmed := false; attempts := 0 |};
     broadcasts := [];
     passes := 0 |}.

(** The fee [updateNetworkFees] stores in [networkStats.currentFee]. *)
Definition updateNetworkFees (stats : option feeStats) (fee : Z) : Z :=
  match stats with
  | None => fee
  | Some s =>
      let min := fee_charged_min s in
      let targetFee := Qmax (inject_Z (fee_charged_p80 s) * feePriorityMultiplier cfg)
                            (inject_Z (baseFee cfg)) in
      let targetFee := Qmin targetFee (inject_Z (maxFee cfg)) in
      let targetFee := Qmax targetFee (inject_Z min) in
      JS.ceilTo100 targetFee
  end.

Definition setStatus (b : bot) (s : submissionStatus) : bot :=
  {| currentFee := currentFee b; status := s;
     broadcasts := broadcasts b; passes := passes b |}.

Definition setFee (b : bot) (fee : Z) : bot :=
  {| currentFee := fee; status := status b;
     broadcasts := broadcasts b; passes := passes b |}.

(** The answers of all clients to the broadcast of pass [n]. *)
Definition results (w : world) (n : nat) : list response :=
  map (answers w n) (seq 0 (List.length (horizonUrls cfg))).

(** [prepareAndSubmitTransaction(prepareOnly)].  Every path through the
    body of its [for] loop returns, so the body runs once per call.  The
    result is the returned value: [None] for [undefined]. *)
Equations? prepareAndSubmitTransaction (w : world) (prepareOnly : bool) (b : bot)
  : option bool * bot
  by wf (maxSubmissionAttempts cfg - attempts (status b))%nat lt :=
prepareAndSubmitTransaction w prepareOnly b :=
  if submitted (status b) then (None, b)
  else if prepareOnly && preparing (status b) then (None, b)
  else
    let st := status b in
    let n := passes b in
    let b1 := {| currentFee := updateNetworkFees (refresh w n) (currentFee b);
                 status := {| preparing := true; submitted := submitted st;
                              confirmed := confirmed st; attempts := attempts st |};
                 broadcasts := broadcasts b;
                 passes := S n |} in
    let fee := currentFee b1 in
    if negb (builds w n) then
      let st1 := status b1 in
      (Some false,
       setStatus b1 {| preparing := false; submitted := submitted st1;
                       confirmed := confirmed st1; attempts := attempts st1 |})
    else if prepareOnly then (None, b1)
    else
      let b2 := {| currentFee := fee;
                   status := {| preparing := true; submitted := true;
                                confirmed := confirmed st;
                                attempts := S (attempts st) |};
                   broadcasts := broadcasts b1 ++
                     [ {| broadcast_fee := fee;
                          broadcast_clients := List.length (horizonUrls cfg) |} ];
                   passes := S n |} in
      let st2 := status b2 in
      if existsb succeeded (results w n) then
        (Some true,
         setStatus b2 {| preparing := true; submitted := true;
                         confirmed := true; attempts := attempts st2 |})
      else
        match lt_dec (attempts st2) (maxSubmissionAttempts cfg) with
        | left _ =>
            let b3 := setStatus b2 {| preparing := true; submitted := false;
                                      confirmed := confirmed st2;
                                      attempts := attempts st2 |} in
            let b4 := setFee b3
                        (Z.min (JS.round (inject_Z (currentFee b3) * (3 # 2)))
                               (maxFee cfg)) in
            prepareAndSubmitTransaction w false b4
        | right _ => (Some false, b2)
        end.
Proof.
  subst b4 b3 st2 b2 b1 st. simpl in *. lia.
Qed.

End Bot.

End HighPerformanceSweeper.


(** ** The precision claim bot (pi-js-bot.js) *)

Module PrecisionClaimBot.
Import Stellar.

(** *** Block monitoring *)

(** A ledger record of Horizon: its sequence and [new Date(closed_at).getTime()],
    in milliseconds. *)
Record ledger : Type := Ledger {
  ledger_sequence : Z;
  closed_at : Z
}.

Record monitor : Type := Monitor {
  latestLedgerNum : Z;
  lastLedgerCloseTime : Z;
  avgBlockTimeMs : Q;
  blockTimes : list Z
}.

(** [startBlockMonitoring], on the bot as the constructor left it
    ([avgBlockTimeMs = 5000], [blockTimes = []]): the two fields taken from
    the latest ledger. *)
Definition startBlockMonitoring (latestLedger : ledger) : monitor :=
  {| latestLedgerNum := ledger_sequence latestLedger;
     lastLedgerCloseTime := closed_at latestLedger;
     avgBlockTimeMs := 5000;
     blockTimes := [] |}.

(** The callback given to [setInterval]; [None] is a poll that threw. *)
Definition blockMonitorInterval (m : monitor) (poll : option ledger) : monitor :=
  match poll with
  | None => m
  | Some currentLedger =>
      let currentLedgerNum := ledger_sequence currentLedger in
      let currentCloseTime := closed_at currentLedger in
      if latestLedgerNum m <? currentLedgerNum then
        let blockTime := currentCloseTime - lastLedgerCloseTime m in
        let pushed := blockTimes m ++ [blockTime] in
        let kept := if (10 <? List.length pushed)%nat then tl pushed else pushed in
        {| latestLedgerNum := currentLedgerNum;
           lastLedgerCloseTime := currentCloseTime;
           avgBlockTimeMs :=
             inject_Z (fold_left Z.add kept 0)
             / inject_Z (Z.of_nat (List.length kept));
           blockTimes := kept |}
      else m
  end.

(** [expectedNextBlockTime] of [checkUnlockTimeProximity] *)
Definition expectedNextBlockTime (m : monitor) : Q :=
  inject_Z (lastLedgerCloseTime m) + avgBlockTimeMs m.

(** The monitor after [startBlockMonitoring] and a run of polls. *)
Definition monitorBlocks (latestLedger : ledger) (polls : list (option ledger))
  : monitor :=
  fold_left blockMonitorInterval polls (startBlockMonitoring latestLedger).

(** *** The flood *)

Record transaction : Type := Transaction {
  tx_account : account;
  tx_fee : string;
  tx_operations : list operation;
  tx_timebounds : timebounds;
  tx_signatures : list string
}.

Inductive envelope : Type :=
| Plain (tx : transaction)
| FeeBump (feeSource : string) (fee : string) (inner : transaction).

Definition innerTransaction (e : envelope) : transaction :=
  match e with
  | Plain tx => tx
  | FeeBump _ _ tx => tx
  end.

Record txInfo : Type := TxInfo {
  tx : envelope;
  fee : JS.value;
  index : nat
}.

(** The bot object.  A keypair is named by its public key; [None] is the
    [null] the constructor leaves in the four key fields. *)
Record bot : Type := Bot {
  sourceKeypair : option string;
  sourcePublicKey : option string;
  sponsorKeypair : option string;
  sponsorPublicKey : option string;
  useFeeSponsor : bool;
  targetAddress : string;
  claimableBalanceId : string;
  txCount : nat;
  baseFee : JS.value;
  feeIncrement : Z;
  txSpacingMs : Z;
  isRunning : bool;
  transactions : list txInfo
}.

Definition setTransactions (b : bot) (running : bool) (txs : list txInfo) : bot :=
  {| sourceKeypair := sourceKeypair b;
     sourcePublicKey := sourcePublicKey b;
     sponsorKeypair := sponsorKeypair b;
     sponsorPublicKey := sponsorPublicKey b;
     useFeeSponsor := useFeeSponsor b;
     targetAddress := targetAddress b;
     claimableBalanceId := claimableBalanceId b;
     txCount := txCount b;
     baseFee := baseFee b;
     feeIncrement := feeIncrement b;
     txSpacingMs := txSpacingMs b;
     isRunning := running;
     transactions := txs |}.

(** [initializeKeypairs] when it returns: [source] is the public key of the
    keypair derived from the source passphrase or secret, [sponsor] that of
    the sponsor when a sponsor passphrase or secret is configured, and
    [max_fee_max] is [feeStats.max_fee.max], which Horizon serialises as a
    string and which replaces the numeric [baseFee] of the constructor.
    When one of its steps throws, [initializeKeypairs] throws and [start]
    goes no further. *)
Definition initializeKeypairs (source : string) (sponsor : option string)
           (max_fee_max : string) (b : bot) : bot :=
  {| sourceKeypair := Some source;
     sourcePublicKey := Some source;
     sponsorKeypair :=
       match sponsor with Some _ => sponsor | None => sponsorKeypair b end;
     sponsorPublicKey :=
       match sponsor with Some _ => sponsor | None => sponsorPublicKey b end;
     useFeeSponsor := match sponsor with Some _ => true | None => false end;
     targetAddress := targetAddress b;
     claimableBalanceId := claimableBalanceId b;
     txCount := txCount b;
     baseFee := JS.Str max_fee_max;
     feeIncrement := feeIncrement b;
     txSpacingMs := txSpacingMs b;
     isRunning := isRunning b;
     transactions := transactions b |}.

Section Flood.
Variable numberToString : Z -> string.
Variable stringToNumber : string -> option Z.
(** The Stellar SDK is not part of the repository: [builds fee] tells
    whether [TransactionBuilder.build()] accepts the fee for the two
    operations of a candidate, [buildsFeeBump fee] whether
    [buildFeeBumpTransaction] accepts it as the fee of the fee bump; each
    throws when it does not.  The other arguments are the same for every
    candidate. *)
Variable builds : string -> bool.
Variable buildsFeeBump : string -> bool.

(** [const fee = this.baseFee + (i * this.feeIncrement)] *)
Definition candidateFee (b : bot) (i : nat) : JS.value :=
  JS.plus numberToString (baseFee b) (Z.of_nat i * feeIncrement b).

(** The body of the [for] loop of [prepareTransactions] for index [i]: the
    candidate it pushes, or [None] when it throws.  [sourceSequence] is
    [sourceAccount.sequenceNumber()]. *)
Definition prepareTransaction (b : bot) (sourceSequence : Z) (i : nat)
  : option txInfo :=
  let fee := candidateFee b i in
  let currentSequence := sourceSequence in
  let newSequence := currentSequence + 1 in
  match sourcePublicKey b, sourceKeypair b with
  | Some publicKey, Some keypair =>
      if builds (JS.toString numberToString fee) then
        let txAccount := Account publicKey newSequence in
        let tx :=
          {| tx_account := txAccount;
             tx_fee := JS.toString numberToString fee;
             tx_operations :=
               [ claimClaimableBalance (claimableBalanceId b) None;
                 pathPaymentStrictSend "99999999" (targetAddress b) "0.0000001" ];
             tx_timebounds := Timeout 300;
             tx_signatures := [keypair] |} in
        if useFeeSponsor b then
          match sponsorKeypair b with
          | Some sponsor =>
              if buildsFeeBump (JS.toString numberToString fee) then
                Some {| tx := FeeBump sponsor (JS.toString numberToString fee) tx;
                        fee := fee; index := i |}
              else None
          | None => None
          end
        else Some {| tx := Plain tx; fee := fee; index := i |}
      else None
  | _, _ => None
  end.

(** The [for] loop of [prepareTransactions] over the indices still to
    come, [pushed] being [this.transactions]: whether it ran to its end, and
    the list it leaves. *)
Fixpoint buildCandidates (b : bot) (sourceSequence : Z) (indices : list nat)
         (pushed : list txInfo) : bool * list txInfo :=
  match indices with
  | [] => (true, pushed)
  | i :: rest =>
      match prepareTransaction b sourceSequence i with
      | Some txInfo => buildCandidates b sourceSequence rest (pushed ++ [txInfo])
      | None => (false, pushed)
      end
  end.

(** [(a, b) => b.fee - a.fee] *)
Definition byFeeDescending (a b : txInfo) : option Z :=
  JS.minus stringToNumber (fee b) (fee a).

(** [prepareTransactions]: whether it returns rather than throws, and the
    list it leaves in [this.transactions].  [sourceSequence] is the sequence
    of the source account, [None] when a [loadAccount] throws, as it does
    for a source key that is [null]; the list is emptied only after that.
    The message logged after the sort reads the fee of the last candidate
    and throws when there is none. *)
Definition prepareTransactions (b : bot) (sourceSequence : option Z)
  : bool * list txInfo :=
  match sourcePublicKey b, sourceSequence with
  | Some _, Some s =>
      match buildCandidates b s (seq 0 (txCount b)) [] with
      | (true, built) =>
          let sorted := JS.sort byFeeDescending built in
          (negb (List.length sorted =? 0)%nat, sorted)
      | (false, built) => (false, built)
      end
  | _, _ => (false, transactions b)
  end.

(** The timers set by the [for] loop of [executeFlood]: candidate [i] is
    submitted after [i * txSpacingMs] milliseconds. *)
Fixpoint floodTimers (spacing : Z) (i : nat) (txs : list txInfo)
  : list (Z * txInfo) :=
  match txs with
  | [] => []
  | txInfo :: rest =>
      (Z.of_nat i * spacing, txInfo) :: floodTimers spacing (S i) rest
  end.

(** [executeFlood]: the bot it leaves and the timers it sets.
    [sourceSequence] is the answer of [loadAccount] should the candidates
    still have to be prepared.  When [prepareTransactions] throws, the
    [catch] of [executeFlood] logs the error and no timer is set. *)
Definition executeFlood (sourceSequence : option Z) (b : bot)
  : bot * list (Z * txInfo) :=
  if isRunning b then (b, [])
  else
    let b1 := setTransactions b true (transactions b) in
    if (List.length (transactions b1) =? 0)%nat then
      match prepareTransactions b1 sourceSequence with
      | (true, prepared) =>
          let b2 := setTransactions b1 true prepared in
          (b2, floodTimers (txSpacingMs b2) 0 (transactions b2))
      | (false, pushed) => (setTransactions b1 true pushed, [])
      end
    else (b1, floodTimers (txSpacingMs b1) 0 (transactions b1)).

End Flood.

(** *** The ledger's view of the candidates *)

Section Ledger.
(** [stamp s] is the sequence number the SDK writes into a transaction
    built from an account whose sequence is [s]; [accept cur n] is the
    sequence of the source account after the ledger has applied a
    transaction numbered [n] when the account stood at [cur], [None] when
    the ledger rejects it. *)
Variable stamp : Z -> Z.
Variable accept : Z -> Z -> option Z.

Definition sequenceNumber (t : txInfo) : Z :=
  stamp (sequence (tx_account (innerTransaction (tx t)))).

(** What reaches the ledger for the source account, in order of arrival: a
    candidate of the flood, or a transaction of somebody else that moves the
    account's sequence forward by [d]. *)
Inductive arrival : Type :=
| Candidate (t : txInfo)
| Foreign (d : nat).

(** The number of candidates the ledger accepts, from account sequence
    [cur]. *)
Fixpoint acceptedCandidates (cur : Z) (arrivals : list arrival) : nat :=
  match arrivals with
  | [] => 0
  | Candidate t :: rest =>
      match accept cur (sequenceNumber t) with
      | Some cur' => S (acceptedCandidates cur' rest)
      | None => acceptedCandidates cur rest
      end
  | Foreign d :: rest => acceptedCandidates (cur + Z.of_nat d) rest
  end.

End Ledger.

(** The rule of the Stellar ledger: a transaction is applied only when its
    number is the account's sequence plus one, and becomes the sequence. *)
Definition stellarAccept (cur n : Z) : option Z :=
  if n =? cur + 1 then Some n else None.

(** The rule of the Stellar SDK: [TransactionBuilder.build()] numbers the
    transaction with the sequence of its source account plus one. *)
Definition stellarStamp (s : Z) : Z := s + 1.

(** The rules of the Stellar SDK for the fee: [build()] multiplies it by
    the number of operations, two here, and the product has to fit an
    unsigned 32-bit integer; [buildFeeBumpTransaction] wants a fee of at
    least 100 stroops and at least the fee of the inner transaction for
    each of its operations, which here is the same fee. *)
Definition stellarBuilds (fee : string) : bool :=
  match JS.parseDecimal fee with
  | Some n => (0 <=? n) && (n * 2 <=? 4294967295)
  | None => false
  end.

Definition stellarBuildsFeeBump (fee : string) : bool :=
  match JS.parseDecimal fee with
  | Some n => 100 <=? n
  | None => false
  end.

End PrecisionClaimBot.


(** ** The main loops of the two claim-all sweepers *)

Module OptimizedSweeperLoop.
Import Horizon Stellar OptimizedSweeper.

(** What the world gives [start] while it handles one balance: [Date.now()]
    when the wait is computed, the sponsor sequence returned by
    [loadAccount] ([None] when the call throws), whether the SDK builds and
    signs the transaction in [buildAndSign], and whether [getLatestLedger]
    returns. *)
Record turn : Type := Turn {
  turn_balance : balance;
  turn_nowMs : Z;
  turn_sponsorSequence : option Z;
  turn_builds : bool;
  turn_ledger : bool
}.

(** How the body of the [for] loop ends for one balance: by [continue] on a
    balance without unlock time; after [submitWithRetries], having waited
    [wait] seconds and built [tx]; or by an exception thrown after the wait
    and before anything was submitted, which leaves the [for] loop. *)
Inductive turnEnd : Type :=
| Skipped
| Handled (wait : Q) (tx : transaction) (e : exit)
| Thrown (wait : Q).

(** How one pass through the body of [while (true)] ends: the [for] loop
    ran to its end, there were no balances, or an exception reached the
    [catch] of the loop. *)
Inductive passEnd : Type :=
| BalancesDone
| NoBalances
| LoopError.

Section Loop.
Variable cfg : Config.
Variable targetKP : string.
Variable sponsorKP : string.
Variable dest : string.

(** The body of the [for (const bal of balances)] loop of [start]. *)
Definition start_balance (srv : server) (t : turn) (b : bot) : turnEnd * bot :=
  let bal := turn_balance t in
  match start_wait cfg targetKP (turn_nowMs t) bal with
  | None => (Skipped, b)
  | Some wait =>
      match turn_sponsorSequence t with
      | None => (Thrown wait, b)
      | Some sponsorSequence =>
          let sponsorAccount := Account sponsorKP sponsorSequence in
          if turn_builds t then
            let tx := buildAndSign cfg targetKP sponsorKP dest b bal sponsorAccount in
            if turn_ledger t then
              let (e, b') := submitWithRetries cfg sponsorKP srv b tx in
              (Handled wait tx e, b')
            else (Thrown wait, b)
          else (Thrown wait, b)
      end
  end.

(** The [for (const bal of balances)] loop of [start]. *)
Fixpoint start_balances (srv : server) (turns : list turn) (b : bot)
  : passEnd * bot :=
  match turns with
  | [] => (BalancesDone, b)
  | t :: rest =>
      match start_balance srv t b with
      | (Thrown _, b') => (LoopError, b')
      | (_, b') => start_balances srv rest b'
      end
  end.

(** One pass through the body of [while (true)]: [p99] is the percentile
    read by [updateFeeStats], [None] when [feeStats] throws. *)
Definition start_pass (srv : server) (p99 : option Z) (turns : list turn) (b : bot)
  : passEnd * bot :=
  match p99 with
  | None => (LoopError, b)
  | Some p =>
      let b1 := updateFeeStats cfg p b in
      match turns with
      | [] => (NoBalances, b1)
      | _ => start_balances srv turns b1
      end
  end.

End Loop.

End OptimizedSweeperLoop.

Module ContinuousFloodLoop.
Import Horizon Stellar ContinuousFlood.

Section Loop.
Variable cfg : Config.
Variable targetKP : string.
Variable sponsorKP : string.
Variable dest : string.

(** The [for (const bal of balances)] loop of [start]: every exception of
    its body is caught inside the claim loop. *)
Fixpoint start_balances (w : world) (balances : list balance) (b : bot) : bot :=
  match balances with
  | [] => b
  | bal :: rest =>
      start_balances w rest
        (snd (start_balance cfg targetKP sponsorKP dest w b bal))
  end.

(** One pass through the body of [while (true)], [p80] being the
    percentile read by [updateFeeStats]. *)
Definition start_pass (w : world) (p80 : Z) (balances : list balance) (b : bot)
  : bot :=
  start_balances w balances (updateFeeStats cfg p80 b).

End Loop.

End ContinuousFloodLoop.


(** ** Horizons and monitoring of the high-performance sweeper *)

Module HighPerformanceMonitoring.
Import Horizon HighPerformanceSweeper.

(** One entry of [results] in [testHorizonPerformance]; a duration of
    [None] is [Infinity]. *)
Record probe : Type := Probe {
  probe_index : nat;
  probe_duration : option Z;
  probe_success : bool
}.

(** The entry for client [index]: [timing] is the time [getNetwork] took,
    [None] when it threw. *)
Definition probeOf (index : nat) (timing : option Z) : probe :=
  match timing with
  | Some duration =>
      {| probe_index := index; probe_duration := Some duration;
         probe_success := true |}
  | None =>
      {| probe_index := index; probe_duration := None; probe_success := false |}
  end.

(** [this.stellarClients.map(async (client, index) => ...)] *)
Fixpoint probes (index : nat) (timings : list (option Z)) : list probe :=
  match timings with
  | [] => []
  | timing :: rest => probeOf index timing :: probes (S index) rest
  end.

(** [(a, b) => a.duration - b.duration]; of a difference that is infinite
    only the sign is kept, and [Infinity - Infinity] is NaN. *)
Definition byDuration (a b : probe) : option Z :=
  match probe_duration a, probe_duration b with
  | Some x, Some y => Some (x - y)
  | Some _, None => Some (-1)
  | None, Some _ => Some 1
  | None, None => None
  end.

(** [testHorizonPerformance]: the value of [networkStats.bestHorizon] it
    leaves, [None] when reading [results[0]] throws. *)
Definition testHorizonPerformance (timings : list (option Z)) (bestHorizon : nat)
  : option nat :=
  match JS.sort byDuration (probes 0 timings) with
  | [] => None
  | first :: _ =>
      Some (if probe_success first then probe_index first else bestHorizon)
  end.



End HighPerformanceMonitoring.

(** ** Timing of the precision claim bot *)

Module PrecisionClaimSchedule.
Import PrecisionClaimBot.

(** [this.unlockTimestamp] is a number of milliseconds or, when it was not
    configured, [undefined]; the bot only ever asks whether it is truthy
    before it computes with it, so 0 stands here for every falsy value. *)

Section Fetch.
(** [new Date(iso).getTime()]; NaN, falsy too, is 0 here as well. *)
Variable dateGetTime : string -> Z.

(** The body of the loop of [fetchClaimableBalanceDetails] over the
    claimants: [unlockTimestamp] after the claimant has been looked at. *)
Definition fetchClaimant (sourcePublicKey : string) (unlockTimestamp : Z)
           (claimant : Horizon.claimant) : Z :=
  if (Horizon.destination claimant =? sourcePublicKey)%string then
    match Horizon.claim_predicate claimant with
    | Some predicate =>
        match Horizon.not_ predicate with
        | Some inner =>
            match Horizon.abs_before inner with
            | Some unlockTimeISO =>
                if negb (unlockTimeISO =? "")%string then
                  if negb (JS.truthy unlockTimestamp)
                  then dateGetTime unlockTimeISO
                  else unlockTimestamp
                else unlockTimestamp
            | None => unlockTimestamp
            end
        | None => unlockTimestamp
        end
    | None => unlockTimestamp
    end
  else unlockTimestamp.

(** [this.unlockTimestamp] after [fetchClaimableBalanceDetails] has read
    [balance]. *)
Definition fetchClaimableBalanceDetails (sourcePublicKey : string)
           (unlockTimestamp : Z) (balance : Horizon.balance) : Z :=
  fold_left (fetchClaimant sourcePublicKey) (Horizon.claimants balance)
            unlockTimestamp.

End Fetch.

(** What one call of [checkUnlockTimeProximity] sets off: a preparation of
    the candidates, a flood after a delay in milliseconds (the delay of the
    outer timer plus the 100 ms of the inner one), a flood at once. *)
Record proximity : Type := Proximity {
  prepareNow : bool;
  floodAfter : option Q;
  floodNow : bool
}.

Definition checkUnlockTimeProximity (unlockTimestamp now : Z)
           (m : monitor) (b : bot) : proximity :=
  if negb (JS.truthy unlockTimestamp)
  then {| prepareNow := false; floodAfter := None; floodNow := false |}
  else
    let timeToUnlock := unlockTimestamp - now in
    {| prepareNow :=
         (0 <? timeToUnlock) && (timeToUnlock <? 30000)
         && (List.length (transactions b) =? 0)%nat;
       floodAfter :=
         if (0 <? timeToUnlock)
            && negb (Qle_bool (avgBlockTimeMs m * 2)%Q (inject_Z timeToUnlock))
         then
           let expectedNextBlockTime :=
             (inject_Z (lastLedgerCloseTime m) + avgBlockTimeMs m)%Q in
           if Qle_bool (inject_Z unlockTimestamp) expectedNextBlockTime
           then
             let timeToNextBlock := (expectedNextBlockTime - inject_Z now)%Q in
             Some (Qmax 0 (timeToNextBlock - 500) + 100)%Q
           else None
         else None;
       floodNow := (timeToUnlock <=? 0) && negb (isRunning b) |}.

(** What [start] sets off once the keys, the balance and the block monitor
    are set up. *)
Inductive startAction : Type :=
| FloodAtOnce
| PrepareAfter (delay : Z)
| PrepareAtOnce
| AwaitTrigger.

Definition start (unlockTimestamp now : Z) : startAction :=
  if JS.truthy unlockTimestamp && (unlockTimestamp <=? now) then FloodAtOnce
  else if JS.truthy unlockTimestamp then
    let timeToUnlock := unlockTimestamp - now in
    if 30000 <? timeToUnlock then PrepareAfter (timeToUnlock - 30000)
    else PrepareAtOnce
  else AwaitTrigger.

End PrecisionClaimSchedule.

(** ** The ledger watcher *)

Module LedgerWatch.

(** [LEDGER_INTERVAL], in seconds. *)
Definition LEDGER_INTERVAL : Z := 5.

(** What [getLatestLedger] returns: the sequence and the close time in
    milliseconds. *)
Record ledger : Type := Ledger {
  sequence : Z;
  closeTime : Z
}.

(** The watcher: [lastLedger], the ledgers it has announced on the console
    (oldest first), and the milliseconds it has slept in all. *)
Record watcher : Type := Watcher {
  lastLedger : Z;
  announced : list ledger;
  slept : Z
}.

(** [let lastLedger = 0;] *)
Definition initial : watcher :=
  {| lastLedger := 0; announced := []; slept := 0 |}.

(** The estimate computed for an announced ledger. *)
Definition nextClose (l : ledger) : Z := closeTime l + LEDGER_INTERVAL * 1000.

(** One turn of the loop of [monitorBlocks]; [None] is a poll that threw. *)
Definition monitorTurn (wt : watcher) (poll : option ledger) : watcher :=
  match poll with
  | Some l =>
      if sequence l =? lastLedger wt
      then {| lastLedger := lastLedger wt; announced := announced wt;
              slept := slept wt + 1000 |}
      else {| lastLedger := sequence l; announced := announced wt ++ [l];
              slept := slept wt + 1000 |}
  | None =>
      {| lastLedger := lastLedger wt; announced := announced wt;
         slept := slept wt + 5000 |}
  end.

(** [monitorBlocks] over a run of polls. *)
Definition monitorBlocks (polls : list (option ledger)) : watcher :=
  fold_left monitorTurn polls initial.

End LedgerWatch.


(** ** The formulas of the specification

    Written from the words of the specification, to be compared with the
    functions above. *)

Module Spec.

(** [clamp(x, lo, hi)] *)
Definition clamp (x lo hi : Q) : Q := Qmin (Qmax x lo) hi.

(** Rounding up to the next multiple of 100. *)
Definition roundUp100 (x : Q) : Z := Qceiling (x / 100) * 100.

(** [bid = clamp(max(stats.pXX * multiplier, floor), floor, ceiling)],
    rounded up to the nearest 100 units. *)
Definition quote (pXX : Z) (multiplier : Q) (floor ceiling : Z) : Z :=
  roundUp100
    (clamp (Qmax (inject_Z pXX * multiplier) (inject_Z floor))
           (inject_Z floor) (inject_Z ceiling)).

(** The intervals between consecutive close times. *)
Fixpoint intervals (closes : list Z) : list Z :=
  match closes with
  | a :: (b :: _) as rest => (b - a) :: intervals rest
  | _ => []
  end.

(** The most recent [K] elements of a list. *)
Definition lastN {A : Type} (K : nat) (l : list A) : list A :=
  skipn (List.length l - K) l.

(** The simple arithmetic mean. *)
Definition mean (l : list Z) : Q :=
  inject_Z (fold_right Z.add 0 l) / inject_Z (Z.of_nat (List.length l)).

(** [estimateNextClose()]: last close + moving average of the last [K]
    intervals; on fewer than 2 samples, the fixed default interval. *)
Definition estimateNextClose (K : nat) (defaultInterval : Q) (closes : list Z) : Q :=
  inject_Z (last closes 0)
  + (if (List.length closes <? 2)%nat then defaultInterval
     else mean (lastN K (intervals closes))).

(** [wait = max(unlockInstant - earlySubmitOffset - now, 0)] *)
Definition wait (unlockInstant earlySubmitOffset now : Q) : Q :=
  Qmax (unlockInstant - earlySubmitOffset - now) 0.

End Spec.

(** ** Notions and inputs used in the statements *)

Module PredicateNotions.
Import Horizon HighPerformanceSweeper.

(** Every [abs_before_epoch] that occurs in a predicate tree. *)
Fixpoint epochs (p : predicate) : list Z :=
  match p with
  | Predicate _ _ epoch negated conjuncts disjuncts =>
      match epoch with Some e => [e] | None => [] end
      ++ match negated with Some q => epochs q | None => [] end
      ++ match conjuncts with Some subs => flat_map epochs subs | None => [] end
      ++ match disjuncts with Some subs => flat_map epochs subs | None => [] end
  end.

(** The children of a node, those under [and] before those under [or]. *)
Definition children (p : predicate) : list predicate :=
  match and_ p with Some subs => subs | None => [] end
  ++ match or_ p with Some subs => subs | None => [] end.

(** The bound a node carries itself: its own [abs_before_epoch], else the
    one directly under its [not]. *)
Definition ownEpoch (p : predicate) : option Z :=
  match abs_before_epoch p with
  | Some e => Some e
  | None =>
      match not_ p with
      | Some q => abs_before_epoch q
      | None => None
      end
  end.

(** A child on which the search goes on: it gave [null] or 0. *)
Definition unresolved (p : predicate) : Prop :=
  findUnlockTimeInPredicate p = None \/ findUnlockTimeInPredicate p = Some 0.

Definition before (epoch : Z) : predicate :=
  Predicate None None (Some epoch) None None None.

Definition allOf (subs : list predicate) : predicate :=
  Predicate None None None None (Some subs) None.

Definition anyOf (subs : list predicate) : predicate :=
  Predicate None None None None None (Some subs).

(** A balance locked for [target] until [epoch], in the usual shape
    [{not: {abs_before_epoch}}]. *)
Definition lockedUntil (target : string) (epoch : Z) : balance :=
  {| id := "00000000ab";
     amount := "837.8";
     claimants :=
       [ {| destination := target;
            claim_predicate :=
              Some (Predicate None None None
                      (Some (Predicate None None (Some epoch) None None None))
                      None None) |} ] |}.

Section PredicateInduction.
Variable P : predicate -> Prop.
Hypothesis node :
  forall after iso epoch negated conjuncts disjuncts,
    (forall q, negated = Some q -> P q) ->
    (forall subs, conjuncts = Some subs -> Forall P subs) ->
    (forall subs, disjuncts = Some subs -> Forall P subs) ->
    P (Predicate after iso epoch negated conjuncts disjuncts).

Fixpoint predicate_induction (p : predicate) : P p :=
  let all :=
    fix all (subs : list predicate) : Forall P subs :=
      match subs with
      | [] => Forall_nil P
      | q :: rest => Forall_cons q (predicate_induction q) (all rest)
      end in
  match p with
  | Predicate after iso epoch negated conjuncts disjuncts =>
      node after iso epoch negated conjuncts disjuncts
        (match negated as o return forall q, o = Some q -> P q with
         | Some q0 => fun q H =>
             match H in _ = s return match s with Some x => P x | None => True end
             with eq_refl => predicate_induction q0 end
         | None => fun q H =>
             match H in _ = s return match s with Some _ => P q | None => True end
             with eq_refl => I end
         end)
        (match conjuncts as o return forall subs, o = Some subs -> Forall P subs with
         | Some l0 => fun subs H =>
             match H in _ = s
                   return match s with Some x => Forall P x | None => True end
             with eq_refl => all l0 end
         | None => fun subs H =>
             match H in _ = s
                   return match s with Some _ => Forall P subs | None => True end
             with eq_refl => I end
         end)
        (match disjuncts as o return forall subs, o = Some subs -> Forall P subs with
         | Some l0 => fun subs H =>
             match H in _ = s
                   return match s with Some x => Forall P x | None => True end
             with eq_refl => all l0 end
         | None => fun subs H =>
             match H in _ = s
                   return match s with Some _ => Forall P subs | None => True end
             with eq_refl => I end
         end)
  end.

End PredicateInduction.

End PredicateNotions.

Module FeeNotions.

(** Fee statistics of a congested network: the smallest fee charged is
    above the ceiling of the high-performance sweeper. *)
Definition congested : HighPerformanceSweeper.feeStats := {|
  HighPerformanceSweeper.max_fee_mode := 3000000;
  HighPerformanceSweeper.fee_charged_min := 2000000;
  HighPerformanceSweeper.fee_charged_p80 := 3000000
|}.

End FeeNotions.

Module RetryNotions.
Import Horizon Stellar OptimizedSweeper.

(** A server that rejects every submission with the given error. *)
Definition rejecting (e : errorCategory) : server := fun _ => Failed e.

(** A server that refuses the first [n] submissions and accepts the
    others. *)
Definition acceptingFrom (n : nat) : server :=
  fun i => if (i <? n)%nat then Failed FeeTooLow else Accepted "9f3c".

Definition candidate : transaction :=
  buildAndSign config "GTARGET" "GSPONSOR" "GDEST"
    (updateFeeStats config 50000 (Bot 0 []))
    (PredicateNotions.lockedUntil "GTARGET" 1700000000)
    (Account "GSPONSOR" 7).

(** The fees of the envelopes submitted so far, oldest first. *)
Definition bids (b : bot) : list Z := map envelope_fee (submissions b).

End RetryNotions.

Module ClaimLoopNotions.
Import Horizon Stellar ContinuousFlood.

(** The fees of the transactions submitted by the claim loop so far. *)
Definition claimBids (b : bot) : list Z := map tx_fee (submissions b).

(** Two worlds that differ at most in the errors of failed submissions. *)
Definition sameOutcomes (w w' : world) : Prop :=
  (forall n, loadAccount w n = loadAccount w' n)
  /\ (forall n, succeeded (submit w n) = succeeded (submit w' n)).

(** A world in which accounts load and every submission is rejected with
    the given error. *)
Definition rejectingWorld (e : errorCategory) : world :=
  {| loadAccount := fun _ => Some 7; submit := fun _ => Failed e |}.

(** A world in which accounts load with the given sequence and the third
    submission is the first to be accepted. *)
Definition acceptingThird (sequence : Z) : world :=
  {| loadAccount := fun _ => Some sequence;
     submit := fun n => if (n <? 2)%nat then Failed FeeTooLow
                        else Accepted "9f3c" |}.

End ClaimLoopNotions.

Module AttemptNotions.
Import Horizon HighPerformanceSweeper.

(** A world in which every client rejects every broadcast with the given
    error, while refreshing and building always work. *)
Definition rejectingClients (e : errorCategory) : world :=
  {| refresh := fun _ => None;
     builds := fun _ => true;
     answers := fun _ _ => Failed e |}.

(** A world whose fee statistics stay the same, with the given 80th
    percentile, and in which every client rejects every broadcast. *)
Definition steadyStatistics (p80 : Z) : world :=
  {| refresh := fun _ => Some (FeeStats p80 100 p80);
     builds := fun _ => true;
     answers := fun _ _ => Failed FeeTooLow |}.

(** The bot after a run of calls of [prepareAndSubmitTransaction], one for
    each flag [prepareOnly] of the list, each call returning before the
    next one is made; the world is indexed by the passes, which the bot
    counts across calls. *)
Definition calls (cfg : Config) (w : world) (flags : list bool) (b : bot) : bot :=
  fold_left
    (fun b prepareOnly => snd (prepareAndSubmitTransaction cfg w prepareOnly b))
    flags b.

(** What holds of a bot from its construction on: every broadcast was
    counted, the attempts are within [max(1, maxSubmissionAttempts)], and
    while [submitted] is clear there is an attempt left. *)
Definition withinAttempts (cfg : Config) (b : bot) : Prop :=
  List.length (broadcasts b) = attempts (status b)
  /\ (attempts (status b) <= Nat.max 1 (maxSubmissionAttempts cfg))%nat
  /\ (submitted (status b) = false ->
      attempts (status b) = 0%nat
      \/ (attempts (status b) < maxSubmissionAttempts cfg)%nat).

End AttemptNotions.

Module ClockNotions.
Import PrecisionClaimBot.

(** The polled ledgers that the monitor takes for new blocks: those whose
    sequence is above the latest one seen. *)
Fixpoint newBlocks (latest : Z) (polls : list (option ledger)) : list ledger :=
  match polls with
  | [] => []
  | None :: rest => newBlocks latest rest
  | Some l :: rest =>
      if latest <? ledger_sequence l
      then l :: newBlocks (ledger_sequence l) rest
      else newBlocks latest rest
  end.

(** The close times observed by the monitor, oldest first. *)
Definition observedCloses (latestLedger : ledger) (polls : list (option ledger))
  : list Z :=
  map closed_at
      (latestLedger :: newBlocks (ledger_sequence latestLedger) polls).

(** What the monitor holds once it has observed [closes]. *)
Definition tracks (m : monitor) (closes : list Z) : Prop :=
  closes <> []
  /\ lastLedgerCloseTime m = last closes 0
  /\ blockTimes m = Spec.lastN 10 (Spec.intervals closes)
  /\ avgBlockTimeMs m
     == (if (List.length closes <? 2)%nat then 5000
         else Spec.mean (Spec.lastN 10 (Spec.intervals closes))).

End ClockNotions.

Module FloodNotions.
Import Stellar PrecisionClaimBot.

(** A bot as [new PiNetworkPrecisionClaimBot({...})] leaves it, with the
    defaults of the constructor for the flood. *)
Definition freshBot (count : nat) : bot :=
  {| sourceKeypair := None;
     sourcePublicKey := None;
     sponsorKeypair := None;
     sponsorPublicKey := None;
     useFeeSponsor := false;
     targetAddress := "GTARGET";
     claimableBalanceId := "00000000ab";
     txCount := count;
     baseFee := JS.Num 100000;
     feeIncrement := 20000;
     txSpacingMs := 15;
     isRunning := false;
     transactions := [] |}.

(** That bot once [initializeKeypairs] has returned, with a sponsor and
    fee statistics whose highest maximum fee is 100 stroops. *)
Definition readyBot (count : nat) : bot :=
  initializeKeypairs "GSOURCE" (Some "GSPONSOR"%string) "100" (freshBot count).

(** The account sequence a candidate was built from. *)
Definition accountSequence (t : txInfo) : Z :=
  sequence (tx_account (innerTransaction (tx t))).

Section Fees.
Variable stringToNumber : string -> option Z.

(** The fee of a candidate as a number, NaN being [None]. *)
Definition feeNumber (t : txInfo) : option Z :=
  JS.toNumber stringToNumber (fee t).

(** [a] bids at least as much as [b]. *)
Definition bidsAtLeast (a b : txInfo) : Prop :=
  exists x y, feeNumber a = Some x /\ feeNumber b = Some y /\ y <= x.

End Fees.

End FloodNotions.

Module PassNotions.
Import Horizon Stellar.

(** The first [k] fee bumps of a transaction, the fee growing from [fee] by
    the factor [m] at every bump. *)
Definition feeBumps (sponsor : string) (tx : OptimizedSweeper.transaction)
           (fee m : Z) (k : nat) : list OptimizedSweeper.envelope :=
  map (fun i => OptimizedSweeper.FeeBump sponsor (fee * m ^ Z.of_nat i) tx)
      (seq 1 k).

(** The number of fee bumps among the envelopes. *)
Fixpoint feeBumpCount (l : list OptimizedSweeper.envelope) : nat :=
  match l with
  | [] => 0
  | OptimizedSweeper.FeeBump _ _ _ :: rest => S (feeBumpCount rest)
  | OptimizedSweeper.Plain _ :: rest => feeBumpCount rest
  end.

(** A balance none of whose claimants is [target]. *)
Definition notClaimableBy (target : string) (b : balance) : Prop :=
  Forall (fun c => destination c <> target) (claimants b).

(** A turn of the optimized sweeper in which everything around the
    submission works. *)
Definition quietTurn (bal : balance) (nowMs : Z) : OptimizedSweeperLoop.turn :=
  {| OptimizedSweeperLoop.turn_balance := bal;
     OptimizedSweeperLoop.turn_nowMs := nowMs;
     OptimizedSweeperLoop.turn_sponsorSequence := Some 7;
     OptimizedSweeperLoop.turn_builds := true;
     OptimizedSweeperLoop.turn_ledger := true |}.

(** A turn of the optimized sweeper whose balance has an unlock time and in
    which the sponsor account loads, the transaction builds and the latest
    ledger is obtained. *)
Definition handledTurn (target : string) (t : OptimizedSweeperLoop.turn) : Prop :=
  OptimizedSweeper.extractMinTime target (OptimizedSweeperLoop.turn_balance t) <> 0
  /\ OptimizedSweeperLoop.turn_sponsorSequence t <> None
  /\ OptimizedSweeperLoop.turn_builds t = true
  /\ OptimizedSweeperLoop.turn_ledger t = true.

(** A balance on which [detectClaimableBalances] does not stop: no unlock
    time is found for the target, or the time found is 0. *)
Definition unresolvedBalance (target : string) (b : balance) : Prop :=
  HighPerformanceSweeper.extractUnlockTime target b = None
  \/ HighPerformanceSweeper.extractUnlockTime target b = Some 0.

End PassNotions.

Module MonitoringNotions.
Import HighPerformanceMonitoring.

(** [a] answered no later than [b]; a client that failed answers last. *)
Definition noSlower (a b : probe) : Prop :=
  match probe_duration a, probe_duration b with
  | Some x, Some y => x <= y
  | Some _, None => True
  | None, Some _ => False
  | None, None => True
  end.

(** The highest ledger sequence among a first ledger and the polls that
    succeeded. *)
Definition highestSequence (first : PrecisionClaimBot.ledger)
           (polls : list (option PrecisionClaimBot.ledger)) : Z :=
  fold_left
    (fun top poll =>
       match poll with
       | Some l => Z.max top (PrecisionClaimBot.ledger_sequence l)
       | None => top
       end)
    polls (PrecisionClaimBot.ledger_sequence first).

(** The sequence of the last poll that succeeded, [start] when none did. *)
Definition lastPolled (start : Z) (polls : list (option LedgerWatch.ledger)) : Z :=
  fold_left
    (fun seen poll =>
       match poll with
       | Some l => LedgerWatch.sequence l
       | None => seen
       end)
    polls start.

(** The instants that claimants of [sourcePublicKey] carry as the
    [abs_before] directly under the [not] at the top of their predicate, in
    the order of the claimants. *)
Definition topLevelBounds (dateGetTime : string -> Z) (sourcePublicKey : string)
           (claimants : list Horizon.claimant) : list Z :=
  flat_map
    (fun c =>
       if (Horizon.destination c =? sourcePublicKey)%string then
         match Horizon.claim_predicate c with
         | Some p =>
             match Horizon.not_ p with
             | Some inner =>
                 match Horizon.abs_before inner with
                 | Some iso =>
                     if (iso =? "")%string then [] else [dateGetTime iso]
                 | None => []
                 end
             | None => []
             end
         | None => []
         end
       else [])
    claimants.

(** The number of polls that answered, and of polls that threw. *)
Definition answered {A : Type} (polls : list (option A)) : nat :=
  List.length
    (filter (fun p => match p with Some _ => true | None => false end) polls).

Definition failed {A : Type} (polls : list (option A)) : nat :=
  List.length
    (filter (fun p => match p with Some _ => false | None => true end) polls).

(** No two neighbours of the list carry the same sequence. *)
Fixpoint noRepeat (l : list LedgerWatch.ledger) : Prop :=
  match l with
  | a :: (b :: _) as rest =>
      LedgerWatch.sequence a <> LedgerWatch.sequence b /\ noRepeat rest
  | _ => True
  end.

End MonitoringNotions.

(** * Properties *)

(** ** Validity window and scheduling of the optimized sweeper *)

Module OptimizedSweeperFacts.
Import Horizon Stellar OptimizedSweeper OptimizedSweeperLoop.
Import PredicateNotions PassNotions.

Lemma extractMinTime_lockedUntil (target : string) (epoch : Z) :
  extractMinTime target (lockedUntil target epoch) = epoch.
Proof.
  unfold extractMinTime, lockedUntil; simpl.
  rewrite String.eqb_refl. reflexivity.
Qed.

(** Whatever the balance, the window of the candidate opens at the unlock
    time itself and closes [timeboundGrace] later. *)
Lemma buildAndSign_timebounds (cfg : Config) (target sponsor dest : string)
      (b : bot) (bal : balance) (sponsorAccount : account) :
  tx_timebounds (buildAndSign cfg target sponsor dest b bal sponsorAccount)
  = Timebounds (extractMinTime target bal)
               (extractMinTime target bal + timeboundGrace cfg).
Proof. reflexivity. Qed.

(** C1, at a balance unlocking at 1700000000 under the shipped
    configuration: the candidate built by [buildAndSign] is valid from
    1700000000 to 1700000060.  Its lower bound is the unlock time, not the
    unlock time minus [earlySubmitOffset] (1699999999) announced by the
    function's own comment; the upper bound is unlock + grace. *)
Theorem buildAndSign_lower_bound_ignores_offset :
  let bal := lockedUntil "GTARGET" 1700000000 in
  let tx := buildAndSign config "GTARGET" "GSPONSOR" "GDEST"
              (Bot 100000 []) bal (Account "GSPONSOR" 7) in
  extractMinTime "GTARGET" bal = 1700000000
  /\ tx_timebounds tx = Timebounds 1700000000 1700000060
  /\ tx_timebounds tx
     <> Timebounds (1700000000 - earlySubmitOffset config)
                   (1700000000 + timeboundGrace config).
Proof.
  repeat split; try reflexivity.
  discriminate.
Qed.

Lemma Qmax_Qeq (a b c : Q) : a == b -> Qmax a c == Qmax b c.
Proof. intros H. rewrite H. reflexivity. Qed.

Lemma feeBumpLoop_resubmits (cfg : Config) (sponsor : string) (srv : server)
      (tx : transaction) (remaining attempt : nat) (b : bot) :
  exists resubmitted,
    submissions (snd (feeBumpLoop cfg sponsor srv tx remaining attempt b))
    = submissions b ++ resubmitted
    /\ Forall (fun r => exists fee, r = FeeBump sponsor fee tx) resubmitted.
Proof.
  revert attempt b. induction remaining as [| remaining IH]; intros attempt b.
  - exists []. cbn [feeBumpLoop snd]. rewrite app_nil_r. split; constructor.
  - cbn [feeBumpLoop]. unfold submitTransaction. cbn [submissions currentFee].
    destruct (srv (List.length (submissions b))).
    + eexists [_]. cbn [snd submissions]. split; [reflexivity |].
      constructor; [eexists; reflexivity | constructor].
    + destruct (IH (S attempt)
                  {| currentFee := currentFee b * feePriorityMultiplier cfg;
                     submissions :=
                       submissions b
                       ++ [FeeBump sponsor
                             (currentFee b * feePriorityMultiplier cfg) tx] |})
        as [rest [Hrest Hall]].
      eexists (_ :: rest). rewrite Hrest. cbn [submissions].
      rewrite <- app_assoc. split; [reflexivity |].
      constructor; [eexists; reflexivity | exact Hall].
Qed.

Lemma submitWithRetries_submits_first (cfg : Config) (sponsor : string)
      (srv : server) (b : bot) (tx : transaction) :
  exists resubmitted,
    submissions (snd (submitWithRetries cfg sponsor srv b tx))
    = submissions b ++ Plain tx :: resubmitted
    /\ Forall (fun r => exists fee, r = FeeBump sponsor fee tx) resubmitted.
Proof.
  unfold submitWithRetries, submitTransaction.
  destruct (srv (List.length (submissions b))).
  - exists []. cbn [snd submissions]. split; [reflexivity | constructor].
  - destruct (feeBumpLoop_resubmits cfg sponsor srv tx (maxSubmissionAttempts cfg) 1
                {| currentFee := currentFee b;
                   submissions := submissions b ++ [Plain tx] |})
      as [rest [Hrest Hall]].
    exists rest. rewrite Hrest. cbn [submissions]. rewrite <- app_assoc.
    split; [reflexivity | exact Hall].
Qed.

(** C7: for every balance whose unlock time resolves (is not 0), the first
    thing [start] does is to wait [max(unlockTime - earlySubmitOffset - now,
    0)] seconds.  Only then does it load the sponsor account, build the
    candidate and ask for the latest ledger: when all three succeed, the
    candidate just built is the first thing it submits, followed by nothing
    but fee bumps of it; when one of them throws, nothing is submitted for
    the balance and the bot is left as it was.  With an offset of 1 second
    and the clock 10 seconds before the unlock time, the wait is 9
    seconds. *)
Theorem start_waits_until_early_submit
        (cfg : Config) (target sponsor dest : string) (srv : server)
        (t : turn) (b : bot) :
  extractMinTime target (turn_balance t) <> 0 ->
  exists wait : Q,
    start_wait cfg target (turn_nowMs t) (turn_balance t) = Some wait
    /\ wait == Spec.wait (inject_Z (extractMinTime target (turn_balance t)))
                         (inject_Z (earlySubmitOffset cfg))
                         (inject_Z (turn_nowMs t) / 1000)
    /\ (forall sponsorSequence,
           turn_sponsorSequence t = Some sponsorSequence ->
           turn_builds t = true ->
           turn_ledger t = true ->
           exists e b' resubmitted,
             start_balance cfg target sponsor dest srv t b
             = (Handled wait
                        (buildAndSign cfg target sponsor dest b (turn_balance t)
                                      (Account sponsor sponsorSequence))
                        e, b')
             /\ submissions b'
                = submissions b
                  ++ Plain (buildAndSign cfg target sponsor dest b (turn_balance t)
                                         (Account sponsor sponsorSequence))
                     :: resubmitted
             /\ Forall (fun r =>
                          exists fee,
                            r = FeeBump sponsor fee
                                  (buildAndSign cfg target sponsor dest b
                                     (turn_balance t)
                                     (Account sponsor sponsorSequence)))
                       resubmitted)
    /\ (turn_sponsorSequence t = None
        \/ turn_builds t = false
        \/ turn_ledger t = false ->
        start_balance cfg target sponsor dest srv t b = (Thrown wait, b))
    /\ (earlySubmitOffset cfg = 1 ->
        turn_nowMs t = (extractMinTime target (turn_balance t) - 10) * 1000 ->
        wait == 9).
Proof.
  intros Hunlock.
  unfold start_balance, start_wait.
  apply Z.eqb_neq in Hunlock. rewrite Hunlock.
  eexists; split; [reflexivity | split; [| split; [| split]]].
  - unfold Spec.wait. apply Qmax_Qeq.
    unfold Zminus. rewrite inject_Z_plus, inject_Z_opp. ring.
  - intros sponsorSequence -> -> ->.
    set (tx := buildAndSign cfg target sponsor dest b (turn_balance t)
                 (Account sponsor sponsorSequence)).
    destruct (submitWithRetries_submits_first cfg sponsor srv b tx)
      as [resubmitted [Hsub Hall]].
    destruct (submitWithRetries cfg sponsor srv b tx) as [e b'].
    exists e, b', resubmitted. split; [reflexivity | split; assumption].
  - intros [-> | [Hb | Hl]]; [reflexivity | |].
    + destruct (turn_sponsorSequence t); [| reflexivity].
      rewrite Hb. reflexivity.
    + destruct (turn_sponsorSequence t); [| reflexivity].
      destruct (turn_builds t); [| reflexivity].
      rewrite Hl. reflexivity.
  - intros Hoff Hnow. rewrite Hoff, Hnow.
    set (T := extractMinTime target (turn_balance t)).
    assert (E : inject_Z (T - 1) - inject_Z ((T - 10) * 1000) / 1000 == 9).
    { unfold Zminus. rewrite inject_Z_mult, !inject_Z_plus, !inject_Z_opp.
      change (inject_Z 1000) with 1000%Q. change (inject_Z 1) with 1%Q.
      change (inject_Z 10) with 10%Q. field. }
    rewrite (Qmax_Qeq _ _ 0 E). reflexivity.
Qed.

Lemma start_waits_until_early_submit_witness :
  exists (wait : Q) (tx : transaction) (e : exit) (b' : bot)
         (resubmitted : list envelope),
    start_wait config "GTARGET" 1699999990000 (lockedUntil "GTARGET" 1700000000)
    = Some wait
    /\ wait == 9
    /\ start_balance config "GTARGET" "GSPONSOR" "GDEST"
         (fun _ => Failed FeeTooLow)
         (quietTurn (lockedUntil "GTARGET" 1700000000) 1699999990000)
         (Bot 100000 [])
       = (Handled wait tx e, b')
    /\ tx_timebounds tx = Timebounds 1700000000 1700000060
    /\ submissions b' = [] ++ Plain tx :: resubmitted.
Proof.
  destruct (start_waits_until_early_submit config "GTARGET" "GSPONSOR" "GDEST"
              (fun _ => Failed FeeTooLow)
              (quietTurn (lockedUntil "GTARGET" 1700000000) 1699999990000)
              (Bot 100000 []))
    as [wait [Hw [_ [Hdone [_ H9]]]]].
  - vm_compute. discriminate.
  - destruct (Hdone 7 eq_refl eq_refl eq_refl) as [e [b' [resubmitted [Hrun [Hsub _]]]]].
    exists wait,
      (buildAndSign config "GTARGET" "GSPONSOR" "GDEST" (Bot 100000 [])
         (lockedUntil "GTARGET" 1700000000) (Account "GSPONSOR" 7)),
      e, b', resubmitted.
    split; [exact Hw |].
    split; [apply H9; reflexivity |].
    split; [exact Hrun |].
    split; [reflexivity | exact Hsub].
Defined.

End OptimizedSweeperFacts.

(** ** Unlock time of a predicate tree *)

Module PredicateFacts.
Import Horizon HighPerformanceSweeper PredicateNotions.


Lemma firstTime_app (visit : predicate -> option Z) (l1 l2 : list predicate) :
  firstTime visit (l1 ++ l2)
  = match firstTime visit l1 with
    | Some t => Some t
    | None => firstTime visit l2
    end.
Proof.
  induction l1 as [| q l1 IH]; simpl; [reflexivity |].
  destruct (visit q) as [t |]; [destruct (JS.truthy t) |]; auto.
Qed.

(** The search through the children stops at the first one whose own
    result is a non-zero number. *)
Lemma firstTime_first (visit : predicate -> option Z)
      (pre post : list predicate) (q : predicate) (t : Z) :
  Forall (fun x => visit x = None \/ visit x = Some 0) pre ->
  visit q = Some t -> t <> 0 ->
  firstTime visit (pre ++ q :: post) = Some t.
Proof.
  intros Hpre Hq Ht.
  induction Hpre as [| x pre [Hx | Hx] _ IH]; simpl.
  - rewrite Hq. unfold JS.truthy.
    apply Z.eqb_neq in Ht. rewrite Ht. reflexivity.
  - rewrite Hx. exact IH.
  - rewrite Hx. simpl. exact IH.
Qed.

Lemma firstTime_found (visit : predicate -> option Z)
      (subs : list predicate) (t : Z) :
  firstTime visit subs = Some t ->
  exists q, In q subs /\ visit q = Some t /\ t <> 0.
Proof.
  induction subs as [| q subs IH]; simpl; [discriminate |].
  destruct (visit q) as [t' |] eqn:Hq.
  - destruct (JS.truthy t') eqn:Ht.
    + intros [= <-]. exists q. repeat split; auto.
      unfold JS.truthy in Ht. apply negb_true_iff, Z.eqb_neq in Ht. exact Ht.
    + intros H. destruct (IH H) as [q' [Hin Hq']]. exists q'. auto.
  - intros H. destruct (IH H) as [q' [Hin Hq']]. exists q'. auto.
Qed.

(** The search as one equation: the node's own bound, else the first
    resolving child, [and] and [or] alike. *)
Lemma findUnlockTimeInPredicate_node (p : predicate) :
  findUnlockTimeInPredicate p
  = match ownEpoch p with
    | Some e => Some (e * 1000)
    | None => firstTime findUnlockTimeInPredicate (children p)
    end.
Proof.
  destruct p as [after iso epoch negated conjuncts disjuncts].
  unfold ownEpoch, children; simpl.
  destruct epoch as [e |]; [reflexivity |].
  rewrite firstTime_app.
  destruct negated as [[a' i' [e' |] n' c' d'] |]; simpl;
    try reflexivity;
    destruct conjuncts as [c |], disjuncts as [d |]; reflexivity.
Qed.

Lemma in_epochs_child (p q : predicate) (e : Z) :
  In q (children p) -> In e (epochs q) -> In e (epochs p).
Proof.
  destruct p as [after iso epoch negated conjuncts disjuncts].
  unfold children; simpl. intros Hq He.
  rewrite !in_app_iff. right; right.
  apply in_app_or in Hq. destruct Hq as [Hq | Hq].
  - left. destruct conjuncts as [subs |]; [| contradiction].
    apply in_flat_map. exists q. auto.
  - right. destruct disjuncts as [subs |]; [| contradiction].
    apply in_flat_map. exists q. auto.
Qed.

Lemma in_epochs_own (p : predicate) (e : Z) :
  ownEpoch p = Some e -> In e (epochs p).
Proof.
  destruct p as [after iso epoch negated conjuncts disjuncts].
  unfold ownEpoch; simpl.
  destruct epoch as [e0 |].
  - intros [= <-]. left. reflexivity.
  - destruct negated as [[a' i' e' n' c' d'] |]; [| discriminate].
    simpl. intros ->. left. reflexivity.
Qed.

Lemma children_Forall (P : predicate -> Prop) (p : predicate) :
  (forall subs, and_ p = Some subs -> Forall P subs) ->
  (forall subs, or_ p = Some subs -> Forall P subs) ->
  Forall P (children p).
Proof.
  intros Hc Hd. unfold children. apply Forall_app. split.
  - destruct (and_ p) as [subs |]; [apply Hc; reflexivity | constructor].
  - destruct (or_ p) as [subs |]; [apply Hd; reflexivity | constructor].
Qed.

(** Whatever the search returns is one of the bounds of the tree, in
    milliseconds. *)
Lemma findUnlockTimeInPredicate_sound (p : predicate) (t : Z) :
  findUnlockTimeInPredicate p = Some t ->
  exists e, In e (epochs p) /\ t = e * 1000.
Proof.
  revert t. induction p as [after iso epoch negated conjuncts disjuncts _ Hc Hd]
    using predicate_induction.
  intros t. rewrite findUnlockTimeInPredicate_node.
  set (p := Predicate after iso epoch negated conjuncts disjuncts).
  destruct (ownEpoch p) as [e |] eqn:Hown.
  - intros [= <-]. exists e. split; [apply in_epochs_own; exact Hown | reflexivity].
  - intros Hfirst. apply firstTime_found in Hfirst.
    destruct Hfirst as [q [Hin [Hq _]]].
    assert (HP : Forall (fun q => forall t, findUnlockTimeInPredicate q = Some t ->
                           exists e, In e (epochs q) /\ t = e * 1000) (children p))
      by (apply children_Forall; assumption).
    rewrite Forall_forall in HP.
    destruct (HP q Hin t Hq) as [e [He Ht]].
    exists e. split; [eapply in_epochs_child; eassumption | exact Ht].
Qed.

Lemma findUnlockTimeInPredicate_first_child
      (p q : predicate) (pre post : list predicate) (t : Z) :
  ownEpoch p = None ->
  children p = pre ++ q :: post ->
  Forall unresolved pre ->
  findUnlockTimeInPredicate q = Some t -> t <> 0 ->
  findUnlockTimeInPredicate p = Some t.
Proof.
  intros Hown Hch Hpre Hq Ht.
  rewrite findUnlockTimeInPredicate_node, Hown, Hch.
  apply firstTime_first; assumption.
Qed.

Lemma detectClaimableBalances_skips
      (target : string) (nowMs : Z) (currentLedgerNum : option Z) (bal : balance)
      (u : unlockData) :
  extractUnlockTime target bal = None ->
  fst (detectClaimableBalances target nowMs currentLedgerNum [bal] u) = false.
Proof.
  intros H. simpl. rewrite H.
  destruct (isTimeLockedBalance target bal); reflexivity.
Qed.

(** C2 as the code has it: [findUnlockTimeInPredicate] returns the bound
    the node carries itself ([abs_before_epoch], else the one directly
    under [not], unchanged), else the result of the first child, those of
    [and] before those of [or], whose own result is a non-zero number:
    the first resolving child wins for [and] and [or] alike.  What it
    returns is 1000 times a bound of the tree, it returns [null] for a tree
    without bounds, and a balance for which it returns [null] is passed
    over by [detectClaimableBalances], as a balance for which
    [extractMinTime] gives 0 is passed over by [start]. *)
Theorem findUnlockTimeInPredicate_first_resolving_bound :
  (forall p,
      findUnlockTimeInPredicate p
      = match ownEpoch p with
        | Some e => Some (e * 1000)
        | None => firstTime findUnlockTimeInPredicate (children p)
        end)
  /\ (forall p q pre post t,
         ownEpoch p = None ->
         children p = pre ++ q :: post ->
         Forall unresolved pre ->
         findUnlockTimeInPredicate q = Some t -> t <> 0 ->
         findUnlockTimeInPredicate p = Some t)
  /\ (forall subs,
         findUnlockTimeInPredicate (allOf subs)
         = findUnlockTimeInPredicate (anyOf subs))
  /\ (forall p t,
         findUnlockTimeInPredicate p = Some t ->
         exists e, In e (epochs p) /\ t = e * 1000)
  /\ (forall p, epochs p = [] -> findUnlockTimeInPredicate p = None)
  /\ (forall target nowMs currentLedgerNum bal u,
         extractUnlockTime target bal = None ->
         fst (detectClaimableBalances target nowMs currentLedgerNum [bal] u)
         = false)
  /\ (forall cfg target nowMs bal,
         OptimizedSweeper.extractMinTime target bal = 0 ->
         OptimizedSweeper.start_wait cfg target nowMs bal = None).
Proof.
  split; [exact findUnlockTimeInPredicate_node |].
  split; [exact findUnlockTimeInPredicate_first_child |].
  split.
  { intros subs. rewrite !findUnlockTimeInPredicate_node.
    unfold allOf, anyOf, ownEpoch, children; simpl.
    rewrite app_nil_r. reflexivity. }
  split; [exact findUnlockTimeInPredicate_sound |].
  split.
  { intros p Hnone.
    destruct (findUnlockTimeInPredicate p) as [t |] eqn:Hp; [| reflexivity].
    apply findUnlockTimeInPredicate_sound in Hp.
    destruct Hp as [e [He _]]. rewrite Hnone in He. contradiction. }
  split; [exact detectClaimableBalances_skips |].
  intros cfg target nowMs bal H.
  unfold OptimizedSweeper.start_wait. rewrite H. reflexivity.
Qed.

Lemma findUnlockTimeInPredicate_first_resolving_bound_witness :
  findUnlockTimeInPredicate (allOf [before 200; before 100]) = Some 200000.
Proof.
  apply (proj1 (proj2 findUnlockTimeInPredicate_first_resolving_bound)
           (allOf [before 200; before 100]) (before 200) [] [before 100]).
  - reflexivity.
  - reflexivity.
  - constructor.
  - reflexivity.
  - discriminate.
Defined.

(** C2 as stated fails: under [and], the instant returned is that of the
    first child, here 200000, although a sibling is bound by 100000. *)
Lemma findUnlockTimeInPredicate_not_least_conjunct :
  ~ (forall subs t,
        findUnlockTimeInPredicate (allOf subs) = Some t ->
        forall q bound,
          In q subs -> findUnlockTimeInPredicate q = Some bound -> t <= bound).
Proof.
  intros H.
  specialize (H [before 200; before 100] 200000 eq_refl
                (before 100) 100000 (or_intror (or_introl eq_refl)) eq_refl).
  lia.
Qed.

End PredicateFacts.

(** ** Fee quotes *)

Module FeeFacts.
Import FeeNotions.

Local Open Scope Q_scope.

Lemma ceilTo100_Qeq (x y : Q) : x == y -> JS.ceilTo100 x = JS.ceilTo100 y.
Proof. intros H. unfold JS.ceilTo100. rewrite H. reflexivity. Qed.

Lemma ceilTo100_le (x y : Q) : x <= y -> (JS.ceilTo100 x <= JS.ceilTo100 y)%Z.
Proof.
  intros H. unfold JS.ceilTo100.
  apply Z.mul_le_mono_nonneg_r; [lia |].
  apply Qceiling_resp_le.
  unfold Qdiv. apply Qmult_le_compat_r; [exact H | discriminate].
Qed.

Lemma ceilTo100_multiple (k : Z) :
  JS.ceilTo100 (inject_Z (100 * k)) = (100 * k)%Z.
Proof.
  unfold JS.ceilTo100.
  assert (E : inject_Z (100 * k) / 100 == inject_Z k).
  { rewrite inject_Z_mult. change (inject_Z 100) with 100%Q. field. }
  rewrite E, Qceiling_Z. lia.
Qed.

(** Capping after rounding up is rounding up after capping, as long as
    the cap is a multiple of 100. *)
Lemma min_ceilTo100 (a : Q) (c : Z) :
  (100 | c)%Z ->
  Z.min (JS.ceilTo100 a) c = JS.ceilTo100 (Qmin a (inject_Z c)).
Proof.
  intros [k Hk]. assert (Hc : c = (100 * k)%Z) by lia. clear Hk.
  destruct (Qlt_le_dec (inject_Z c) a) as [Hlt | Hle].
  - rewrite (ceilTo100_Qeq (Qmin a (inject_Z c)) (inject_Z c))
      by (apply Q.min_r, Qlt_le_weak, Hlt).
    rewrite Hc, ceilTo100_multiple. apply Z.min_r.
    rewrite <- (ceilTo100_multiple k). apply ceilTo100_le.
    rewrite <- Hc. apply Qlt_le_weak, Hlt.
  - rewrite (ceilTo100_Qeq (Qmin a (inject_Z c)) a) by (apply Q.min_l, Hle).
    apply Z.min_l.
    rewrite Hc, <- (ceilTo100_multiple k). apply ceilTo100_le.
    rewrite <- Hc. exact Hle.
Qed.

Lemma Qmax_floor_twice (x f : Q) : Qmax (Qmax x f) f == Qmax x f.
Proof. apply Q.max_l, Q.le_max_r. Qed.

Lemma clamp_above_floor (x f c : Q) :
  Spec.clamp (Qmax x f) f c == Qmin (Qmax x f) c.
Proof.
  unfold Spec.clamp. rewrite Qmax_floor_twice. reflexivity.
Qed.

Lemma updateNetworkFees_formula
      (cfg : HighPerformanceSweeper.Config)
      (stats : HighPerformanceSweeper.feeStats) (fee : Z) :
  HighPerformanceSweeper.updateNetworkFees cfg (Some stats) fee
  = Spec.roundUp100
      (Qmax (Spec.clamp
               (Qmax (inject_Z (HighPerformanceSweeper.fee_charged_p80 stats)
                      * HighPerformanceSweeper.feePriorityMultiplier cfg)
                     (inject_Z (HighPerformanceSweeper.baseFee cfg)))
               (inject_Z (HighPerformanceSweeper.baseFee cfg))
               (inject_Z (HighPerformanceSweeper.maxFee cfg)))
            (inject_Z (HighPerformanceSweeper.fee_charged_min stats))).
Proof.
  unfold HighPerformanceSweeper.updateNetworkFees.
  change Spec.roundUp100 with JS.ceilTo100.
  apply ceilTo100_Qeq. rewrite clamp_above_floor. reflexivity.
Qed.

(** [updateFeeStats] of the continuous-flood sweeper caps after rounding
    up, which is the formula of the specification whenever the ceiling is a
    multiple of 100, as it is in the shipped configuration. *)
Lemma updateFeeStats_formula
      (cfg : ContinuousFlood.Config) (p80 : Z) (b : ContinuousFlood.bot) :
  (100 | ContinuousFlood.maxFee cfg)%Z ->
  ContinuousFlood.currentFee (ContinuousFlood.updateFeeStats cfg p80 b)
  = Spec.quote p80 (ContinuousFlood.feePriorityMultiplier cfg)
               (ContinuousFlood.baseFee cfg) (ContinuousFlood.maxFee cfg).
Proof.
  intros Hdiv. unfold ContinuousFlood.updateFeeStats; simpl.
  rewrite (min_ceilTo100 _ _ Hdiv).
  unfold Spec.quote. change Spec.roundUp100 with JS.ceilTo100.
  apply ceilTo100_Qeq. symmetry. apply clamp_above_floor.
Qed.

(** [updateNetworkFees] agrees with the formula of the specification
    whenever the smallest fee charged does not exceed the clamped value. *)
Lemma updateNetworkFees_quote
      (cfg : HighPerformanceSweeper.Config)
      (stats : HighPerformanceSweeper.feeStats) (fee : Z) :
  inject_Z (HighPerformanceSweeper.fee_charged_min stats)
  <= Spec.clamp
       (Qmax (inject_Z (HighPerformanceSweeper.fee_charged_p80 stats)
              * HighPerformanceSweeper.feePriorityMultiplier cfg)
             (inject_Z (HighPerformanceSweeper.baseFee cfg)))
       (inject_Z (HighPerformanceSweeper.baseFee cfg))
       (inject_Z (HighPerformanceSweeper.maxFee cfg)) ->
  HighPerformanceSweeper.updateNetworkFees cfg (Some stats) fee
  = Spec.quote (HighPerformanceSweeper.fee_charged_p80 stats)
               (HighPerformanceSweeper.feePriorityMultiplier cfg)
               (HighPerformanceSweeper.baseFee cfg)
               (HighPerformanceSweeper.maxFee cfg).
Proof.
  intros Hmin. rewrite updateNetworkFees_formula.
  unfold Spec.quote, Spec.roundUp100.
  rewrite (Q.max_l _ _ Hmin). reflexivity.
Qed.

(** C3, under the shipped configurations.  With fee statistics whose 80th
    percentile is 3000000 and whose smallest fee charged is 2000000,
    [updateNetworkFees] quotes 2000000, twice the [maxFee] of 1000000 that
    the configuration calls the maximum fee willing to pay and that the
    formula of the specification stops at: the floor taken from the
    statistics is applied after the cap.  And on the scenario of the
    specification, a 99th percentile of 50000 with multiplier 10, floor
    100000 and ceiling 500000, which is the shipped configuration of the
    only bot that reads the 99th percentile, [updateFeeStats] of that bot
    bids 3500000 where the formula gives 500000. *)
Theorem updateNetworkFees_above_ceiling :
  HighPerformanceSweeper.updateNetworkFees
    HighPerformanceSweeper.config (Some congested) 300000
  = 2000000%Z
  /\ (HighPerformanceSweeper.maxFee HighPerformanceSweeper.config
      < HighPerformanceSweeper.updateNetworkFees
          HighPerformanceSweeper.config (Some congested) 300000)%Z
  /\ Spec.quote (HighPerformanceSweeper.fee_charged_p80 congested)
                (HighPerformanceSweeper.feePriorityMultiplier
                   HighPerformanceSweeper.config)
                (HighPerformanceSweeper.baseFee HighPerformanceSweeper.config)
                (HighPerformanceSweeper.maxFee HighPerformanceSweeper.config)
     = 1000000%Z
  /\ ~ (forall (stats : HighPerformanceSweeper.feeStats) (fee : Z),
          HighPerformanceSweeper.updateNetworkFees
            HighPerformanceSweeper.config (Some stats) fee
          = Spec.quote (HighPerformanceSweeper.fee_charged_p80 stats)
                       (HighPerformanceSweeper.feePriorityMultiplier
                          HighPerformanceSweeper.config)
                       (HighPerformanceSweeper.baseFee HighPerformanceSweeper.config)
                       (HighPerformanceSweeper.maxFee HighPerformanceSweeper.config))
  /\ (forall b : OptimizedSweeper.bot,
         OptimizedSweeper.currentFee
           (OptimizedSweeper.updateFeeStats OptimizedSweeper.config 50000 b)
         = 3500000%Z)
  /\ Spec.quote 50000
                (inject_Z (OptimizedSweeper.feePriorityMultiplier
                             OptimizedSweeper.config))
                (OptimizedSweeper.baseFee OptimizedSweeper.config)
                (OptimizedSweeper.maxFee OptimizedSweeper.config)
     = 500000%Z.
Proof.
  assert (E1 : HighPerformanceSweeper.updateNetworkFees
                 HighPerformanceSweeper.config (Some congested) 300000
               = 2000000%Z) by (vm_compute; reflexivity).
  assert (E2 : Spec.quote (HighPerformanceSweeper.fee_charged_p80 congested)
                 (HighPerformanceSweeper.feePriorityMultiplier
                    HighPerformanceSweeper.config)
                 (HighPerformanceSweeper.baseFee HighPerformanceSweeper.config)
                 (HighPerformanceSweeper.maxFee HighPerformanceSweeper.config)
               = 1000000%Z) by (vm_compute; reflexivity).
  split; [exact E1 |].
  split; [rewrite E1; reflexivity |].
  split; [exact E2 |].
  split.
  - intros H. specialize (H congested 300000%Z).
    rewrite E1, E2 in H. discriminate.
  - split; [intros b; reflexivity | vm_compute; reflexivity].
Qed.

End FeeFacts.

(** ** Retries of the optimized sweeper *)

Module RetryFacts.
Import Horizon Stellar OptimizedSweeper RetryNotions.

Section Loop.
Variable cfg : Config.
Variable sponsor : string.

Lemma feeBumpLoop_length (srv : server) (tx : transaction)
      (remaining attempt : nat) (b : bot) :
  (List.length (submissions (snd (feeBumpLoop cfg sponsor srv tx remaining attempt b)))
   <= List.length (submissions b) + remaining)%nat.
Proof.
  revert attempt b.
  induction remaining as [| n IH]; intros attempt b; simpl; [lia |].
  destruct (srv (List.length (submissions b))) as [h | e]; simpl.
  - rewrite length_app. simpl. lia.
  - eapply Nat.le_trans; [apply IH |]. simpl. rewrite length_app. simpl. lia.
Qed.

Lemma feeBumpLoop_all_failed (srv : server) (tx : transaction)
      (remaining attempt : nat) (b : bot) :
  (forall n, succeeded (srv n) = false) ->
  fst (feeBumpLoop cfg sponsor srv tx remaining attempt b) = RetriesExhausted
  /\ List.length (submissions (snd (feeBumpLoop cfg sponsor srv tx remaining attempt b)))
     = (List.length (submissions b) + remaining)%nat.
Proof.
  intros Hfail. revert attempt b.
  induction remaining as [| n IH]; intros attempt b; simpl; [split; [reflexivity | lia] |].
  specialize (Hfail (List.length (submissions b))) as Hk.
  destruct (srv (List.length (submissions b))) as [h | e]; [discriminate |].
  destruct (IH (S attempt)
               {| currentFee := currentFee b * feePriorityMultiplier cfg;
                  submissions := submissions b
                                 ++ [FeeBump sponsor
                                       (currentFee b * feePriorityMultiplier cfg) tx] |})
    as [E L].
  split; [exact E |]. rewrite L. simpl. rewrite length_app. simpl. lia.
Qed.

(** The loop looks at a response only to tell success from failure. *)
Lemma feeBumpLoop_category (srv srv' : server) (tx : transaction)
      (remaining attempt : nat) (b : bot) :
  (forall n, succeeded (srv n) = succeeded (srv' n)) ->
  feeBumpLoop cfg sponsor srv tx remaining attempt b
  = feeBumpLoop cfg sponsor srv' tx remaining attempt b.
Proof.
  intros Hsame. revert attempt b.
  induction remaining as [| n IH]; intros attempt b; simpl; [reflexivity |].
  specialize (Hsame (List.length (submissions b))) as Hk.
  destruct (srv (List.length (submissions b))) as [h | e],
           (srv' (List.length (submissions b))) as [h' | e'];
    simpl in Hk; try discriminate; [reflexivity | apply IH].
Qed.

Lemma submitWithRetries_length (srv : server) (b : bot) (tx : transaction) :
  (List.length (submissions (snd (submitWithRetries cfg sponsor srv b tx)))
   <= List.length (submissions b) + 1 + maxSubmissionAttempts cfg)%nat.
Proof.
  unfold submitWithRetries; simpl.
  destruct (srv (List.length (submissions b))) as [h | e]; simpl.
  - rewrite length_app. simpl. lia.
  - eapply Nat.le_trans; [apply feeBumpLoop_length |].
    simpl. rewrite length_app. simpl. lia.
Qed.

Lemma submitWithRetries_all_failed (srv : server) (b : bot) (tx : transaction) :
  (forall n, succeeded (srv n) = false) ->
  fst (submitWithRetries cfg sponsor srv b tx) = RetriesExhausted
  /\ List.length (submissions (snd (submitWithRetries cfg sponsor srv b tx)))
     = (List.length (submissions b) + 1 + maxSubmissionAttempts cfg)%nat.
Proof.
  intros Hfail. unfold submitWithRetries; simpl.
  specialize (Hfail (List.length (submissions b))) as Hk.
  destruct (srv (List.length (submissions b))) as [h | e]; [discriminate |].
  destruct (feeBumpLoop_all_failed srv tx (maxSubmissionAttempts cfg) 1
              {| currentFee := currentFee b;
                 submissions := submissions b ++ [Plain tx] |} Hfail) as [E L].
  split; [exact E |]. rewrite L. simpl. rewrite length_app. simpl. lia.
Qed.

Lemma submitWithRetries_category (srv srv' : server) (b : bot) (tx : transaction) :
  (forall n, succeeded (srv n) = succeeded (srv' n)) ->
  submitWithRetries cfg sponsor srv b tx = submitWithRetries cfg sponsor srv' b tx.
Proof.
  intros Hsame. unfold submitWithRetries; simpl.
  specialize (Hsame (List.length (submissions b))) as Hk.
  destruct (srv (List.length (submissions b))) as [h | e],
           (srv' (List.length (submissions b))) as [h' | e'];
    simpl in Hk; try discriminate; [reflexivity |].
  apply feeBumpLoop_category. exact Hsame.
Qed.

End Loop.

(** C4, on the scenario of the specification (p99 = 50000) with every
    submission rejected for its fee: the bids of [submitWithRetries] are
    3500000, 35000000, 350000000 and 3500000000.  They do not decrease,
    but every one of them is above [maxFee], the 500000 that the
    configuration calls the ceiling for bidding and that the function never
    reads, and the last is above the 50 PI (500000000) of the banner. *)
Theorem submitWithRetries_bids_above_maxFee :
  let b0 := updateFeeStats config 50000 (Bot 0 []) in
  let b' := snd (submitWithRetries config "GSPONSOR" (rejecting FeeTooLow)
                   b0 candidate) in
  bids b' = [3500000; 35000000; 350000000; 3500000000]
  /\ StronglySorted Z.le (bids b')
  /\ maxFee config = 500000
  /\ Forall (fun bid => maxFee config < bid) (bids b')
  /\ Exists (fun bid => 500000000 < bid) (bids b').
Proof.
  cbv zeta.
  assert (E : bids (snd (submitWithRetries config "GSPONSOR" (rejecting FeeTooLow)
                           (updateFeeStats config 50000 (Bot 0 [])) candidate))
              = [3500000; 35000000; 350000000; 3500000000])
    by (vm_compute; reflexivity).
  rewrite E. repeat split.
  - repeat constructor; lia.
  - repeat constructor.
  - do 3 apply Exists_cons_tl. apply Exists_cons_hd. reflexivity.
Qed.

End RetryFacts.

(** ** Retries of the continuous-flood sweeper *)

Module ClaimLoopFacts.
Import Horizon Stellar ContinuousFlood ClaimLoopNotions.

Section Loop.
Variable cfg : Config.
Variables targetKP sponsorKP dest : string.

Lemma claimLoop_category (w w' : world) (balanceId amount : string)
      (remaining : nat) (b : bot) :
  sameOutcomes w w' ->
  claimLoop cfg targetKP sponsorKP dest w balanceId amount remaining b
  = claimLoop cfg targetKP sponsorKP dest w' balanceId amount remaining b.
Proof.
  intros [Hload Hsub]. revert b.
  induction remaining as [| n IH]; intros b; simpl; [reflexivity |].
  unfold buildTxForBalance. rewrite <- Hload.
  destruct (loadAccount w (accountLoads b)) as [s |]; simpl; [| apply IH].
  specialize (Hsub (List.length (submissions b))).
  destruct (submit w (List.length (submissions b))) as [h | e],
           (submit w' (List.length (submissions b))) as [h' | e'];
    simpl in Hsub; try discriminate; [reflexivity | apply IH].
Qed.

Lemma claimLoop_length (w : world) (balanceId amount : string)
      (remaining : nat) (b : bot) :
  (List.length (submissions
     (snd (claimLoop cfg targetKP sponsorKP dest w balanceId amount remaining b)))
   <= List.length (submissions b) + remaining)%nat.
Proof.
  revert b. induction remaining as [| n IH]; intros b; simpl; [lia |].
  unfold buildTxForBalance.
  destruct (loadAccount w (accountLoads b)) as [s |]; simpl.
  - destruct (submit w (List.length (submissions b))) as [h | e]; simpl.
    + rewrite length_app. simpl. lia.
    + eapply Nat.le_trans; [apply IH |]. simpl. rewrite length_app. simpl. lia.
  - eapply Nat.le_trans; [apply IH |]. simpl. lia.
Qed.

Lemma claimLoop_all_failed (w : world) (balanceId amount : string)
      (remaining : nat) (b : bot) :
  (forall n, loadAccount w n <> None) ->
  (forall n, succeeded (submit w n) = false) ->
  fst (claimLoop cfg targetKP sponsorKP dest w balanceId amount remaining b) = false
  /\ List.length (submissions
       (snd (claimLoop cfg targetKP sponsorKP dest w balanceId amount remaining b)))
     = (List.length (submissions b) + remaining)%nat.
Proof.
  intros Hload Hfail. revert b.
  induction remaining as [| n IH]; intros b; simpl; [split; [reflexivity | lia] |].
  unfold buildTxForBalance.
  specialize (Hload (accountLoads b)) as Hl.
  destruct (loadAccount w (accountLoads b)) as [s |]; [| contradiction]. simpl.
  specialize (Hfail (List.length (submissions b))) as Hk.
  destruct (submit w (List.length (submissions b))) as [h | e]; [discriminate |].
  match goal with |- context [claimLoop _ _ _ _ _ _ _ n ?b1] =>
    destruct (IH b1) as [E L] end.
  split; [exact E |]. rewrite L. simpl. rewrite length_app. simpl. lia.
Qed.

Lemma ceilTo100_above (x : Q) : (x <= inject_Z (JS.ceilTo100 x))%Q.
Proof.
  unfold JS.ceilTo100. rewrite inject_Z_mult.
  pose proof (Qle_ceiling (x / 100)) as H.
  apply (Qmult_le_compat_r _ _ 100) in H; [| discriminate].
  change (inject_Z 100) with 100%Q.
  eapply Qle_trans; [| exact H].
  apply Qle_lteq. right. field.
Qed.

Lemma bumpFee_bounds (b : bot) :
  (1 <= feePriorityMultiplier cfg)%Q ->
  0 <= currentFee b <= maxFee cfg ->
  currentFee b <= currentFee (bumpFee cfg b) <= maxFee cfg.
Proof.
  intros Hm [H0 Hmax]. unfold bumpFee; simpl. split; [| apply Z.le_min_r].
  apply Z.min_glb; [| exact Hmax].
  rewrite Zle_Qle.
  eapply Qle_trans; [| apply ceilTo100_above].
  assert (H0q : (0 <= inject_Z (currentFee b))%Q)
    by (change 0%Q with (inject_Z 0); rewrite <- Zle_Qle; exact H0).
  eapply Qle_trans;
    [| apply (Qmult_le_compat_nonneg (inject_Z (currentFee b)) _ 1);
       split; [exact H0q | apply Qle_refl | discriminate | exact Hm]].
  rewrite Qmult_1_r. apply Qle_refl.
Qed.

(** Within the claim loop of one balance the bids do not decrease and stay
    within [maxFee]. *)
Lemma claimLoop_bids (w : world) (balanceId amount : string)
      (remaining : nat) (b : bot) :
  (1 <= feePriorityMultiplier cfg)%Q ->
  0 <= currentFee b <= maxFee cfg ->
  let b' := snd (claimLoop cfg targetKP sponsorKP dest w balanceId amount remaining b) in
  currentFee b <= currentFee b' <= maxFee cfg
  /\ exists fees,
       claimBids b' = claimBids b ++ fees
       /\ StronglySorted Z.le fees
       /\ Forall (fun f => currentFee b <= f <= maxFee cfg) fees.
Proof.
  intros Hm. revert b.
  induction remaining as [| n IH]; intros b Hb; simpl.
  - split; [lia |]. exists []. rewrite app_nil_r. repeat constructor.
  - unfold buildTxForBalance.
    destruct (loadAccount w (accountLoads b)) as [s |]; simpl.
    + destruct (submit w (List.length (submissions b))) as [h | e]; simpl.
      * split; [lia |]. exists [currentFee b].
        unfold claimBids; simpl. rewrite map_app. simpl.
        repeat constructor; lia.
      * match goal with |- context [claimLoop _ _ _ _ _ _ _ n (bumpFee cfg ?b2)] =>
          pose proof (bumpFee_bounds b2 Hm Hb) as Hbump;
          destruct (IH (bumpFee cfg b2)) as [Hfee [fees [Hbids [Hsorted Hall]]]];
          [simpl in *; lia |]
        end.
        simpl in *. split; [lia |].
        exists (currentFee b :: fees). split; [| split].
        -- rewrite Hbids. unfold claimBids; simpl. rewrite map_app, <- app_assoc.
           reflexivity.
        -- constructor; [exact Hsorted |].
           eapply Forall_impl; [| exact Hall]. simpl. intros f Hf. lia.
        -- constructor; [lia |].
           eapply Forall_impl; [| exact Hall]. simpl. intros f Hf. lia.
    + match goal with |- context [claimLoop _ _ _ _ _ _ _ n (bumpFee cfg ?b1)] =>
        pose proof (bumpFee_bounds b1 Hm Hb) as Hbump;
        destruct (IH (bumpFee cfg b1)) as [Hfee [fees [Hbids [Hsorted Hall]]]];
        [simpl in *; lia |]
      end.
      simpl in *. split; [lia |].
      exists fees. split; [exact Hbids | split; [exact Hsorted |]].
      eapply Forall_impl; [| exact Hall]. simpl. intros f Hf. lia.
Qed.

End Loop.

End ClaimLoopFacts.

(** ** Attempts of the high-performance sweeper *)

Module AttemptFacts.
Import Horizon HighPerformanceSweeper AttemptNotions.

#[local] Arguments Nat.max : simpl never.

Section Attempts.
Variable cfg : Config.
Variable w : world.

Lemma results_all_failed (n : nat) :
  (forall k i, succeeded (answers w k i) = false) ->
  existsb succeeded (results cfg w n) = false.
Proof.
  intros Hfail. unfold results.
  induction (seq 0 (List.length (horizonUrls cfg))) as [| i l IH]; simpl;
    [reflexivity |].
  rewrite Hfail. exact IH.
Qed.

(** Every pass broadcasts at most once, and a pass follows only while the
    attempts are below [maxSubmissionAttempts]. *)
Lemma prepareAndSubmitTransaction_broadcasts (prepareOnly : bool) (b : bot) :
  (List.length (broadcasts (snd (prepareAndSubmitTransaction cfg w prepareOnly b)))
   <= List.length (broadcasts b)
      + Nat.max 1 (maxSubmissionAttempts cfg - attempts (status b)))%nat.
Proof.
  remember (maxSubmissionAttempts cfg - attempts (status b))%nat as m eqn:Hm.
  revert prepareOnly b Hm.
  induction m as [m IH] using lt_wf_ind. intros prepareOnly b Hm.
  rewrite prepareAndSubmitTransaction_equation_1.
  destruct (submitted (status b)); [simpl; lia |].
  destruct (prepareOnly && preparing (status b)); [simpl; lia |].
  cbv zeta.
  destruct (negb (builds w (passes b))); [simpl; lia |].
  destruct prepareOnly; [simpl; lia |].
  destruct (existsb succeeded (results cfg w (passes b)));
    [simpl; rewrite length_app; simpl; lia |].
  destruct (lt_dec _ _) as [Hlt | Hge]; simpl in *.
  - eapply Nat.le_trans; [eapply (IH _ _ false _ eq_refl) |].
    + simpl. rewrite length_app. simpl. lia.
  - rewrite length_app. simpl. lia.
  Unshelve. simpl. lia.
Qed.

(** With every broadcast rejected, the passes go on until the attempts
    reach [maxSubmissionAttempts]; the function then returns [false] and
    leaves [submitted] set. *)
Lemma prepareAndSubmitTransaction_all_failed (b : bot) :
  (forall n, builds w n = true) ->
  (forall k i, succeeded (answers w k i) = false) ->
  submitted (status b) = false ->
  let r := prepareAndSubmitTransaction cfg w false b in
  fst r = Some false
  /\ submitted (status (snd r)) = true
  /\ List.length (broadcasts (snd r))
     = (List.length (broadcasts b)
        + Nat.max 1 (maxSubmissionAttempts cfg - attempts (status b)))%nat.
Proof.
  intros Hbuild Hfail.
  remember (maxSubmissionAttempts cfg - attempts (status b))%nat as m eqn:Hm.
  revert b Hm.
  induction m as [m IH] using lt_wf_ind. intros b Hm Hsub.
  cbv zeta. rewrite prepareAndSubmitTransaction_equation_1.
  rewrite Hsub. simpl andb. cbv iota zeta.
  rewrite Hbuild. simpl negb. cbv iota.
  rewrite results_all_failed by exact Hfail.
  destruct (lt_dec _ _) as [Hlt | Hge]; simpl in *.
  - match goal with |- context [prepareAndSubmitTransaction cfg w false ?b4] =>
      assert (Hless : (maxSubmissionAttempts cfg - attempts (status b4) < m)%nat)
        by (simpl; lia);
      destruct (IH _ Hless b4 eq_refl eq_refl) as [E [S L]]
    end.
    split; [exact E | split; [exact S |]].
    rewrite L. simpl. rewrite length_app. simpl. lia.
  - repeat split. rewrite length_app. simpl. lia.
Qed.

(** Once [submitted] is set, no call broadcasts again. *)
Lemma prepareAndSubmitTransaction_after_submitted (prepareOnly : bool) (b : bot) :
  submitted (status b) = true ->
  prepareAndSubmitTransaction cfg w prepareOnly b = (None, b).
Proof.
  intros H. rewrite prepareAndSubmitTransaction_equation_1, H. reflexivity.
Qed.

(** The attempts counter bounds the broadcasts of a bot over its whole
    life: every call keeps [withinAttempts]. *)
Lemma prepareAndSubmitTransaction_withinAttempts (prepareOnly : bool) (b : bot) :
  withinAttempts cfg b ->
  withinAttempts cfg (snd (prepareAndSubmitTransaction cfg w prepareOnly b)).
Proof.
  remember (maxSubmissionAttempts cfg - attempts (status b))%nat as m eqn:Hm.
  revert prepareOnly b Hm.
  induction m as [m IH] using lt_wf_ind. intros prepareOnly b Hm Hinv.
  rewrite prepareAndSubmitTransaction_equation_1.
  destruct (submitted (status b)) eqn:Hsub; [exact Hinv |].
  destruct (prepareOnly && preparing (status b)); [exact Hinv |].
  destruct Hinv as [Hlen [Hle Hleft]]. specialize (Hleft Hsub).
  cbv zeta.
  destruct (negb (builds w (passes b))).
  { unfold withinAttempts. cbn. rewrite Hsub.
    split; [exact Hlen | split; [exact Hle | intros _; exact Hleft]]. }
  destruct prepareOnly.
  { unfold withinAttempts. cbn. rewrite Hsub.
    split; [exact Hlen | split; [exact Hle | intros _; exact Hleft]]. }
  destruct (existsb succeeded (results cfg w (passes b))).
  { unfold withinAttempts. cbn. rewrite length_app. cbn.
    split; [lia | split; [lia | discriminate]]. }
  destruct (lt_dec _ _) as [Hlt | Hge].
  - cbn in Hlt. eapply (IH _ _ false _ eq_refl).
    unfold withinAttempts. cbn. rewrite length_app. cbn.
    split; [lia | split; [lia | intros _; right; exact Hlt]].
  - cbn in Hge. unfold withinAttempts. cbn. rewrite length_app. cbn.
    split; [lia | split; [lia | discriminate]].
  Unshelve. cbn. lia.
Qed.

Lemma calls_withinAttempts (flags : list bool) (b : bot) :
  withinAttempts cfg b -> withinAttempts cfg (calls cfg w flags b).
Proof.
  revert b. induction flags as [| prepareOnly flags IH]; intros b Hinv;
    [exact Hinv |].
  apply IH, prepareAndSubmitTransaction_withinAttempts, Hinv.
Qed.

End Attempts.

End AttemptFacts.

(** ** The submission engine: rejections and exhaustion *)

Module EngineFacts.
Import Horizon.

(** C5 as the code has it: no bot looks at the error of a failed
    submission.  Two servers that succeed and fail at the same submissions
    lead [submitWithRetries], and the claim loop of [start], through the
    same run whatever the errors are; when every submission fails, for
    whatever reason, [submitWithRetries] makes its initial submission and
    all [maxSubmissionAttempts] fee bumps, and the claim loop makes all its
    attempts. *)
Theorem retries_follow_every_failure :
  (forall cfg sponsor (srv srv' : server) b tx,
      (forall n, succeeded (srv n) = succeeded (srv' n)) ->
      OptimizedSweeper.submitWithRetries cfg sponsor srv b tx
      = OptimizedSweeper.submitWithRetries cfg sponsor srv' b tx)
  /\ (forall cfg sponsor (srv : server) b tx,
         (forall n, succeeded (srv n) = false) ->
         fst (OptimizedSweeper.submitWithRetries cfg sponsor srv b tx)
         = OptimizedSweeper.RetriesExhausted
         /\ List.length (OptimizedSweeper.submissions
              (snd (OptimizedSweeper.submitWithRetries cfg sponsor srv b tx)))
            = (List.length (OptimizedSweeper.submissions b) + 1
               + OptimizedSweeper.maxSubmissionAttempts cfg)%nat)
  /\ (forall cfg target sponsor dest w w' balanceId amount remaining b,
         ClaimLoopNotions.sameOutcomes w w' ->
         ContinuousFlood.claimLoop cfg target sponsor dest w balanceId amount
                                   remaining b
         = ContinuousFlood.claimLoop cfg target sponsor dest w' balanceId amount
                                     remaining b)
  /\ (forall cfg target sponsor dest w (b : ContinuousFlood.bot) bal,
         (forall n, ContinuousFlood.loadAccount w n <> None) ->
         (forall n, succeeded (ContinuousFlood.submit w n) = false) ->
         fst (ContinuousFlood.start_balance cfg target sponsor dest w b bal) = false
         /\ List.length (ContinuousFlood.submissions
              (snd (ContinuousFlood.start_balance cfg target sponsor dest w b bal)))
            = (List.length (ContinuousFlood.submissions b)
               + ContinuousFlood.maxSubmissionAttempts cfg)%nat).
Proof.
  split; [exact RetryFacts.submitWithRetries_category |].
  split; [exact RetryFacts.submitWithRetries_all_failed |].
  split; [exact ClaimLoopFacts.claimLoop_category |].
  intros cfg target sponsor dest w b bal Hload Hfail.
  unfold ContinuousFlood.start_balance.
  apply ClaimLoopFacts.claimLoop_all_failed; assumption.
Qed.

Lemma retries_follow_every_failure_witness :
  fst (OptimizedSweeper.submitWithRetries OptimizedSweeper.config "GSPONSOR"
         (RetryNotions.rejecting AlreadyClaimed)
         (OptimizedSweeper.Bot 3500000 []) RetryNotions.candidate)
  = OptimizedSweeper.RetriesExhausted
  /\ List.length (OptimizedSweeper.submissions
       (snd (OptimizedSweeper.submitWithRetries OptimizedSweeper.config "GSPONSOR"
               (RetryNotions.rejecting AlreadyClaimed)
               (OptimizedSweeper.Bot 3500000 []) RetryNotions.candidate)))
     = 4%nat.
Proof.
  apply (proj1 (proj2 retries_follow_every_failure)
           OptimizedSweeper.config "GSPONSOR"%string
           (RetryNotions.rejecting AlreadyClaimed)
           (OptimizedSweeper.Bot 3500000 []) RetryNotions.candidate).
  intros n. reflexivity.
Defined.

(** C5 as stated fails: told that the balance was already claimed,
    [submitWithRetries] still makes its three fee bumps. *)
Lemma submitWithRetries_retries_after_terminal_rejection :
  ~ (forall (srv : server) b tx,
        srv (List.length (OptimizedSweeper.submissions b)) = Failed AlreadyClaimed ->
        List.length (OptimizedSweeper.submissions
          (snd (OptimizedSweeper.submitWithRetries OptimizedSweeper.config
                  "GSPONSOR" srv b tx)))
        = S (List.length (OptimizedSweeper.submissions b))).
Proof.
  intros H.
  specialize (H (RetryNotions.rejecting AlreadyClaimed)
                (OptimizedSweeper.Bot 3500000 []) RetryNotions.candidate eq_refl).
  vm_compute in H. discriminate.
Qed.

Lemma start_balances_all_failed
      (cfg : OptimizedSweeper.Config) (target sponsor dest : string)
      (srv : server) (turns : list OptimizedSweeperLoop.turn)
      (b : OptimizedSweeper.bot) :
  (forall n, succeeded (srv n) = false) ->
  Forall (PassNotions.handledTurn target) turns ->
  List.length (OptimizedSweeper.submissions
    (snd (OptimizedSweeperLoop.start_balances cfg target sponsor dest srv turns b)))
  = (List.length (OptimizedSweeper.submissions b)
     + List.length turns * (1 + OptimizedSweeper.maxSubmissionAttempts cfg))%nat.
Proof.
  intros Hfail Hturns. revert b.
  induction Hturns as [| t turns [Hunlock [Hload [Hbuild Hledger]]] _ IH];
    intros b.
  - cbn. lia.
  - cbn [OptimizedSweeperLoop.start_balances].
    unfold OptimizedSweeperLoop.start_balance, OptimizedSweeper.start_wait.
    apply Z.eqb_neq in Hunlock. rewrite Hunlock, Hbuild, Hledger.
    destruct (OptimizedSweeperLoop.turn_sponsorSequence t) as [sponsorSequence |];
      [| contradiction].
    match goal with
    | |- context [OptimizedSweeper.submitWithRetries cfg sponsor srv b ?tx] =>
        pose proof (proj2 (RetryFacts.submitWithRetries_all_failed
                             cfg sponsor srv b tx Hfail)) as Hlen;
        destruct (OptimizedSweeper.submitWithRetries cfg sponsor srv b tx)
          as [e b']
    end.
    cbn [snd] in Hlen. rewrite IH, Hlen. cbn [List.length]. lia.
Qed.

(** C6 as the code has it.  The optimized sweeper has no exhausted state
    for a balance: a call of [submitWithRetries] makes its initial
    submission and then at most [maxSubmissionAttempts] fee bumps, never
    more than [1 + maxSubmissionAttempts] submissions, and exactly that
    many, ending on "All retries exhausted", when all of them fail; and
    every pass of [start] calls it once more for every balance that has an
    unlock time and for which the sponsor account loads, the transaction
    builds and the latest ledger is obtained, so that a pass in which every
    submission fails adds [1 + maxSubmissionAttempts] submissions for each
    of them, whatever was submitted before.  The high-performance sweeper broadcasts at most
    [max(1, maxSubmissionAttempts - attempts)] times in a call of
    [prepareAndSubmitTransaction], and from its construction on, over any
    run of calls none of which is made while another is under way, at most
    [max(1, maxSubmissionAttempts)] times; when every broadcast of a call
    fails and the transaction builds on every pass, the call returns
    [false] with [submitted] left set, after which no call broadcasts
    again. *)
Theorem submissions_bounded_by_attempts :
  (forall cfg sponsor (srv : server) b tx,
      (List.length (OptimizedSweeper.submissions
         (snd (OptimizedSweeper.submitWithRetries cfg sponsor srv b tx)))
       <= List.length (OptimizedSweeper.submissions b) + 1
          + OptimizedSweeper.maxSubmissionAttempts cfg)%nat)
  /\ (forall cfg sponsor (srv : server) b tx,
         (forall n, succeeded (srv n) = false) ->
         fst (OptimizedSweeper.submitWithRetries cfg sponsor srv b tx)
         = OptimizedSweeper.RetriesExhausted
         /\ List.length (OptimizedSweeper.submissions
              (snd (OptimizedSweeper.submitWithRetries cfg sponsor srv b tx)))
            = (List.length (OptimizedSweeper.submissions b) + 1
               + OptimizedSweeper.maxSubmissionAttempts cfg)%nat)
  /\ (forall cfg target sponsor dest (srv : server) p99 turns b,
         (forall n, succeeded (srv n) = false) ->
         Forall (PassNotions.handledTurn target) turns ->
         List.length (OptimizedSweeper.submissions
           (snd (OptimizedSweeperLoop.start_pass cfg target sponsor dest srv
                   (Some p99) turns b)))
         = (List.length (OptimizedSweeper.submissions b)
            + List.length turns
              * (1 + OptimizedSweeper.maxSubmissionAttempts cfg))%nat)
  /\ (forall cfg w prepareOnly b,
         (List.length (HighPerformanceSweeper.broadcasts
            (snd (HighPerformanceSweeper.prepareAndSubmitTransaction
                    cfg w prepareOnly b)))
          <= List.length (HighPerformanceSweeper.broadcasts b)
             + Nat.max 1 (HighPerformanceSweeper.maxSubmissionAttempts cfg
                          - HighPerformanceSweeper.attempts
                              (HighPerformanceSweeper.status b)))%nat)
  /\ (forall cfg w flags,
         (List.length (HighPerformanceSweeper.broadcasts
            (AttemptNotions.calls cfg w flags
               (HighPerformanceSweeper.constructor cfg)))
          <= Nat.max 1 (HighPerformanceSweeper.maxSubmissionAttempts cfg))%nat)
  /\ (forall cfg w b,
         (forall n, HighPerformanceSweeper.builds w n = true) ->
         (forall k i, succeeded (HighPerformanceSweeper.answers w k i) = false) ->
         HighPerformanceSweeper.submitted (HighPerformanceSweeper.status b) = false ->
         let r := HighPerformanceSweeper.prepareAndSubmitTransaction cfg w false b in
         fst r = Some false
         /\ List.length (HighPerformanceSweeper.broadcasts (snd r))
            = (List.length (HighPerformanceSweeper.broadcasts b)
               + Nat.max 1 (HighPerformanceSweeper.maxSubmissionAttempts cfg
                            - HighPerformanceSweeper.attempts
                                (HighPerformanceSweeper.status b)))%nat
         /\ forall w' prepareOnly,
              HighPerformanceSweeper.prepareAndSubmitTransaction
                cfg w' prepareOnly (snd r)
              = (None, snd r)).
Proof.
  split; [exact RetryFacts.submitWithRetries_length |].
  split; [exact RetryFacts.submitWithRetries_all_failed |].
  split.
  { intros cfg target sponsor dest srv p99 turns b Hfail Hturns.
    unfold OptimizedSweeperLoop.start_pass.
    destruct turns as [| t turns]; [cbn; lia |].
    rewrite (start_balances_all_failed cfg target sponsor dest srv (t :: turns)
               _ Hfail Hturns).
    reflexivity. }
  split; [exact AttemptFacts.prepareAndSubmitTransaction_broadcasts |].
  split.
  { intros cfg w flags.
    destruct (AttemptFacts.calls_withinAttempts cfg w flags
                (HighPerformanceSweeper.constructor cfg))
      as [Hlen [Hle _]].
    - unfold AttemptNotions.withinAttempts. cbn.
      split; [reflexivity | split; [lia | intros _; left; reflexivity]].
    - rewrite Hlen. exact Hle. }
  intros cfg w b Hbuild Hfail Hsub.
  destruct (AttemptFacts.prepareAndSubmitTransaction_all_failed
              cfg w b Hbuild Hfail Hsub) as [E [S L]].
  cbv zeta. split; [exact E | split; [exact L |]].
  intros w' prepareOnly.
  apply AttemptFacts.prepareAndSubmitTransaction_after_submitted. exact S.
Qed.

Lemma submissions_bounded_by_attempts_witness :
  fst (HighPerformanceSweeper.prepareAndSubmitTransaction
         HighPerformanceSweeper.config (AttemptNotions.rejectingClients FeeTooLow) false
         (HighPerformanceSweeper.constructor HighPerformanceSweeper.config))
  = Some false
  /\ List.length (HighPerformanceSweeper.broadcasts
       (snd (HighPerformanceSweeper.prepareAndSubmitTransaction
               HighPerformanceSweeper.config (AttemptNotions.rejectingClients FeeTooLow)
               false
               (HighPerformanceSweeper.constructor HighPerformanceSweeper.config))))
     = 3%nat.
Proof.
  destruct (proj2 (proj2 (proj2 (proj2 (proj2 submissions_bounded_by_attempts))))
              HighPerformanceSweeper.config (AttemptNotions.rejectingClients FeeTooLow)
              (HighPerformanceSweeper.constructor HighPerformanceSweeper.config))
    as [E [L _]].
  - intros n. reflexivity.
  - intros k i. reflexivity.
  - reflexivity.
  - split; [exact E | exact L].
Defined.

(** C6 as stated fails: with every submission rejected,
    [submitWithRetries] submits four times under a
    [maxSubmissionAttempts] of 3. *)
Lemma submitWithRetries_exceeds_maxSubmissionAttempts :
  ~ (forall (srv : server) b tx,
        (List.length (OptimizedSweeper.submissions
           (snd (OptimizedSweeper.submitWithRetries OptimizedSweeper.config
                   "GSPONSOR" srv b tx)))
         <= List.length (OptimizedSweeper.submissions b)
            + OptimizedSweeper.maxSubmissionAttempts OptimizedSweeper.config)%nat).
Proof.
  intros H.
  specialize (H (RetryNotions.rejecting FeeTooLow)
                (OptimizedSweeper.Bot 3500000 []) RetryNotions.candidate).
  vm_compute in H.
  repeat match goal with H : (S _ <= S _)%nat |- _ => apply le_S_n in H end.
  inversion H.
Qed.

End EngineFacts.

(** ** The ledger clock of the precision claim bot *)

Module ClockFacts.
Import PrecisionClaimBot ClockNotions.

Lemma skipn_S_tl {A : Type} (n : nat) (l : list A) :
  skipn (S n) l = tl (skipn n l).
Proof.
  revert l. induction n as [| n IH]; intros [| a l]; try reflexivity.
  exact (IH l).
Qed.

Lemma lastN_snoc {A : Type} (K : nat) (l : list A) (x : A) :
  Spec.lastN K (l ++ [x])
  = if (K <? List.length (Spec.lastN K l ++ [x]))%nat
    then tl (Spec.lastN K l ++ [x])
    else Spec.lastN K l ++ [x].
Proof.
  unfold Spec.lastN.
  rewrite !length_app, length_skipn. simpl.
  destruct (K <? _)%nat eqn:HK.
  - apply Nat.ltb_lt in HK.
    replace (List.length l + 1 - K)%nat with (S (List.length l - K)) by lia.
    rewrite skipn_S_tl, skipn_app.
    replace (List.length l - K - List.length l)%nat with 0%nat by lia.
    reflexivity.
  - apply Nat.ltb_ge in HK.
    replace (List.length l + 1 - K)%nat with 0%nat by lia.
    replace (List.length l - K)%nat with 0%nat by lia.
    reflexivity.
Qed.

Lemma intervals_snoc (closes : list Z) (x : Z) :
  closes <> [] ->
  Spec.intervals (closes ++ [x]) = Spec.intervals closes ++ [x - last closes 0].
Proof.
  induction closes as [| a [| b rest] IH]; intros Hne.
  - contradiction.
  - reflexivity.
  - change (Spec.intervals ((a :: b :: rest) ++ [x]))
      with ((b - a) :: Spec.intervals ((b :: rest) ++ [x])).
    rewrite IH by discriminate. reflexivity.
Qed.

Lemma intervals_length (closes : list Z) :
  List.length (Spec.intervals closes) = (List.length closes - 1)%nat.
Proof.
  induction closes as [| a [| b rest] IH]; try reflexivity.
  change (Spec.intervals (a :: b :: rest))
    with ((b - a) :: Spec.intervals (b :: rest)).
  simpl in *. rewrite IH. lia.
Qed.

Lemma sum_fold (l : list Z) : fold_left Z.add l 0 = fold_right Z.add 0 l.
Proof.
  apply fold_symmetric; intros; lia.
Qed.

Lemma tracks_start (latestLedger : ledger) :
  tracks (startBlockMonitoring latestLedger) [closed_at latestLedger].
Proof.
  unfold tracks; simpl. repeat split; try reflexivity. discriminate.
Qed.

Lemma tracks_new_block (m : monitor) (closes : list Z) (l : ledger) :
  tracks m closes ->
  (latestLedgerNum m <? ledger_sequence l) = true ->
  tracks (blockMonitorInterval m (Some l)) (closes ++ [closed_at l]).
Proof.
  intros [Hne [Hlast [Htimes _]]] Hnew.
  unfold blockMonitorInterval. rewrite Hnew.
  set (blockTime := closed_at l - lastLedgerCloseTime m).
  assert (Hkept : (if (10 <? List.length (blockTimes m ++ [blockTime]))%nat
                   then tl (blockTimes m ++ [blockTime])
                   else blockTimes m ++ [blockTime])
                  = Spec.lastN 10 (Spec.intervals (closes ++ [closed_at l]))).
  { rewrite intervals_snoc by exact Hne.
    rewrite lastN_snoc, <- Htimes, <- Hlast. reflexivity. }
  unfold tracks; cbn [lastLedgerCloseTime blockTimes avgBlockTimeMs].
  rewrite Hkept. repeat split.
  - destruct closes; discriminate.
  - rewrite last_last. reflexivity.
  - assert (Hlen : (List.length (closes ++ [closed_at l]) <? 2)%nat = false).
    { apply Nat.ltb_ge. rewrite length_app. simpl.
      destruct closes; [contradiction | simpl; lia]. }
    rewrite Hlen. unfold Spec.mean. rewrite sum_fold. reflexivity.
Qed.

Lemma latestLedgerNum_new_block (m : monitor) (l : ledger) :
  (latestLedgerNum m <? ledger_sequence l) = true ->
  latestLedgerNum (blockMonitorInterval m (Some l)) = ledger_sequence l.
Proof. intros H. unfold blockMonitorInterval. rewrite H. reflexivity. Qed.

Lemma blockMonitorInterval_old (m : monitor) (l : ledger) :
  (latestLedgerNum m <? ledger_sequence l) = false ->
  blockMonitorInterval m (Some l) = m.
Proof. intros H. unfold blockMonitorInterval. rewrite H. reflexivity. Qed.

Lemma tracks_polls (polls : list (option ledger)) (m : monitor) (closes : list Z) :
  tracks m closes ->
  tracks (fold_left blockMonitorInterval polls m)
         (closes ++ map closed_at (newBlocks (latestLedgerNum m) polls)).
Proof.
  revert m closes.
  induction polls as [| [l |] polls IH]; intros m closes Hm.
  - simpl. rewrite app_nil_r. exact Hm.
  - change (fold_left blockMonitorInterval (Some l :: polls) m)
      with (fold_left blockMonitorInterval polls (blockMonitorInterval m (Some l))).
    cbn [newBlocks].
    destruct (latestLedgerNum m <? ledger_sequence l) eqn:Hnew.
    + pose proof (IH _ _ (tracks_new_block m closes l Hm Hnew)) as Hstep.
      rewrite (latestLedgerNum_new_block m l Hnew) in Hstep.
      rewrite <- app_assoc in Hstep. exact Hstep.
    + rewrite (blockMonitorInterval_old m l Hnew). apply IH, Hm.
  - apply (IH m closes Hm).
Qed.

(** C8: once the monitor has observed a run of ledgers, its estimate of the
    next close is the last observed close time plus the arithmetic mean of
    the last 10 block intervals, of which it keeps no more than 10, and
    plus the default of 5000 ms while fewer than 2 closes were observed. *)
Theorem expectedNextBlockTime_moving_average
        (latestLedger : ledger) (polls : list (option ledger)) :
  let m := monitorBlocks latestLedger polls in
  let closes := observedCloses latestLedger polls in
  blockTimes m = Spec.lastN 10 (Spec.intervals closes)
  /\ (List.length (blockTimes m) <= 10)%nat
  /\ expectedNextBlockTime m == Spec.estimateNextClose 10 5000 closes
  /\ ((List.length closes < 2)%nat ->
      expectedNextBlockTime m == inject_Z (last closes 0) + 5000).
Proof.
  cbv zeta.
  pose proof (tracks_polls polls _ _ (tracks_start latestLedger)) as H.
  change (tracks (monitorBlocks latestLedger polls)
                 (observedCloses latestLedger polls)) in H.
  destruct H as [Hne [Hlast [Htimes Havg]]].
  split; [exact Htimes |].
  split.
  { rewrite Htimes. unfold Spec.lastN. rewrite length_skipn. lia. }
  assert (E : expectedNextBlockTime (monitorBlocks latestLedger polls)
              == Spec.estimateNextClose 10 5000 (observedCloses latestLedger polls)).
  { unfold expectedNextBlockTime, Spec.estimateNextClose.
    rewrite Hlast, Havg. reflexivity. }
  split; [exact E |].
  intros Hfew. rewrite E. unfold Spec.estimateNextClose.
  apply Nat.ltb_lt in Hfew. rewrite Hfew. reflexivity.
Qed.

Lemma expectedNextBlockTime_moving_average_witness :
  expectedNextBlockTime (monitorBlocks (Ledger 100 1000000) [None])
  == inject_Z 1000000 + 5000.
Proof.
  apply (proj2 (proj2 (proj2
           (expectedNextBlockTime_moving_average (Ledger 100 1000000) [None])))).
  simpl. lia.
Defined.

End ClockFacts.

(** ** The flood of the precision claim bot *)

Module FloodFacts.
Import Stellar PrecisionClaimBot FloodNotions.

Section Sorting.
Context {A : Type}.
Variable compareFn : A -> A -> option Z.

Lemma insert_Permutation (x : A) (l : list A) :
  Permutation (JS.insert compareFn x l) (x :: l).
Proof.
  induction l as [| y l IH]; simpl; [reflexivity |].
  destruct (JS.comesAfter compareFn x y); [| reflexivity].
  rewrite IH. apply perm_swap.
Qed.

Lemma sort_Permutation (l : list A) : Permutation (JS.sort compareFn l) l.
Proof.
  induction l as [| x l IH]; simpl; [reflexivity |].
  rewrite insert_Permutation, IH. reflexivity.
Qed.

Lemma sort_In (x : A) (l : list A) : In x (JS.sort compareFn l) <-> In x l.
Proof.
  split; apply Permutation_in;
    [apply sort_Permutation | symmetry; apply sort_Permutation].
Qed.

End Sorting.

Lemma StronglySorted_nth {A : Type} (R : A -> A -> Prop) (l : list A) :
  StronglySorted R l ->
  forall i j a b,
    (i < j)%nat -> nth_error l i = Some a -> nth_error l j = Some b -> R a b.
Proof.
  induction 1 as [| x l Hsorted IH Hall]; intros i j a b Hij Hi Hj.
  - destruct i; discriminate.
  - destruct j as [| j]; [lia |]. simpl in Hj.
    destruct i as [| i]; simpl in Hi.
    + injection Hi as <-. rewrite Forall_forall in Hall.
      apply Hall. eapply nth_error_In. exact Hj.
    + apply (IH i j); [lia | assumption | assumption].
Qed.

Lemma Forall2_In_right {A B : Type} (R : A -> B -> Prop)
      (l : list A) (l' : list B) (y : B) :
  Forall2 R l l' -> In y l' -> exists x, In x l /\ R x y.
Proof.
  induction 1 as [| x y' l l' Hxy _ IH]; intros Hin; [contradiction |].
  destruct Hin as [<- | Hin].
  - exists x. split; [left; reflexivity | exact Hxy].
  - destruct (IH Hin) as [x' [Hx' HR]]. exists x'. split; [right |]; assumption.
Qed.

Section Flood.
Variable numberToString : Z -> string.
Variable stringToNumber : string -> option Z.
Variable builds : string -> bool.
Variable buildsFeeBump : string -> bool.

Lemma prepareTransaction_built (b : bot) (s : Z) (i : nat) (t : txInfo) :
  prepareTransaction numberToString builds buildsFeeBump b s i = Some t ->
  accountSequence t = s + 1
  /\ index t = i
  /\ fee t = candidateFee numberToString b i.
Proof.
  unfold prepareTransaction, accountSequence.
  destruct (sourcePublicKey b) as [publicKey |]; [| discriminate].
  destruct (sourceKeypair b) as [keypair |]; [| discriminate].
  destruct (builds _); [| discriminate].
  destruct (useFeeSponsor b).
  - destruct (sponsorKeypair b) as [sponsor |]; [| discriminate].
    destruct (buildsFeeBump _); [| discriminate].
    intros [= <-]. repeat split.
  - intros [= <-]. repeat split.
Qed.

Lemma prepareTransaction_setTransactions
      (b : bot) (running : bool) (txs : list txInfo) (s : Z) (i : nat) :
  prepareTransaction numberToString builds buildsFeeBump
    (setTransactions b running txs) s i
  = prepareTransaction numberToString builds buildsFeeBump b s i.
Proof. reflexivity. Qed.

Lemma buildCandidates_setTransactions
      (b : bot) (running : bool) (txs : list txInfo) (s : Z)
      (indices : list nat) (pushed : list txInfo) :
  buildCandidates numberToString builds buildsFeeBump
    (setTransactions b running txs) s indices pushed
  = buildCandidates numberToString builds buildsFeeBump b s indices pushed.
Proof.
  revert pushed. induction indices as [| i rest IH]; intros pushed;
    [reflexivity |].
  cbn [buildCandidates]. rewrite prepareTransaction_setTransactions.
  destruct (prepareTransaction _ _ _ b s i); [apply IH | reflexivity].
Qed.

(** The loop pushes the candidates in the order of the indices, and stops
    at the first one that cannot be built. *)
Lemma buildCandidates_pushed
      (b : bot) (s : Z) (indices : list nat) (pushed : list txInfo) :
  exists done built rest,
    snd (buildCandidates numberToString builds buildsFeeBump b s indices pushed)
    = pushed ++ built
    /\ indices = done ++ rest
    /\ Forall2 (fun i t =>
                  prepareTransaction numberToString builds buildsFeeBump b s i
                  = Some t) done built
    /\ (fst (buildCandidates numberToString builds buildsFeeBump b s indices pushed)
        = true -> rest = [])
    /\ (fst (buildCandidates numberToString builds buildsFeeBump b s indices pushed)
        = false ->
        exists i rest',
          rest = i :: rest'
          /\ prepareTransaction numberToString builds buildsFeeBump b s i = None).
Proof.
  revert pushed. induction indices as [| i indices IH]; intros pushed.
  - exists [], [], []. cbn. rewrite app_nil_r.
    repeat split; try constructor. discriminate.
  - cbn [buildCandidates].
    destruct (prepareTransaction numberToString builds buildsFeeBump b s i)
      as [t |] eqn:Ht.
    + destruct (IH (pushed ++ [t]))
        as [done [built [rest [Hsnd [Hind [Hall [Htrue Hfalse]]]]]]].
      exists (i :: done), (t :: built), rest.
      split; [rewrite Hsnd, <- app_assoc; reflexivity |].
      split; [cbn [app]; rewrite <- Hind; reflexivity |].
      split; [constructor; assumption |].
      split; assumption.
    + exists [], [], (i :: indices). cbn. rewrite app_nil_r.
      repeat split; try constructor; try discriminate.
      intros _. exists i, indices. split; [reflexivity | exact Ht].
Qed.

(** When [prepareTransactions] returns, it leaves the candidates of all
    indices, sorted. *)
Lemma prepareTransactions_completed (b : bot) (s : Z) (prepared : list txInfo) :
  prepareTransactions numberToString stringToNumber builds buildsFeeBump
    b (Some s) = (true, prepared) ->
  exists built,
    Forall2 (fun i t =>
               prepareTransaction numberToString builds buildsFeeBump b s i
               = Some t) (seq 0 (txCount b)) built
    /\ prepared = JS.sort (byFeeDescending stringToNumber) built.
Proof.
  unfold prepareTransactions.
  destruct (sourcePublicKey b); [| discriminate].
  destruct (buildCandidates_pushed b s (seq 0 (txCount b)) [])
    as [done [built [rest [Hsnd [Hind [Hall [Htrue _]]]]]]].
  destruct (buildCandidates numberToString builds buildsFeeBump b s
              (seq 0 (txCount b)) []) as [[|] pushed]; [| discriminate].
  cbn [fst snd] in *. intros [= _ <-].
  exists built. rewrite (Htrue eq_refl), app_nil_r in Hind.
  rewrite Hind. split; [exact Hall | rewrite Hsnd; reflexivity].
Qed.

(** Whatever [prepareTransactions] leaves for a bot with a source key was
    pushed by its loop. *)
Lemma prepareTransactions_In (b : bot) (s : Z) (t : txInfo) :
  sourcePublicKey b <> None ->
  In t (snd (prepareTransactions numberToString stringToNumber builds buildsFeeBump
               b (Some s))) ->
  exists i,
    (i < txCount b)%nat
    /\ prepareTransaction numberToString builds buildsFeeBump b s i = Some t.
Proof.
  unfold prepareTransactions. intros Hkey.
  destruct (sourcePublicKey b); [clear Hkey | contradiction].
  destruct (buildCandidates_pushed b s (seq 0 (txCount b)) [])
    as [done [built [rest [Hsnd [Hind [Hall _]]]]]].
  destruct (buildCandidates numberToString builds buildsFeeBump b s
              (seq 0 (txCount b)) []) as [[|] pushed]; cbn [fst snd] in *;
    [rewrite sort_In |]; subst pushed; cbn [app]; intros Hin.
  all: destruct (Forall2_In_right _ _ _ _ Hall Hin) as [i [Hi Ht]]; exists i;
    split; [| exact Ht];
    assert (Hseq : In i (seq 0 (txCount b)))
      by (rewrite Hind; apply in_or_app; left; exact Hi);
    apply in_seq in Hseq; lia.
Qed.

Lemma comesAfter_byFee (a b : txInfo) (x y : Z) :
  feeNumber stringToNumber a = Some x -> feeNumber stringToNumber b = Some y ->
  JS.comesAfter (byFeeDescending stringToNumber) a b = (x <? y).
Proof.
  unfold JS.comesAfter, byFeeDescending, JS.minus, feeNumber.
  intros -> ->. destruct (x <? y) eqn:H.
  - apply Z.ltb_lt in H. apply Z.ltb_lt. lia.
  - apply Z.ltb_ge in H. apply Z.ltb_ge. lia.
Qed.

Lemma insert_Forall (P : txInfo -> Prop) (x : txInfo) (l : list txInfo) :
  P x -> Forall P l ->
  Forall P (JS.insert (byFeeDescending stringToNumber) x l).
Proof.
  intros Hx Hl.
  eapply Permutation_Forall;
    [symmetry; apply insert_Permutation | constructor; assumption].
Qed.

Lemma insert_sorted (x : txInfo) (l : list txInfo) :
  feeNumber stringToNumber x <> None ->
  Forall (fun t => feeNumber stringToNumber t <> None) l ->
  StronglySorted (bidsAtLeast stringToNumber) l ->
  StronglySorted (bidsAtLeast stringToNumber) (JS.insert (byFeeDescending stringToNumber) x l).
Proof.
  intros Hx Hnum Hsorted.
  destruct (feeNumber stringToNumber x) as [fx |] eqn:Efx; [clear Hx | contradiction].
  induction Hsorted as [| y l Hsorted IH Hall]; simpl.
  - repeat constructor.
  - inversion Hnum as [| ? ? Hy Hl]; subst.
    destruct (feeNumber stringToNumber y) as [fy |] eqn:Efy; [clear Hy | contradiction].
    rewrite (comesAfter_byFee x y fx fy Efx Efy).
    destruct (fx <? fy) eqn:Hcmp.
    + apply Z.ltb_lt in Hcmp. constructor; [apply IH; exact Hl |].
      apply insert_Forall; [| exact Hall].
      exists fy, fx. repeat split; auto. lia.
    + apply Z.ltb_ge in Hcmp. constructor; [constructor; assumption |].
      constructor.
      * exists fx, fy. repeat split; auto.
      * eapply Forall_impl; [| exact Hall].
        intros t [y' [ft [Ey [Et Hle]]]].
        rewrite Efy in Ey. injection Ey as <-.
        exists fx, ft. repeat split; auto. lia.
Qed.

Lemma sort_sorted (l : list txInfo) :
  Forall (fun t => feeNumber stringToNumber t <> None) l ->
  StronglySorted (bidsAtLeast stringToNumber) (JS.sort (byFeeDescending stringToNumber) l).
Proof.
  induction 1 as [| x l Hx Hl IH]; simpl; [constructor |].
  apply insert_sorted; [exact Hx | | exact IH].
  eapply Permutation_Forall; [symmetry; apply sort_Permutation | exact Hl].
Qed.

Lemma floodTimers_nth (spacing : Z) (txs : list txInfo) (k i : nat) :
  nth_error (floodTimers spacing k txs) i
  = option_map (fun t => (Z.of_nat (k + i) * spacing, t)) (nth_error txs i).
Proof.
  revert k i. induction txs as [| t txs IH]; intros k [| i]; simpl;
    try reflexivity.
  - rewrite Nat.add_0_r. reflexivity.
  - rewrite IH. replace (S k + i)%nat with (k + S i)%nat by lia. reflexivity.
Qed.

Lemma floodTimers_length (spacing : Z) (txs : list txInfo) (k : nat) :
  List.length (floodTimers spacing k txs) = List.length txs.
Proof.
  revert k. induction txs as [| t txs IH]; intros k; simpl;
    [reflexivity | rewrite IH; reflexivity].
Qed.

Section LedgerRule.
Variable stamp : Z -> Z.
Variable accept : Z -> Z -> option Z.
(** The sequence of an account only moves forward, and a transaction the
    ledger applies uses up its own number. *)
Hypothesis accept_advances :
  forall cur n cur', accept cur n = Some cur' -> cur < n <= cur'.

Lemma acceptedCandidates_same_number (n0 : Z) (arrivals : list (arrival)) (cur : Z) :
  (forall t, In (Candidate t) arrivals -> sequenceNumber stamp t = n0) ->
  (acceptedCandidates stamp accept cur arrivals <= 1)%nat
  /\ (n0 <= cur -> acceptedCandidates stamp accept cur arrivals = 0%nat).
Proof.
  revert cur. induction arrivals as [| [t | d] rest IH]; intros cur Hsame; simpl.
  - split; [lia | reflexivity].
  - assert (Hrest : forall t', In (Candidate t') rest -> sequenceNumber stamp t' = n0)
      by (intros t' Hin; apply Hsame; right; exact Hin).
    rewrite (Hsame t (or_introl eq_refl)).
    destruct (accept cur n0) as [cur' |] eqn:Hacc.
    + apply accept_advances in Hacc.
      destruct (IH cur' Hrest) as [_ Hzero].
      split; [rewrite Hzero by lia; lia | lia].
    + apply IH. exact Hrest.
  - assert (Hrest : forall t', In (Candidate t') rest -> sequenceNumber stamp t' = n0)
      by (intros t' Hin; apply Hsame; right; exact Hin).
    destruct (IH (cur + Z.of_nat d) Hrest) as [Hle Hzero].
    split; [exact Hle | intros; apply Hzero; lia].
Qed.

End LedgerRule.

Lemma stellarAccept_advances (cur n cur' : Z) :
  stellarAccept cur n = Some cur' -> cur < n <= cur'.
Proof.
  unfold stellarAccept. destruct (n =? cur + 1) eqn:E; [| discriminate].
  apply Z.eqb_eq in E. intros [= <-]. lia.
Qed.

(** Candidates numbered two above the sequence of the account, reaching the
    ledger with nothing else in between, are all refused. *)
Lemma acceptedCandidates_two_ahead (cur : Z) (txs : list txInfo) :
  Forall (fun t => sequenceNumber stellarStamp t = cur + 2) txs ->
  acceptedCandidates stellarStamp stellarAccept cur (map Candidate txs) = 0%nat.
Proof.
  induction 1 as [| t txs Ht _ IH]; [reflexivity |].
  cbn [map acceptedCandidates]. rewrite Ht. unfold stellarAccept.
  destruct (cur + 2 =? cur + 1) eqn:E; [apply Z.eqb_eq in E; lia | exact IH].
Qed.

(** C9, for every bot that has its source key and every sequence [s] of
    the source account.  Every candidate that [prepareTransactions] leaves
    is built from an account whose sequence is [s + 1], whatever its index,
    and the transaction the SDK builds from that account is numbered once
    more: every candidate carries [s + 2], not the [s + 1] that the ledger
    wants next.  So the candidates do share one number, and the ledger
    accepts at most one of them however they arrive and whatever else moves
    the sequence meanwhile; but when the flood reaches the ledger with
    nothing in between, the account still standing at [s], not one of them
    is accepted. *)
Theorem prepared_candidates_share_sequence (b : bot) (s : Z) :
  sourcePublicKey b <> None ->
  let prepared :=
    snd (prepareTransactions numberToString stringToNumber builds buildsFeeBump
           b (Some s)) in
  (forall t, In t prepared ->
             accountSequence t = s + 1
             /\ sequenceNumber stellarStamp t = s + 2
             /\ stellarAccept s (sequenceNumber stellarStamp t) = None)
  /\ stellarAccept s (s + 1) = Some (s + 1)
  /\ acceptedCandidates stellarStamp stellarAccept s (map Candidate prepared)
     = 0%nat
  /\ (forall (cur : Z) (arrivals : list arrival),
         (forall t, In (Candidate t) arrivals -> In t prepared) ->
         (acceptedCandidates stellarStamp stellarAccept cur arrivals <= 1)%nat).
Proof.
  intros Hkey. cbv zeta.
  assert (Hseq : forall t,
             In t (snd (prepareTransactions numberToString stringToNumber
                          builds buildsFeeBump b (Some s))) ->
             accountSequence t = s + 1
             /\ sequenceNumber stellarStamp t = s + 2).
  { intros t Hin. apply (prepareTransactions_In b s t Hkey) in Hin.
    destruct Hin as [i [_ Ht]].
    apply prepareTransaction_built in Ht. destruct Ht as [Hacc _].
    split; [exact Hacc |].
    unfold sequenceNumber, stellarStamp. unfold accountSequence in Hacc.
    rewrite Hacc. lia. }
  split.
  { intros t Hin. destruct (Hseq t Hin) as [Hacc Hnum].
    split; [exact Hacc | split; [exact Hnum |]].
    rewrite Hnum. unfold stellarAccept.
    destruct (s + 2 =? s + 1) eqn:E; [apply Z.eqb_eq in E; lia | reflexivity]. }
  split.
  { unfold stellarAccept. rewrite Z.eqb_refl. reflexivity. }
  split.
  { apply acceptedCandidates_two_ahead. apply Forall_forall.
    intros t Hin. apply Hseq, Hin. }
  intros cur arrivals Hfrom.
  apply (acceptedCandidates_same_number stellarStamp stellarAccept
           stellarAccept_advances (s + 2) arrivals cur).
  intros t Hin. apply Hseq, Hfrom, Hin.
Qed.

(** C10: once [prepareTransactions] has completed, the list it leaves is a
    rearrangement of the candidates built for all [txCount] indices, in
    non-increasing order of fee, provided every fee is a number;
    [executeFlood] sets the timer of candidate [i] to [i * txSpacingMs], so
    that of two candidates the one submitted earlier never waits longer and
    never bids less, and the candidate submitted first bids the most. *)
Theorem flood_submits_by_descending_fee
        (b : bot) (sourceSequence : Z) (prepared : list txInfo) :
  isRunning b = false ->
  prepareTransactions numberToString stringToNumber builds buildsFeeBump
    b (Some sourceSequence) = (true, prepared) ->
  transactions b = [] \/ transactions b = prepared ->
  (forall t, In t prepared -> feeNumber stringToNumber t <> None) ->
  0 <= txSpacingMs b ->
  let timers :=
    snd (executeFlood numberToString stringToNumber builds buildsFeeBump
           (Some sourceSequence) b) in
  (exists built,
      Forall2 (fun i t =>
                 prepareTransaction numberToString builds buildsFeeBump
                   b sourceSequence i = Some t)
              (seq 0 (txCount b)) built
      /\ Permutation prepared built)
  /\ StronglySorted (bidsAtLeast stringToNumber) prepared
  /\ (forall i t,
         nth_error prepared i = Some t ->
         nth_error timers i = Some (Z.of_nat i * txSpacingMs b, t))
  /\ List.length timers = txCount b
  /\ (forall i j di ti dj tj,
         (i < j)%nat ->
         nth_error timers i = Some (di, ti) ->
         nth_error timers j = Some (dj, tj) ->
         di <= dj /\ (bidsAtLeast stringToNumber) ti tj).
Proof.
  intros Hidle Hdone Htxs Hnum Hspacing. cbv zeta.
  destruct (prepareTransactions_completed b sourceSequence prepared Hdone)
    as [built [Hbuilt Hsort]].
  assert (Hperm : Permutation prepared built)
    by (rewrite Hsort; apply sort_Permutation).
  assert (Hsorted : StronglySorted (bidsAtLeast stringToNumber) prepared).
  { rewrite Hsort. apply sort_sorted. apply Forall_forall. intros t Hin.
    apply Hnum. apply (Permutation_in _ (Permutation_sym Hperm)), Hin. }
  assert (Hlen : List.length prepared = txCount b).
  { rewrite (Permutation_length Hperm), <- (Forall2_length Hbuilt).
    apply length_seq. }
  assert (Htimers : snd (executeFlood numberToString stringToNumber builds
                           buildsFeeBump (Some sourceSequence) b)
                    = floodTimers (txSpacingMs b) 0 prepared).
  { unfold executeFlood. rewrite Hidle.
    cbn [transactions setTransactions txSpacingMs].
    destruct (List.length (transactions b) =? 0)%nat eqn:Hl.
    - assert (E : prepareTransactions numberToString stringToNumber builds
                    buildsFeeBump (setTransactions b true (transactions b))
                    (Some sourceSequence) = (true, prepared)).
      { rewrite <- Hdone. unfold prepareTransactions.
        cbn [sourcePublicKey setTransactions txCount transactions].
        rewrite buildCandidates_setTransactions. reflexivity. }
      rewrite E. reflexivity.
    - destruct Htxs as [Hnil | Hprep].
      + rewrite Hnil in Hl. discriminate.
      + cbn [snd]. rewrite Hprep. reflexivity. }
  rewrite Htimers.
  assert (Hnth : forall i,
             nth_error (floodTimers (txSpacingMs b) 0 prepared) i
             = option_map (fun t => (Z.of_nat i * txSpacingMs b, t))
                          (nth_error prepared i))
    by (intros i; apply floodTimers_nth).
  split; [exists built; split; assumption |].
  split; [exact Hsorted |].
  split; [intros i t Hi; rewrite Hnth, Hi; reflexivity |].
  split; [rewrite floodTimers_length; exact Hlen |].
  intros i j di ti dj tj Hij Hi Hj.
  rewrite Hnth in Hi, Hj.
  destruct (nth_error prepared i) as [ti' |] eqn:Ei; [| discriminate].
  destruct (nth_error prepared j) as [tj' |] eqn:Ej; [| discriminate].
  simpl in Hi, Hj. injection Hi as <- <-. injection Hj as <- <-.
  split.
  - apply Z.mul_le_mono_nonneg_r; [exact Hspacing | lia].
  - exact (StronglySorted_nth _ _ Hsorted i j ti' tj' Hij Ei Ej).
Qed.

End Flood.

Lemma prepared_candidates_share_sequence_witness :
  map (fun t => (index t, sequenceNumber stellarStamp t))
      (snd (prepareTransactions JS.decimalString JS.parseDecimal
              stellarBuilds stellarBuildsFeeBump (readyBot 3) (Some 41)))
  = [(2%nat, 43); (1%nat, 43); (0%nat, 43)]
  /\ stellarAccept 41 42 = Some 42
  /\ acceptedCandidates stellarStamp stellarAccept 41
       (map Candidate
            (snd (prepareTransactions JS.decimalString JS.parseDecimal
                    stellarBuilds stellarBuildsFeeBump (readyBot 3) (Some 41))))
     = 0%nat.
Proof.
  split; [vm_compute; reflexivity |].
  destruct (prepared_candidates_share_sequence
              JS.decimalString JS.parseDecimal
              stellarBuilds stellarBuildsFeeBump (readyBot 3) 41
              ltac:(discriminate))
    as [_ [Hnext [Hnone _]]].
  split; [exact Hnext | exact Hnone].
Defined.

Lemma flood_submits_by_descending_fee_witness :
  map (fun timer => (fst timer, fee (snd timer)))
      (snd (executeFlood JS.decimalString JS.parseDecimal
              stellarBuilds stellarBuildsFeeBump (Some 41) (readyBot 3)))
  = [(0, JS.Str "10040000"); (15, JS.Str "10020000"); (30, JS.Str "1000")]
  /\ StronglySorted (bidsAtLeast JS.parseDecimal)
       (snd (prepareTransactions JS.decimalString JS.parseDecimal
               stellarBuilds stellarBuildsFeeBump (readyBot 3) (Some 41))).
Proof.
  split; [vm_compute; reflexivity |].
  apply (flood_submits_by_descending_fee
           JS.decimalString JS.parseDecimal stellarBuilds stellarBuildsFeeBump
           (readyBot 3) 41
           (snd (prepareTransactions JS.decimalString JS.parseDecimal
                   stellarBuilds stellarBuildsFeeBump (readyBot 3) (Some 41)))).
  - reflexivity.
  - vm_compute. reflexivity.
  - left. reflexivity.
  - intros t Hin. vm_compute in Hin.
    repeat (destruct Hin as [<- | Hin]; [vm_compute; discriminate |]).
    contradiction.
  - vm_compute. discriminate.
Defined.

End FloodFacts.

(** ** Waking up, skipping and escalating in the optimized sweeper *)

Module SweeperPassFacts.
Import Horizon Stellar OptimizedSweeper OptimizedSweeperLoop.
Import PredicateNotions RetryNotions PassNotions.

Lemma find_notClaimableBy (target : string) (bal : balance) :
  notClaimableBy target bal ->
  find (fun c => String.eqb (destination c) target) (claimants bal) = None.
Proof.
  unfold notClaimableBy.
  induction 1 as [| c l Hc _ IH]; simpl; [reflexivity |].
  apply String.eqb_neq in Hc. rewrite Hc. exact IH.
Qed.

(** A balance that does not name the target among its claimants is passed
    over by the optimized and by the high-performance sweeper: for the one
    its unlock time is 0 and [start] goes on to the next balance without
    waiting, loading, building or submitting anything; for the other its
    unlock time is [null] and it does not count as time locked.  The
    continuous-flood sweeper does not look at the claimants at all: when
    the sponsor account loads, the transaction builds and every submission
    fails, it makes all its [maxSubmissionAttempts] submissions for such a
    balance as for any other. *)
Theorem balance_of_other_claimants_is_skipped
        (cfg : Config) (target sponsor dest : string) (srv : server)
        (t : turn) (b : bot) :
  notClaimableBy target (turn_balance t) ->
  extractMinTime target (turn_balance t) = 0
  /\ start_balance cfg target sponsor dest srv t b = (Skipped, b)
  /\ HighPerformanceSweeper.extractUnlockTime target (turn_balance t) = None
  /\ HighPerformanceSweeper.isTimeLockedBalance target (turn_balance t) = false
  /\ (forall (cfg' : ContinuousFlood.Config) (w : ContinuousFlood.world)
             (b' : ContinuousFlood.bot),
         (forall n, ContinuousFlood.loadAccount w n <> None) ->
         (forall n, succeeded (ContinuousFlood.submit w n) = false) ->
         List.length (ContinuousFlood.submissions
           (snd (ContinuousFlood.start_balance cfg' target sponsor dest w b'
                   (turn_balance t))))
         = (List.length (ContinuousFlood.submissions b')
            + ContinuousFlood.maxSubmissionAttempts cfg')%nat).
Proof.
  intros H. apply find_notClaimableBy in H.
  unfold start_balance, start_wait, extractMinTime,
    HighPerformanceSweeper.extractUnlockTime,
    HighPerformanceSweeper.isTimeLockedBalance.
  rewrite H. repeat split.
  intros cfg' w b' Hload Hfail.
  unfold ContinuousFlood.start_balance.
  apply ClaimLoopFacts.claimLoop_all_failed; assumption.
Qed.

Lemma balance_of_other_claimants_is_skipped_witness :
  start_balance config "GOTHER" "GSPONSOR" "GDEST" (rejecting FeeTooLow)
                (quietTurn (lockedUntil "GTARGET" 1700000000) 1699999990000)
                (Bot 100000 [])
  = (Skipped, Bot 100000 [])
  /\ List.length (ContinuousFlood.submissions
       (snd (ContinuousFlood.start_balance ContinuousFlood.config
               "GOTHER" "GSPONSOR" "GDEST"
               (ClaimLoopNotions.rejectingWorld FeeTooLow)
               (ContinuousFlood.constructor ContinuousFlood.config)
               (lockedUntil "GTARGET" 1700000000))))
     = 5%nat.
Proof.
  destruct (balance_of_other_claimants_is_skipped
              config "GOTHER" "GSPONSOR" "GDEST" (rejecting FeeTooLow)
              (quietTurn (lockedUntil "GTARGET" 1700000000) 1699999990000)
              (Bot 100000 []))
    as [_ [Hskip [_ [_ Hflood]]]].
  - repeat constructor. discriminate.
  - split; [exact Hskip |].
    apply (Hflood ContinuousFlood.config
             (ClaimLoopNotions.rejectingWorld FeeTooLow)
             (ContinuousFlood.constructor ContinuousFlood.config)).
    + intros n. discriminate.
    + intros n. reflexivity.
Defined.

#[local] Arguments Z.pow : simpl never.
#[local] Arguments Z.of_nat : simpl never.

Section Escalation.
Variable cfg : Config.
Variable sponsor : string.

Lemma pow_multiplier_ge_1 (m : Z) (k : nat) : 1 <= m -> 1 <= m ^ Z.of_nat k.
Proof.
  intros Hm. rewrite <- (Z.pow_1_l (Z.of_nat k)) at 1 by lia.
  apply Z.pow_le_mono_l. lia.
Qed.

Lemma feeBumps_S (tx : transaction) (fee m : Z) (k : nat) :
  feeBumps sponsor tx fee m (S k)
  = FeeBump sponsor (fee * m) tx :: feeBumps sponsor tx (fee * m) m k.
Proof.
  unfold feeBumps. simpl. change (Z.of_nat 1) with 1. rewrite Z.pow_1_r. f_equal.
  rewrite <- seq_shift, map_map. apply map_ext. intros i.
  rewrite Nat2Z.inj_succ, Z.pow_succ_r by lia.
  f_equal. lia.
Qed.

Lemma feeBumpLoop_run (srv : server) (tx : transaction)
      (remaining attempt : nat) (b : bot) :
  let r := feeBumpLoop cfg sponsor srv tx remaining attempt b in
  exists k,
    (k <= remaining)%nat
    /\ submissions (snd r)
       = submissions b
         ++ feeBumps sponsor tx (currentFee b) (feePriorityMultiplier cfg) k
    /\ currentFee (snd r)
       = currentFee b * feePriorityMultiplier cfg ^ Z.of_nat k
    /\ (fst r = RetriesExhausted -> k = remaining)
    /\ (forall a, fst r = FeeBumpOk a -> (a + 1 = attempt + k)%nat).
Proof.
  cbv zeta. revert attempt b.
  induction remaining as [| n IH]; intros attempt b.
  - exists 0%nat. simpl. change (Z.of_nat 0) with 0.
    rewrite app_nil_r, Z.pow_0_r, Z.mul_1_r.
    repeat split; auto. discriminate.
  - simpl. destruct (srv (List.length (submissions b))) as [h | e].
    + exists 1%nat. simpl. change (Z.of_nat 1) with 1. rewrite Z.pow_1_r.
      repeat split; try lia; try discriminate.
      * unfold feeBumps. simpl. change (Z.of_nat 1) with 1.
        rewrite Z.pow_1_r. reflexivity.
      * intros a [= <-]. lia.
    + match goal with |- context [feeBumpLoop _ _ _ _ n _ ?b2] =>
        destruct (IH (S attempt) b2) as [k [Hk [Hsub [Hfee [Hex Hok]]]]]
      end.
      exists (S k). simpl in *.
      split; [lia |]. split; [| split; [| split]].
      * rewrite Hsub, feeBumps_S, <- app_assoc. reflexivity.
      * rewrite Hfee. rewrite Nat2Z.inj_succ, Z.pow_succ_r by lia. lia.
      * intros H. rewrite (Hex H). reflexivity.
      * intros a H. specialize (Hok a H). lia.
Qed.

Lemma feeBumpLoop_exit (srv : server) (tx : transaction)
      (remaining attempt : nat) (b : bot) :
  fst (feeBumpLoop cfg sponsor srv tx remaining attempt b) <> SubmittedOk.
Proof.
  revert attempt b. induction remaining as [| n IH]; intros attempt b; simpl;
    [discriminate |].
  destruct (srv (List.length (submissions b))); [discriminate | apply IH].
Qed.

Lemma submitWithRetries_trace (srv : server) (b : bot) (tx : transaction) :
  let r := submitWithRetries cfg sponsor srv b tx in
  exists k,
    (k <= maxSubmissionAttempts cfg)%nat
    /\ submissions (snd r)
       = submissions b
         ++ Plain tx
            :: feeBumps sponsor tx (currentFee b) (feePriorityMultiplier cfg) k
    /\ currentFee (snd r)
       = currentFee b * feePriorityMultiplier cfg ^ Z.of_nat k
    /\ (fst r = SubmittedOk -> k = 0%nat)
    /\ (forall a, fst r = FeeBumpOk a -> k = a)
    /\ (fst r = RetriesExhausted -> k = maxSubmissionAttempts cfg).
Proof.
  cbv zeta. unfold submitWithRetries; simpl.
  destruct (srv (List.length (submissions b))) as [h | e].
  - exists 0%nat. simpl. change (Z.of_nat 0) with 0.
    rewrite Z.pow_0_r, Z.mul_1_r.
    repeat split; auto; try lia; discriminate.
  - match goal with |- context [feeBumpLoop _ _ _ _ _ _ ?b1] =>
      destruct (feeBumpLoop_run srv tx (maxSubmissionAttempts cfg) 1 b1)
        as [k [Hk [Hsub [Hfee [Hex Hok]]]]]
    end.
    exists k. simpl in *.
    split; [exact Hk |]. split; [| split; [| split; [| split]]].
    + rewrite Hsub, <- app_assoc. reflexivity.
    + exact Hfee.
    + intros H. apply feeBumpLoop_exit in H. contradiction.
    + intros a H. specialize (Hok a H). lia.
    + exact Hex.
Qed.

Lemma feeBumpCount_app (l1 l2 : list envelope) :
  feeBumpCount (l1 ++ l2) = (feeBumpCount l1 + feeBumpCount l2)%nat.
Proof.
  induction l1 as [| [t | s f t] l1 IH]; simpl; [reflexivity | exact IH |].
  rewrite IH. reflexivity.
Qed.

Lemma feeBumpCount_feeBumps (tx : transaction) (fee m : Z) (k : nat) :
  feeBumpCount (feeBumps sponsor tx fee m k) = k.
Proof.
  revert fee. induction k as [| k IH]; intros fee; [reflexivity |].
  rewrite feeBumps_S. simpl. rewrite IH. reflexivity.
Qed.

Lemma feeBumps_fees (tx : transaction) (fee m : Z) (k : nat) :
  0 <= fee -> 1 <= m ->
  StronglySorted Z.le (map envelope_fee (feeBumps sponsor tx fee m k))
  /\ Forall (fun e => fee <= envelope_fee e <= fee * m ^ Z.of_nat k)
            (feeBumps sponsor tx fee m k).
Proof.
  intros Hfee Hm. revert fee Hfee.
  induction k as [| k IH]; intros fee Hfee.
  - split; constructor.
  - rewrite feeBumps_S.
    assert (Hstep : fee <= fee * m) by nia.
    destruct (IH (fee * m) ltac:(nia)) as [Hsorted Hall].
    rewrite Nat2Z.inj_succ, Z.pow_succ_r by lia.
    replace (fee * (m * m ^ Z.of_nat k)) with (fee * m * m ^ Z.of_nat k) by lia.
    assert (Hpow : fee * m <= fee * m * m ^ Z.of_nat k).
    { pose proof (pow_multiplier_ge_1 m k Hm). nia. }
    split.
    + simpl. constructor; [exact Hsorted |].
      rewrite Forall_map. eapply Forall_impl; [| exact Hall]. simpl. intros e He. lia.
    + constructor; [simpl; lia |].
      eapply Forall_impl; [| exact Hall]. simpl. intros e He. lia.
Qed.

Lemma feeBumps_length (tx : transaction) (fee m : Z) (k : nat) :
  List.length (feeBumps sponsor tx fee m k) = k.
Proof. unfold feeBumps. rewrite length_map, length_seq. reflexivity. Qed.

(** The answers behind a run of the fee-bump loop: every submission but
    the last was refused, and the last was accepted unless the loop ran
    out. *)
Lemma feeBumpLoop_answers (srv : server) (tx : transaction)
      (remaining attempt : nat) (b : bot) :
  let r := feeBumpLoop cfg sponsor srv tx remaining attempt b in
  let n0 := List.length (submissions b) in
  let n1 := List.length (submissions (snd r)) in
  (n0 <= n1)%nat
  /\ (forall i, (n0 <= i)%nat -> (S i < n1)%nat -> succeeded (srv i) = false)
  /\ (fst r = RetriesExhausted ->
      forall i, (n0 <= i < n1)%nat -> succeeded (srv i) = false)
  /\ (forall a, fst r = FeeBumpOk a ->
                (n0 < n1)%nat /\ succeeded (srv (n1 - 1)%nat) = true).
Proof.
  cbv zeta. revert attempt b.
  induction remaining as [| n IH]; intros attempt b.
  - cbn [feeBumpLoop fst snd]. repeat split; try lia; discriminate.
  - cbn [feeBumpLoop]. unfold submitTransaction. cbn [submissions currentFee].
    destruct (srv (List.length (submissions b))) as [h | e] eqn:Hanswer.
    + cbn [fst snd submissions]. rewrite length_app. cbn [List.length].
      repeat split; try lia; try discriminate.
      replace (List.length (submissions b) + 1 - 1)%nat
        with (List.length (submissions b)) by lia.
      rewrite Hanswer. reflexivity.
    + match goal with |- context [feeBumpLoop _ _ _ _ n _ ?b2] =>
        destruct (IH (S attempt) b2) as [Hle [Hbefore [Hall Hlast]]];
        set (r := feeBumpLoop cfg sponsor srv tx n (S attempt) b2) in *
      end.
      cbn [submissions] in Hle, Hbefore, Hall, Hlast.
      rewrite length_app in Hle, Hbefore, Hall, Hlast.
      cbn [List.length] in Hle, Hbefore, Hall, Hlast.
      assert (Hfirst : succeeded (srv (List.length (submissions b))) = false)
        by (rewrite Hanswer; reflexivity).
      split; [lia |]. split; [| split].
      * intros i Hi Hlt.
        destruct (Nat.eq_dec i (List.length (submissions b))) as [-> | Hne];
          [exact Hfirst | apply Hbefore; lia].
      * intros Hex i Hi.
        destruct (Nat.eq_dec i (List.length (submissions b))) as [-> | Hne];
          [exact Hfirst | apply Hall; [exact Hex | lia]].
      * intros a Ha. destruct (Hlast a Ha) as [Hlt Hok].
        split; [lia | exact Hok].
Qed.

Lemma submitWithRetries_answers (srv : server) (b : bot) (tx : transaction) :
  let r := submitWithRetries cfg sponsor srv b tx in
  let n0 := List.length (submissions b) in
  let n1 := List.length (submissions (snd r)) in
  (n0 < n1)%nat
  /\ (forall i, (n0 <= i)%nat -> (S i < n1)%nat -> succeeded (srv i) = false)
  /\ (fst r = RetriesExhausted ->
      forall i, (n0 <= i < n1)%nat -> succeeded (srv i) = false)
  /\ (fst r <> RetriesExhausted -> succeeded (srv (n1 - 1)%nat) = true).
Proof.
  cbv zeta. unfold submitWithRetries, submitTransaction.
  cbn [submissions currentFee].
  destruct (srv (List.length (submissions b))) as [h | e] eqn:Hanswer.
  - cbn [fst snd submissions]. rewrite length_app. cbn [List.length].
    repeat split; try lia; try discriminate.
    intros _.
    replace (List.length (submissions b) + 1 - 1)%nat
      with (List.length (submissions b)) by lia.
    rewrite Hanswer. reflexivity.
  - match goal with |- context [feeBumpLoop _ _ _ _ _ _ ?b1] =>
      destruct (feeBumpLoop_answers srv tx (maxSubmissionAttempts cfg) 1 b1)
        as [Hle [Hbefore [Hall Hlast]]];
      pose proof (feeBumpLoop_exit srv tx (maxSubmissionAttempts cfg) 1 b1)
        as Hexit;
      set (r := feeBumpLoop cfg sponsor srv tx (maxSubmissionAttempts cfg) 1 b1)
        in *
    end.
    cbn [submissions] in Hle, Hbefore, Hall, Hlast.
    rewrite length_app in Hle, Hbefore, Hall, Hlast.
    cbn [List.length] in Hle, Hbefore, Hall, Hlast.
    assert (Hfirst : succeeded (srv (List.length (submissions b))) = false)
      by (rewrite Hanswer; reflexivity).
    split; [lia |]. split; [| split].
    + intros i Hi Hlt.
      destruct (Nat.eq_dec i (List.length (submissions b))) as [-> | Hne];
        [exact Hfirst | apply Hbefore; lia].
    + intros Hex i Hi.
      destruct (Nat.eq_dec i (List.length (submissions b))) as [-> | Hne];
        [exact Hfirst | apply Hall; [exact Hex | lia]].
    + intros Hnot. destruct (fst r) as [| a |] eqn:Hr.
      * contradiction.
      * apply (Hlast a eq_refl).
      * contradiction.
Qed.

(** One run of [submitWithRetries], in full, as the answers of the server
    decide it: the candidate is submitted once as it is and then as [k] fee
    bumps, the j-th of them bidding the fee of the bot times
    [feePriorityMultiplier] to the power j, and the bot keeps the last fee;
    every submission before the last one was refused; [k] is the number of
    refusals before the first acceptance, or [maxSubmissionAttempts] when
    that is smaller, so that nothing is submitted after an acceptance; and
    the run ends on "Submitted" when its first submission is accepted, on
    "Fee-bump #k success" when the k-th fee bump is, and on "All retries
    exhausted" when the last one is refused too. *)
Theorem submitWithRetries_run (srv : server) (b : bot) (tx : transaction) :
  let r := submitWithRetries cfg sponsor srv b tx in
  let n0 := List.length (submissions b) in
  exists k,
    (k <= maxSubmissionAttempts cfg)%nat
    /\ submissions (snd r)
       = submissions b
         ++ Plain tx
            :: feeBumps sponsor tx (currentFee b) (feePriorityMultiplier cfg) k
    /\ currentFee (snd r)
       = currentFee b * feePriorityMultiplier cfg ^ Z.of_nat k
    /\ (forall j, (j < k)%nat -> succeeded (srv (n0 + j)%nat) = false)
    /\ (succeeded (srv (n0 + k)%nat) = false -> k = maxSubmissionAttempts cfg)
    /\ fst r
       = (if succeeded (srv (n0 + k)%nat)
          then match k with O => SubmittedOk | S _ => FeeBumpOk k end
          else RetriesExhausted).
Proof.
  cbv zeta.
  destruct (submitWithRetries_trace srv b tx)
    as [k [Hk [Hsub [Hfee [Hok [Hbump Hex]]]]]].
  destruct (submitWithRetries_answers srv b tx) as [Hlt [Hbefore [Hall Hlast]]].
  assert (Hn1 : List.length (submissions (snd (submitWithRetries cfg sponsor srv b tx)))
                = (List.length (submissions b) + S k)%nat).
  { rewrite Hsub, length_app. cbn [List.length]. rewrite feeBumps_length.
    reflexivity. }
  rewrite Hn1 in Hbefore, Hall, Hlast.
  replace (List.length (submissions b) + S k - 1)%nat
    with (List.length (submissions b) + k)%nat in Hlast by lia.
  exists k. split; [exact Hk |]. split; [exact Hsub |]. split; [exact Hfee |].
  split; [intros j Hj; apply Hbefore; lia |].
  destruct (fst (submitWithRetries cfg sponsor srv b tx)) as [| a |] eqn:Hr.
  - rewrite (Hlast ltac:(discriminate)).
    split; [discriminate |]. rewrite (Hok eq_refl). reflexivity.
  - rewrite (Hlast ltac:(discriminate)).
    split; [discriminate |]. rewrite (Hbump a eq_refl).
    destruct a as [| a]; [| reflexivity].
    exfalso. pose proof (Hbump 0%nat eq_refl) as Hk0. subst k.
    specialize (Hlast ltac:(discriminate)). rewrite Nat.add_0_r in Hlast.
    unfold submitWithRetries, submitTransaction in Hr.
    destruct (srv (List.length (submissions b)));
      [discriminate Hr | discriminate Hlast].
  - rewrite (Hall eq_refl (List.length (submissions b) + k)%nat ltac:(lia)).
    split; [intros _; apply Hex; reflexivity | reflexivity].
Qed.

End Escalation.

Lemma submitWithRetries_run_witness :
  exists k,
    (k <= 3)%nat
    /\ submissions (snd (submitWithRetries config "GSPONSOR" (acceptingFrom 2)
                           (Bot 100000 []) candidate))
       = [] ++ Plain candidate :: feeBumps "GSPONSOR" candidate 100000 10 k
    /\ fst (submitWithRetries config "GSPONSOR" (acceptingFrom 2)
              (Bot 100000 []) candidate)
       = FeeBumpOk 2.
Proof.
  destruct (submitWithRetries_run config "GSPONSOR" (acceptingFrom 2)
              (Bot 100000 []) candidate)
    as [k [Hk [Hsub _]]].
  exists k. split; [exact Hk | split; [exact Hsub | reflexivity]].
Defined.

Lemma StronglySorted_app {A : Type} (R : A -> A -> Prop) (l1 l2 : list A) :
  StronglySorted R l1 -> StronglySorted R l2 ->
  (forall x y, In x l1 -> In y l2 -> R x y) ->
  StronglySorted R (l1 ++ l2).
Proof.
  intros H1 H2 Hcross. induction H1 as [| x l1 Hs IH Hall]; [exact H2 |].
  simpl. constructor.
  - apply IH. intros a c Ha Hc. apply Hcross; [right |]; assumption.
  - apply Forall_app. split; [exact Hall |].
    apply Forall_forall. intros y Hy. apply Hcross; [left; reflexivity | exact Hy].
Qed.

Section Pass.
Variable cfg : Config.
Variables target sponsor dest : string.

Lemma start_balances_run (srv : server) (turns : list turn) (b : bot) :
  let b' := snd (start_balances cfg target sponsor dest srv turns b) in
  exists new,
    submissions b' = submissions b ++ new
    /\ currentFee b'
       = currentFee b * feePriorityMultiplier cfg ^ Z.of_nat (feeBumpCount new)
    /\ (0 <= currentFee b -> 1 <= feePriorityMultiplier cfg ->
        StronglySorted Z.le (map envelope_fee new)
        /\ Forall (fun e => currentFee b <= envelope_fee e <= currentFee b') new).
Proof.
  cbv zeta. revert b.
  induction turns as [| t turns IH]; intros b.
  - exists []. simpl. change (Z.of_nat 0) with 0.
    rewrite app_nil_r, Z.pow_0_r, Z.mul_1_r.
    repeat split; constructor.
  - cbn [start_balances]. unfold start_balance.
    destruct (start_wait cfg target (turn_nowMs t) (turn_balance t)); [| apply IH].
    destruct (turn_sponsorSequence t) as [sponsorSequence |].
    2:{ exists []. simpl. change (Z.of_nat 0) with 0.
        rewrite app_nil_r, Z.pow_0_r, Z.mul_1_r. repeat split; constructor. }
    destruct (turn_builds t).
    2:{ exists []. simpl. change (Z.of_nat 0) with 0.
        rewrite app_nil_r, Z.pow_0_r, Z.mul_1_r. repeat split; constructor. }
    destruct (turn_ledger t).
    2:{ exists []. simpl. change (Z.of_nat 0) with 0.
        rewrite app_nil_r, Z.pow_0_r, Z.mul_1_r. repeat split; constructor. }
    set (tx := buildAndSign cfg target sponsor dest b (turn_balance t)
                 (Account sponsor sponsorSequence)).
    destruct (submitWithRetries_trace cfg sponsor srv b tx)
      as [k [_ [Hsub [Hfee _]]]].
    replace (let (e, b') := submitWithRetries cfg sponsor srv b tx in
             (Handled q tx e, b'))
      with (Handled q tx (fst (submitWithRetries cfg sponsor srv b tx)),
            snd (submitWithRetries cfg sponsor srv b tx))
      by (destruct (submitWithRetries cfg sponsor srv b tx); reflexivity).
    set (b1 := snd (submitWithRetries cfg sponsor srv b tx)) in *.
    destruct (IH b1) as [new [Hsub' [Hfee' Hsorted']]].
    set (b' := snd (start_balances cfg target sponsor dest srv turns b1)) in *.
    set (m := feePriorityMultiplier cfg) in *.
    exists ((Plain tx :: feeBumps sponsor tx (currentFee b) m k) ++ new).
    split; [| split].
    + rewrite Hsub', Hsub, <- app_assoc. reflexivity.
    + rewrite Hfee', Hfee, feeBumpCount_app. simpl.
      rewrite feeBumpCount_feeBumps, Nat2Z.inj_add, Z.pow_add_r by lia. lia.
    + intros H0 Hm.
      destruct (feeBumps_fees sponsor tx (currentFee b) m k H0 Hm) as [Hs Ha].
      assert (H1 : 0 <= currentFee b1).
      { rewrite Hfee. apply Z.mul_nonneg_nonneg; [exact H0 |].
        apply Z.pow_nonneg. lia. }
      destruct (Hsorted' H1 Hm) as [Hs' Ha'].
      assert (Hgrow : currentFee b <= currentFee b1).
      { rewrite Hfee. pose proof (pow_multiplier_ge_1 m k Hm). nia. }
      assert (Hgrow' : currentFee b1 <= currentFee b').
      { rewrite Hfee'. pose proof (pow_multiplier_ge_1 m (feeBumpCount new) Hm).
        nia. }
      rewrite <- Hfee in Ha.
      split.
      * rewrite map_app. apply StronglySorted_app.
        -- simpl. constructor; [exact Hs |].
           rewrite Forall_map. eapply Forall_impl; [| exact Ha].
           simpl. intros e He. lia.
        -- exact Hs'.
        -- intros x y Hx Hy.
           apply in_map_iff in Hy. destruct Hy as [ey [<- Hey]].
           rewrite Forall_forall in Ha'. specialize (Ha' ey Hey).
           destruct Hx as [<- | Hx]; [simpl; lia |].
           apply in_map_iff in Hx. destruct Hx as [ex [<- Hex]].
           rewrite Forall_forall in Ha. specialize (Ha ex Hex). lia.
      * apply Forall_app. split.
        -- constructor; [simpl; lia |].
           eapply Forall_impl; [| exact Ha]. simpl. intros e He. lia.
        -- eapply Forall_impl; [| exact Ha']. simpl. intros e He. lia.
Qed.

(** Within one pass of [start] the fee is set once, to 7 times the
    multiplied percentile, and never reset: every fee bump, for whichever
    balance, multiplies it for all that follows, so that the pass ends on
    that fee times [feePriorityMultiplier] to the number of fee bumps
    made; for a percentile that is not negative and a multiplier of at
    least 1 the bids of the whole pass never decrease. *)
Theorem start_pass_compounds_fee (srv : server) (p99 : Z) (turns : list turn) (b : bot) :
  let b' := snd (start_pass cfg target sponsor dest srv (Some p99) turns b) in
  let fee := p99 * feePriorityMultiplier cfg * 7 in
  exists new,
    submissions b' = submissions b ++ new
    /\ currentFee b' = fee * feePriorityMultiplier cfg ^ Z.of_nat (feeBumpCount new)
    /\ (0 <= p99 -> 1 <= feePriorityMultiplier cfg ->
        StronglySorted Z.le (map envelope_fee new)
        /\ Forall (fun e => fee <= envelope_fee e <= currentFee b') new).
Proof.
  cbv zeta. unfold start_pass.
  destruct turns as [| t turns].
  - exists []. simpl. change (Z.of_nat 0) with 0.
    rewrite app_nil_r, Z.pow_0_r, Z.mul_1_r. repeat split; constructor.
  - destruct (start_balances_run srv (t :: turns) (updateFeeStats cfg p99 b))
      as [new [Hsub [Hfee Hsorted]]].
    exists new. split; [exact Hsub | split; [exact Hfee |]].
    intros Hp Hm. apply Hsorted; [simpl; nia | exact Hm].
Qed.

End Pass.

Lemma start_pass_compounds_fee_witness :
  map envelope_fee
      (submissions
         (snd (start_pass config "GTARGET" "GSPONSOR" "GDEST" (rejecting FeeTooLow)
                 (Some 100)
                 [ quietTurn (lockedUntil "GTARGET" 1700000000) 1699999990000;
                   quietTurn (lockedUntil "GTARGET" 1700000100) 1700000001000 ]
                 (Bot 0 []))))
  = [7000; 70000; 700000; 7000000;
     7000000; 70000000; 700000000; 7000000000]
  /\ exists new,
       submissions
         (snd (start_pass config "GTARGET" "GSPONSOR" "GDEST" (rejecting FeeTooLow)
                 (Some 100)
                 [ quietTurn (lockedUntil "GTARGET" 1700000000) 1699999990000;
                   quietTurn (lockedUntil "GTARGET" 1700000100) 1700000001000 ]
                 (Bot 0 [])))
       = [] ++ new
       /\ StronglySorted Z.le (map envelope_fee new).
Proof.
  split; [vm_compute; reflexivity |].
  destruct (start_pass_compounds_fee config "GTARGET" "GSPONSOR" "GDEST"
              (rejecting FeeTooLow) 100
              [ quietTurn (lockedUntil "GTARGET" 1700000000) 1699999990000;
                quietTurn (lockedUntil "GTARGET" 1700000100) 1700000001000 ]
              (Bot 0 []))
    as [new [Hsub [_ Hsorted]]].
  exists new. split; [exact Hsub |].
  apply Hsorted; [lia | simpl; lia].
Defined.

End SweeperPassFacts.

(** ** Fees and duplicates of the continuous-flood sweeper *)

Module FloodPassFacts.
Import Horizon Stellar ContinuousFlood ContinuousFloodLoop.
Import PredicateNotions ClaimLoopNotions.

Section Pass.
Variable cfg : Config.
Variables target sponsor dest : string.

Lemma updateFeeStats_bounds (p80 : Z) (b : bot) :
  baseFee cfg <= maxFee cfg ->
  baseFee cfg <= currentFee (updateFeeStats cfg p80 b) <= maxFee cfg.
Proof.
  intros Hcfg. unfold updateFeeStats; simpl. split; [| apply Z.le_min_r].
  apply Z.min_glb; [| exact Hcfg].
  rewrite Zle_Qle.
  eapply Qle_trans; [| apply ClaimLoopFacts.ceilTo100_above].
  apply Q.le_max_r.
Qed.

Lemma claimLoop_bids_between (w : world) (balanceId amount : string)
      (remaining : nat) (b : bot) :
  (1 <= feePriorityMultiplier cfg)%Q ->
  0 <= currentFee b <= maxFee cfg ->
  let b' := snd (claimLoop cfg target sponsor dest w balanceId amount remaining b) in
  currentFee b <= currentFee b' <= maxFee cfg
  /\ exists fees,
       claimBids b' = claimBids b ++ fees
       /\ StronglySorted Z.le fees
       /\ Forall (fun f => currentFee b <= f <= currentFee b') fees.
Proof.
  intros Hm. cbv zeta. revert b.
  induction remaining as [| n IH]; intros b Hb; simpl.
  - split; [lia |]. exists []. rewrite app_nil_r. repeat constructor.
  - unfold buildTxForBalance.
    destruct (loadAccount w (accountLoads b)) as [s |]; simpl.
    + destruct (submit w (List.length (submissions b))) as [h | e]; simpl.
      * split; [lia |]. exists [currentFee b].
        unfold claimBids; simpl. rewrite map_app. simpl.
        repeat constructor; lia.
      * match goal with |- context [claimLoop _ _ _ _ _ _ _ n (bumpFee cfg ?b2)] =>
          pose proof (ClaimLoopFacts.bumpFee_bounds cfg b2 Hm Hb) as Hbump;
          destruct (IH (bumpFee cfg b2)) as [Hfee [fees [Hbids [Hsorted Hall]]]];
          [simpl in *; lia |]
        end.
        simpl in *. split; [lia |].
        exists (currentFee b :: fees). split; [| split].
        -- rewrite Hbids. unfold claimBids; simpl. rewrite map_app, <- app_assoc.
           reflexivity.
        -- constructor; [exact Hsorted |].
           eapply Forall_impl; [| exact Hall]. simpl. intros f Hf. lia.
        -- constructor; [lia |].
           eapply Forall_impl; [| exact Hall]. simpl. intros f Hf. lia.
    + match goal with |- context [claimLoop _ _ _ _ _ _ _ n (bumpFee cfg ?b1)] =>
        pose proof (ClaimLoopFacts.bumpFee_bounds cfg b1 Hm Hb) as Hbump;
        destruct (IH (bumpFee cfg b1)) as [Hfee [fees [Hbids [Hsorted Hall]]]];
        [simpl in *; lia |]
      end.
      simpl in *. split; [lia |].
      exists fees. split; [exact Hbids | split; [exact Hsorted |]].
      eapply Forall_impl; [| exact Hall]. simpl. intros f Hf. lia.
Qed.

Lemma start_balances_bids (w : world) (balances : list balance) (b : bot) :
  (1 <= feePriorityMultiplier cfg)%Q ->
  0 <= currentFee b <= maxFee cfg ->
  let b' := start_balances cfg target sponsor dest w balances b in
  currentFee b <= currentFee b' <= maxFee cfg
  /\ exists fees,
       claimBids b' = claimBids b ++ fees
       /\ StronglySorted Z.le fees
       /\ Forall (fun f => currentFee b <= f <= currentFee b') fees.
Proof.
  intros Hm. cbv zeta. revert b.
  induction balances as [| bal balances IH]; intros b Hb.
  - simpl. split; [lia |]. exists []. rewrite app_nil_r. repeat constructor.
  - cbn [start_balances]. unfold start_balance.
    destruct (claimLoop_bids_between w (id bal) (amount bal)
                (maxSubmissionAttempts cfg) b Hm Hb)
      as [Hfee [fees [Hbids [Hsorted Hall]]]].
    set (b1 := snd (claimLoop cfg target sponsor dest w (id bal) (amount bal)
                      (maxSubmissionAttempts cfg) b)) in *.
    destruct (IH b1 ltac:(lia)) as [Hfee' [fees' [Hbids' [Hsorted' Hall']]]].
    set (b' := start_balances cfg target sponsor dest w balances b1) in *.
    split; [lia |].
    exists (fees ++ fees'). split; [| split].
    + rewrite Hbids', Hbids, <- app_assoc. reflexivity.
    + apply SweeperPassFacts.StronglySorted_app; [exact Hsorted | exact Hsorted' |].
      intros x y Hx Hy.
      rewrite Forall_forall in Hall, Hall'.
      specialize (Hall x Hx). specialize (Hall' y Hy). lia.
    + apply Forall_app. split.
      * eapply Forall_impl; [| exact Hall]. simpl. intros f Hf. lia.
      * eapply Forall_impl; [| exact Hall']. simpl. intros f Hf. lia.
Qed.

(** Whatever the percentile and however the submissions fare, the bids of
    one pass of [start], over all its balances, never decrease and lie
    between [baseFee] and [maxFee], as the fee of the bot does at the end
    of the pass; the configuration needs a floor that is not negative and
    not above the ceiling, and a multiplier of at least 1. *)
Theorem start_pass_bids_within_bounds
        (w : world) (p80 : Z) (balances : list balance) (b : bot) :
  0 <= baseFee cfg <= maxFee cfg ->
  (1 <= feePriorityMultiplier cfg)%Q ->
  let b' := start_pass cfg target sponsor dest w p80 balances b in
  baseFee cfg <= currentFee b' <= maxFee cfg
  /\ exists fees,
       claimBids b' = claimBids b ++ fees
       /\ StronglySorted Z.le fees
       /\ Forall (fun f => baseFee cfg <= f <= maxFee cfg) fees.
Proof.
  intros Hcfg Hm. cbv zeta. unfold start_pass.
  pose proof (updateFeeStats_bounds p80 b ltac:(lia)) as Hfee.
  destruct (start_balances_bids w balances (updateFeeStats cfg p80 b) Hm ltac:(lia))
    as [Hfee' [fees [Hbids [Hsorted Hall]]]].
  split; [lia |].
  exists fees. split; [exact Hbids | split; [exact Hsorted |]].
  eapply Forall_impl; [| exact Hall]. cbv beta. intros f Hf. lia.
Qed.

Lemma floodDuplicates_nth (tx : transaction) (i : nat) :
  nth_error (floodDuplicates cfg tx) i
  = if (i <? floodCount cfg)%nat
    then Some (Z.of_nat i * floodInterval cfg, tx)
    else None.
Proof.
  unfold floodDuplicates. rewrite nth_error_map.
  destruct (i <? floodCount cfg)%nat eqn:Hi.
  - apply Nat.ltb_lt in Hi. rewrite nth_error_seq.
    apply Nat.ltb_lt in Hi. rewrite Hi. reflexivity.
  - rewrite nth_error_seq, Hi. reflexivity.
Qed.

Lemma claimLoop_floods_steps (w : world) (balanceId amount : string)
      (remaining : nat) (b : bot) :
  let r := claimLoop cfg target sponsor dest w balanceId amount remaining b in
  (fst r = true ->
   exists old tx,
     submissions (snd r) = old ++ [tx]
     /\ succeeded (submit w (List.length old)) = true
     /\ tx_fee tx = currentFee (snd r)
     /\ floods (snd r) = floods b ++ floodDuplicates cfg tx)
  /\ (fst r = false -> floods (snd r) = floods b).
Proof.
  cbv zeta. revert b. induction remaining as [| n IH]; intros b; simpl.
  - split; [discriminate | reflexivity].
  - unfold buildTxForBalance.
    destruct (loadAccount w (accountLoads b)) as [s |]; simpl.
    + destruct (submit w (List.length (submissions b))) as [h | e] eqn:Hsub; simpl.
      * split; [| discriminate]. intros _.
        eexists (submissions b), _. repeat split. rewrite Hsub. reflexivity.
      * match goal with |- context [claimLoop _ _ _ _ _ _ _ n ?b2] =>
          destruct (IH b2) as [Hok Hfail] end.
        split; [exact Hok | exact Hfail].
    + match goal with |- context [claimLoop _ _ _ _ _ _ _ n ?b2] =>
        destruct (IH b2) as [Hok Hfail] end.
      split; [exact Hok | exact Hfail].
Qed.

(** Duplicates are left to timers exactly when the claim loop leaves on a
    success: they are [floodCount] copies of the transaction just accepted,
    the last one submitted, at the fee the bot still holds, copy [i] after
    [i * floodInterval] milliseconds; a loop that runs out of attempts
    schedules nothing. *)
Theorem claimLoop_floods_accepted_transaction
        (w : world) (balanceId amount : string) (remaining : nat) (b : bot) :
  let r := claimLoop cfg target sponsor dest w balanceId amount remaining b in
  (fst r = true ->
   exists old tx,
     submissions (snd r) = old ++ [tx]
     /\ succeeded (submit w (List.length old)) = true
     /\ tx_fee tx = currentFee (snd r)
     /\ floods (snd r) = floods b ++ floodDuplicates cfg tx
     /\ List.length (floodDuplicates cfg tx) = floodCount cfg
     /\ forall i, (i < floodCount cfg)%nat ->
          nth_error (floodDuplicates cfg tx) i
          = Some (Z.of_nat i * floodInterval cfg, tx))
  /\ (fst r = false -> floods (snd r) = floods b).
Proof.
  cbv zeta.
  destruct (claimLoop_floods_steps w balanceId amount remaining b) as [Hok Hfail].
  split; [| exact Hfail].
  intros H. destruct (Hok H) as [old [tx [Hsub [Hacc [Hfee Hfl]]]]].
  exists old, tx. repeat split; try assumption.
  - unfold floodDuplicates. rewrite length_map, length_seq. reflexivity.
  - intros i Hi. rewrite floodDuplicates_nth.
    apply Nat.ltb_lt in Hi. rewrite Hi. reflexivity.
Qed.

End Pass.

Lemma claimLoop_floods_accepted_transaction_witness :
  map fst (floods (snd (claimLoop config "GTARGET" "GSPONSOR" "GDEST"
                          (acceptingThird 41) "00000000ab" "837.8" 5
                          (constructor config))))
  = [0; 200; 400]
  /\ exists old tx,
       submissions (snd (claimLoop config "GTARGET" "GSPONSOR" "GDEST"
                           (acceptingThird 41) "00000000ab" "837.8" 5
                           (constructor config)))
       = old ++ [tx]
       /\ tx_fee tx = 400000.
Proof.
  split; [vm_compute; reflexivity |].
  destruct (proj1 (claimLoop_floods_accepted_transaction
                     config "GTARGET" "GSPONSOR" "GDEST"
                     (acceptingThird 41) "00000000ab" "837.8" 5
                     (constructor config)) eq_refl)
    as [old [tx [Hsub [_ [Hfee _]]]]].
  exists old, tx. split; [exact Hsub | exact Hfee].
Defined.

Lemma start_pass_bids_within_bounds_witness :
  claimBids (start_pass config "GTARGET" "GSPONSOR" "GDEST"
               (rejectingWorld FeeTooLow) 30000
               [ lockedUntil "GTARGET" 1700000000;
                 lockedUntil "GTARGET" 1700000100 ]
               (constructor config))
  = [100000; 200000; 400000; 800000; 1000000;
     1000000; 1000000; 1000000; 1000000; 1000000]
  /\ exists fees,
       claimBids (start_pass config "GTARGET" "GSPONSOR" "GDEST"
                    (rejectingWorld FeeTooLow) 30000
                    [ lockedUntil "GTARGET" 1700000000;
                      lockedUntil "GTARGET" 1700000100 ]
                    (constructor config))
       = claimBids (constructor config) ++ fees
       /\ StronglySorted Z.le fees
       /\ Forall (fun f => 100000 <= f <= 1000000) fees.
Proof.
  split; [vm_compute; reflexivity |].
  apply (start_pass_bids_within_bounds config "GTARGET" "GSPONSOR" "GDEST"
           (rejectingWorld FeeTooLow) 30000
           [ lockedUntil "GTARGET" 1700000000; lockedUntil "GTARGET" 1700000100 ]
           (constructor config)).
  - simpl. lia.
  - vm_compute. discriminate.
Defined.

End FloodPassFacts.

(** ** Detection of the balance to claim in the high-performance sweeper *)

Module DetectionFacts.
Import Horizon HighPerformanceSweeper PredicateNotions PassNotions.

Lemma anyChild_In (visit : predicate -> bool) (subs : list predicate) (q : predicate) :
  In q subs -> visit q = true -> anyChild visit subs = true.
Proof.
  induction subs as [| x subs IH]; simpl; [contradiction |].
  intros [<- | Hin] Hq; [rewrite Hq; reflexivity |].
  destruct (visit x); [reflexivity | apply IH; assumption].
Qed.

Lemma found_time_is_time_based (p : predicate) (t : Z) :
  findUnlockTimeInPredicate p = Some t -> hasTimeBasedPredicate p = true.
Proof.
  revert t.
  induction p as [after iso epoch negated conjuncts disjuncts _ Hc Hd]
    using predicate_induction.
  intros t Hfind. simpl.
  destruct iso; [reflexivity |].
  destruct negated; [reflexivity |].
  destruct epoch; [reflexivity |].
  simpl in Hfind.
  destruct conjuncts as [subs |].
  - destruct (firstTime findUnlockTimeInPredicate subs) as [t' |] eqn:Hsubs.
    + apply PredicateFacts.firstTime_found in Hsubs.
      destruct Hsubs as [q [Hin [Hq _]]].
      specialize (Hc subs eq_refl). rewrite Forall_forall in Hc.
      rewrite (anyChild_In _ subs q Hin (Hc q Hin t' Hq)). reflexivity.
    + destruct (anyChild hasTimeBasedPredicate subs); [reflexivity |].
      destruct disjuncts as [subs' |]; [| discriminate].
      apply PredicateFacts.firstTime_found in Hfind.
      destruct Hfind as [q [Hin [Hq _]]].
      specialize (Hd subs' eq_refl). rewrite Forall_forall in Hd.
      exact (anyChild_In _ subs' q Hin (Hd q Hin t Hq)).
  - destruct disjuncts as [subs' |]; [| discriminate].
    apply PredicateFacts.firstTime_found in Hfind.
    destruct Hfind as [q [Hin [Hq _]]].
    specialize (Hd subs' eq_refl). rewrite Forall_forall in Hd.
    exact (anyChild_In _ subs' q Hin (Hd q Hin t Hq)).
Qed.

Lemma unlock_time_passes_gate (target : string) (bal : balance) (t : Z) :
  extractUnlockTime target bal = Some t ->
  isTimeLockedBalance target bal = true.
Proof.
  unfold extractUnlockTime, isTimeLockedBalance.
  destruct (find _ (claimants bal)) as [[d [p |]] |]; try discriminate.
  apply found_time_is_time_based.
Qed.

(** The gate of [detectClaimableBalances] never hides an unlock time:
    whenever [extractUnlockTime] finds a time in the predicate of a
    balance, at whatever depth, [isTimeLockedBalance] holds of it. *)
Theorem unlock_time_implies_time_locked (target : string) (bal : balance) (t : Z) :
  extractUnlockTime target bal = Some t ->
  isTimeLockedBalance target bal = true.
Proof. apply unlock_time_passes_gate. Qed.

Lemma unlock_time_implies_time_locked_witness :
  isTimeLockedBalance "GTARGET"
    {| id := "00000000cd"; amount := "12.5";
       claimants :=
         [ {| destination := "GTARGET";
              claim_predicate :=
                Some (anyOf [allOf []; allOf [anyOf [before 300]]]) |} ] |}
  = true.
Proof.
  apply (unlock_time_implies_time_locked "GTARGET" _ 300000).
  reflexivity.
Defined.

Lemma unresolved_or_first_resolvable (target : string) (records : list balance) :
  Forall (unresolvedBalance target) records
  \/ exists pre bal post t,
       records = pre ++ bal :: post
       /\ Forall (unresolvedBalance target) pre
       /\ extractUnlockTime target bal = Some t /\ t <> 0.
Proof.
  induction records as [| bal records IH]; [left; constructor |].
  destruct (extractUnlockTime target bal) as [t |] eqn:Hext.
  - destruct (Z.eq_dec t 0) as [-> | Hne].
    + destruct IH as [Hall | [pre [bal0 [post [t [-> [Hpre Hrest]]]]]]].
      * left. constructor; [right; exact Hext | exact Hall].
      * right. exists (bal :: pre), bal0, post, t.
        split; [reflexivity |].
        split; [constructor; [right; exact Hext | exact Hpre] | exact Hrest].
    + right. exists [], bal, records, t. repeat split; auto.
  - destruct IH as [Hall | [pre [bal0 [post [t [-> [Hpre Hrest]]]]]]].
    + left. constructor; [left; exact Hext | exact Hall].
    + right. exists (bal :: pre), bal0, post, t.
      split; [reflexivity |].
      split; [constructor; [left; exact Hext | exact Hpre] | exact Hrest].
Qed.

Lemma detectClaimableBalances_unresolved
      (target : string) (nowMs : Z) (currentLedgerNum : option Z)
      (bal : balance) (records : list balance) (u : unlockData) :
  unresolvedBalance target bal ->
  exists u1,
    detectClaimableBalances target nowMs currentLedgerNum (bal :: records) u
    = detectClaimableBalances target nowMs currentLedgerNum records u1
    /\ unlockTime u1 = unlockTime u
    /\ unlockBlock u1 = unlockBlock u.
Proof.
  intros Hbal. cbn [detectClaimableBalances].
  destruct (isTimeLockedBalance target bal).
  - destruct Hbal as [Hext | Hext]; rewrite Hext; cbn [JS.truthy Z.eqb negb];
      eexists; (split; [reflexivity | split; reflexivity]).
  - exists u. repeat split.
Qed.

Lemma detectClaimableBalances_none
      (target : string) (nowMs : Z) (currentLedgerNum : option Z)
      (records : list balance) (u : unlockData) :
  Forall (unresolvedBalance target) records ->
  let r := detectClaimableBalances target nowMs currentLedgerNum records u in
  fst r = false
  /\ unlockTime (snd r) = unlockTime u
  /\ unlockBlock (snd r) = unlockBlock u.
Proof.
  cbv zeta. intros Hall. revert u.
  induction Hall as [| bal records Hbal _ IH]; intros u;
    [repeat split |].
  destruct (detectClaimableBalances_unresolved target nowMs currentLedgerNum
              bal records u Hbal) as [u1 [-> [Ht Hb]]].
  rewrite <- Ht, <- Hb. apply IH.
Qed.

Lemma detectClaimableBalances_settles
      (target : string) (nowMs : Z) (currentLedgerNum : option Z)
      (pre : list balance) (bal : balance) (post : list balance) (t : Z)
      (u : unlockData) :
  Forall (unresolvedBalance target) pre ->
  extractUnlockTime target bal = Some t ->
  t <> 0 ->
  let r := detectClaimableBalances target nowMs currentLedgerNum
             (pre ++ bal :: post) u in
  unlockTime (snd r) = Some t
  /\ claimableBalance (snd r) = Some bal
  /\ claimableBalanceId (snd r) = Some (id bal)
  /\ match currentLedgerNum with
     | Some n =>
         fst r = true
         /\ unlockBlock (snd r)
            = Some (n + Qceiling (inject_Z (t - nowMs) / 5000))
     | None => fst r = false /\ unlockBlock (snd r) = unlockBlock u
     end.
Proof.
  cbv zeta. intros Hpre Hext Hne. revert u.
  induction Hpre as [| bal0 pre Hbal0 _ IH]; intros u.
  - cbn [app detectClaimableBalances].
    rewrite (unlock_time_passes_gate target bal t Hext), Hext.
    apply Z.eqb_neq in Hne. unfold JS.truthy. rewrite Hne. cbn [negb].
    destruct currentLedgerNum; repeat split.
  - cbn [app].
    destruct (detectClaimableBalances_unresolved target nowMs currentLedgerNum
                bal0 (pre ++ bal :: post) u Hbal0) as [u1 [-> [_ Hb]]].
    rewrite <- Hb. apply IH.
Qed.

(** [detectClaimableBalances] settles on the first balance of the list for
    which [extractUnlockTime] gives a non-zero time.  When there is none,
    it reports failure and leaves the unlock time and block as they were.
    When there is one, it records that balance, its id and that time; if
    the latest ledger is then obtained, it reports success and records as
    unlock block that ledger plus the number of 5-second blocks until the
    unlock time, rounded up; if asking for the ledger throws, it reports
    failure, with the unlock time already recorded and the unlock block
    left as it was. *)
Theorem detectClaimableBalances_first_resolvable
        (target : string) (nowMs : Z) (currentLedgerNum : option Z)
        (records : list balance) (u : unlockData) :
  let r := detectClaimableBalances target nowMs currentLedgerNum records u in
  (Forall (unresolvedBalance target) records
   /\ fst r = false
   /\ unlockTime (snd r) = unlockTime u
   /\ unlockBlock (snd r) = unlockBlock u)
  \/ (exists pre bal post t,
         records = pre ++ bal :: post
         /\ Forall (unresolvedBalance target) pre
         /\ extractUnlockTime target bal = Some t /\ t <> 0
         /\ unlockTime (snd r) = Some t
         /\ claimableBalance (snd r) = Some bal
         /\ claimableBalanceId (snd r) = Some (id bal)
         /\ match currentLedgerNum with
            | Some n =>
                fst r = true
                /\ unlockBlock (snd r)
                   = Some (n + Qceiling (inject_Z (t - nowMs) / 5000))
            | None => fst r = false /\ unlockBlock (snd r) = unlockBlock u
            end).
Proof.
  cbv zeta.
  destruct (unresolved_or_first_resolvable target records)
    as [Hall | [pre [bal [post [t [-> [Hpre [Hext Hne]]]]]]]].
  - left. split; [exact Hall |].
    apply detectClaimableBalances_none, Hall.
  - right. exists pre, bal, post, t.
    split; [reflexivity |]. split; [exact Hpre |].
    split; [exact Hext |]. split; [exact Hne |].
    apply detectClaimableBalances_settles; assumption.
Qed.

End DetectionFacts.

(** ** Passes and broadcasts of the high-performance sweeper *)

Module BroadcastFacts.
Import Horizon HighPerformanceSweeper AttemptNotions.

#[local] Arguments Nat.max : simpl never.

Section Passes.
Variable cfg : Config.

(** A call that only prepares never submits: it leaves the broadcasts, the
    attempts and the submitted and confirmed flags as they were and never
    reports success; and once it has built the transaction, every further
    preparing call returns at once, changing nothing. *)
Theorem prepare_only_never_broadcasts (w : world) (b : bot) :
  let r := prepareAndSubmitTransaction cfg w true b in
  broadcasts (snd r) = broadcasts b
  /\ attempts (status (snd r)) = attempts (status b)
  /\ submitted (status (snd r)) = submitted (status b)
  /\ confirmed (status (snd r)) = confirmed (status b)
  /\ fst r <> Some true
  /\ (submitted (status b) = false -> builds w (passes b) = true ->
      preparing (status (snd r)) = true
      /\ forall w', prepareAndSubmitTransaction cfg w' true (snd r) = (None, snd r)).
Proof.
  cbv zeta. rewrite prepareAndSubmitTransaction_equation_1.
  destruct (submitted (status b)) eqn:Hsub.
  { split; [| split; [| split; [| split; [| split]]]];
      try reflexivity; try discriminate. simpl. exact Hsub. }
  cbn [andb].
  destruct (preparing (status b)) eqn:Hprep.
  { split; [| split; [| split; [| split; [| split]]]];
      try reflexivity; try discriminate; try (simpl; assumption).
    intros _ _. split; [exact Hprep |].
    intros w'. rewrite prepareAndSubmitTransaction_equation_1.
    cbn [snd]. rewrite Hsub, Hprep. reflexivity. }
  cbv zeta. destruct (builds w (passes b)) eqn:Hbuilt; cbn [negb].
  - split; [| split; [| split; [| split; [| split]]]];
      try reflexivity; try discriminate; try (simpl; assumption).
    intros _ _. split; [reflexivity |].
    intros w'. rewrite prepareAndSubmitTransaction_equation_1.
    cbn [snd status submitted preparing]. rewrite Hsub. reflexivity.
  - split; [| split; [| split; [| split; [| split]]]];
      try reflexivity; try discriminate; try (simpl; assumption).
Qed.

End Passes.

Lemma prepare_only_never_broadcasts_witness :
  preparing (status (snd (prepareAndSubmitTransaction config
                            (rejectingClients FeeTooLow) true
                            (constructor config))))
  = true
  /\ forall w',
       prepareAndSubmitTransaction config w' true
         (snd (prepareAndSubmitTransaction config (rejectingClients FeeTooLow)
                 true (constructor config)))
       = (None,
          snd (prepareAndSubmitTransaction config (rejectingClients FeeTooLow)
                 true (constructor config))).
Proof.
  apply (proj2 (proj2 (proj2 (proj2 (proj2
           (prepare_only_never_broadcasts config (rejectingClients FeeTooLow)
              (constructor config))))))).
  - reflexivity.
  - reflexivity.
Defined.

Section Traces.
Variable cfg : Config.
Variable w : world.

Lemma prepareAndSubmitTransaction_trace (prepareOnly : bool) (b : bot) :
  let r := prepareAndSubmitTransaction cfg w prepareOnly b in
  exists new,
    broadcasts (snd r) = broadcasts b ++ new
    /\ (attempts (status (snd r)) = attempts (status b) + List.length new)%nat
    /\ Forall (fun br => broadcast_clients br = List.length (horizonUrls cfg)) new
    /\ (passes b <= passes (snd r))%nat
    /\ (fst r = Some true ->
        new <> []
        /\ confirmed (status (snd r)) = true
        /\ submitted (status (snd r)) = true).
Proof.
  cbv zeta.
  remember (maxSubmissionAttempts cfg - attempts (status b))%nat as m eqn:Hm.
  revert prepareOnly b Hm.
  induction m as [m IH] using lt_wf_ind. intros prepareOnly b Hm.
  rewrite prepareAndSubmitTransaction_equation_1.
  destruct (submitted (status b)).
  { exists []. simpl. rewrite app_nil_r. repeat split; auto; try lia; discriminate. }
  destruct (prepareOnly && preparing (status b)).
  { exists []. simpl. rewrite app_nil_r. repeat split; auto; try lia; discriminate. }
  cbv zeta.
  destruct (negb (builds w (passes b))).
  { exists []. simpl. rewrite app_nil_r. repeat split; auto; try lia; discriminate. }
  destruct prepareOnly.
  { exists []. simpl. rewrite app_nil_r. repeat split; auto; try lia; discriminate. }
  destruct (existsb succeeded (results cfg w (passes b))).
  { eexists [_]. simpl. repeat split; auto; try lia; discriminate. }
  destruct (lt_dec _ _) as [Hlt | Hge].
  - cbv zeta.
    match goal with |- context [prepareAndSubmitTransaction cfg w false ?b4] =>
      assert (Hless : (maxSubmissionAttempts cfg - attempts (status b4) < m)%nat)
        by (simpl in *; lia);
      destruct (IH _ Hless false b4 eq_refl) as [new [Hb [Ha [Hc [Hp Hok]]]]]
    end.
    eexists (_ :: new). split; [| split; [| split; [| split]]].
    + rewrite Hb. simpl. rewrite <- app_assoc. reflexivity.
    + rewrite Ha. simpl. lia.
    + constructor; [reflexivity | exact Hc].
    + eapply Nat.le_trans; [| exact Hp]. simpl. lia.
    + intros H. destruct (Hok H) as [_ [Hconf Hsub]].
      split; [discriminate | split; assumption].
  - eexists [_]. simpl. repeat split; auto; try lia; discriminate.
Qed.

(** The attempts counter counts the broadcasts: whatever a call of
    [prepareAndSubmitTransaction] does, it appends to the broadcasts made
    before exactly as many as it adds to [attempts], each of them to every
    configured Horizon client; and it reports success only after at least
    one broadcast, with the confirmed and submitted flags set. *)
Theorem attempts_count_broadcasts (prepareOnly : bool) (b : bot) :
  let r := prepareAndSubmitTransaction cfg w prepareOnly b in
  exists new,
    broadcasts (snd r) = broadcasts b ++ new
    /\ (attempts (status (snd r)) = attempts (status b) + List.length new)%nat
    /\ Forall (fun br => broadcast_clients br = List.length (horizonUrls cfg)) new
    /\ (passes b <= passes (snd r))%nat
    /\ (fst r = Some true ->
        new <> []
        /\ confirmed (status (snd r)) = true
        /\ submitted (status (snd r)) = true).
Proof. apply prepareAndSubmitTransaction_trace. Qed.

Lemma updateNetworkFees_ignores_fee (s : feeStats) (fee fee' : Z) :
  updateNetworkFees cfg (Some s) fee = updateNetworkFees cfg (Some s) fee'.
Proof. reflexivity. Qed.

(** While the fee statistics can be read, the fee raised after a failed
    broadcast is never used: the next pass overwrites it with the quote of
    the statistics, so that under unchanged statistics every broadcast of a
    call, however many retries it makes, bids the same fee. *)
Theorem retries_bid_the_quote_of_the_statistics
        (s : feeStats) (prepareOnly : bool) (b : bot) :
  (forall n, refresh w n = Some s) ->
  let r := prepareAndSubmitTransaction cfg w prepareOnly b in
  exists new,
    broadcasts (snd r) = broadcasts b ++ new
    /\ Forall (fun br => broadcast_fee br = updateNetworkFees cfg (Some s) 0) new.
Proof.
  intros Hstats. cbv zeta.
  remember (maxSubmissionAttempts cfg - attempts (status b))%nat as m eqn:Hm.
  revert prepareOnly b Hm.
  induction m as [m IH] using lt_wf_ind. intros prepareOnly b Hm.
  rewrite prepareAndSubmitTransaction_equation_1.
  destruct (submitted (status b)).
  { exists []. simpl. rewrite app_nil_r. split; [reflexivity | constructor]. }
  destruct (prepareOnly && preparing (status b)).
  { exists []. simpl. rewrite app_nil_r. split; [reflexivity | constructor]. }
  cbv zeta. rewrite Hstats.
  destruct (negb (builds w (passes b))).
  { exists []. simpl. rewrite app_nil_r. split; [reflexivity | constructor]. }
  destruct prepareOnly.
  { exists []. simpl. rewrite app_nil_r. split; [reflexivity | constructor]. }
  destruct (existsb succeeded (results cfg w (passes b))).
  { eexists [_]. simpl. split; [reflexivity |]. repeat constructor. }
  destruct (lt_dec _ _) as [Hlt | Hge].
  - cbv zeta.
    match goal with |- context [prepareAndSubmitTransaction cfg w false ?b4] =>
      assert (Hless : (maxSubmissionAttempts cfg - attempts (status b4) < m)%nat)
        by (simpl in *; lia);
      destruct (IH _ Hless false b4 eq_refl) as [new [Hb Hall]]
    end.
    eexists (_ :: new). split.
    + rewrite Hb. simpl. rewrite <- app_assoc. reflexivity.
    + constructor; [reflexivity | exact Hall].
  - eexists [_]. simpl. split; [reflexivity |]. repeat constructor.
Qed.

Lemma round_raises (fee : Z) :
  0 <= fee -> fee <= JS.round (inject_Z fee * (3 # 2)).
Proof.
  intros H. unfold JS.round.
  rewrite <- (Qfloor_Z fee) at 1. apply Qfloor_resp_le.
  assert (H0 : (0 <= inject_Z fee)%Q)
    by (change 0%Q with (inject_Z 0); rewrite <- Zle_Qle; exact H).
  assert (E : (inject_Z fee * (3 # 2) + (1 # 2)
               == inject_Z fee + (inject_Z fee * (1 # 2) + (1 # 2)))%Q) by ring.
  rewrite E. rewrite <- (Qplus_0_r (inject_Z fee)) at 1.
  apply Qplus_le_r.
  apply (Qle_trans _ (0 + 0)%Q); [discriminate |].
  apply Qplus_le_compat; [| discriminate].
  apply Qmult_le_0_compat; [exact H0 | discriminate].
Qed.

(** While the fee statistics cannot be read, the retries do escalate: the
    bids of a call never decrease, each lies between the fee the bot came
    with and the fee it ends with, and that fee stays within [maxFee],
    for a bot whose fee is not negative and within [maxFee]. *)
Theorem retries_escalate_without_statistics (prepareOnly : bool) (b : bot) :
  (forall n, refresh w n = None) ->
  0 <= currentFee b <= maxFee cfg ->
  let r := prepareAndSubmitTransaction cfg w prepareOnly b in
  currentFee b <= currentFee (snd r) <= maxFee cfg
  /\ exists new,
       broadcasts (snd r) = broadcasts b ++ new
       /\ StronglySorted Z.le (map broadcast_fee new)
       /\ Forall (fun br => currentFee b <= broadcast_fee br <= currentFee (snd r))
                 new.
Proof.
  intros Hstats. cbv zeta.
  remember (maxSubmissionAttempts cfg - attempts (status b))%nat as m eqn:Hm.
  revert prepareOnly b Hm.
  induction m as [m IH] using lt_wf_ind. intros prepareOnly b Hm Hfee.
  rewrite prepareAndSubmitTransaction_equation_1.
  destruct (submitted (status b)).
  { simpl. split; [lia |]. exists []. rewrite app_nil_r. repeat constructor. }
  destruct (prepareOnly && preparing (status b)).
  { simpl. split; [lia |]. exists []. rewrite app_nil_r. repeat constructor. }
  cbv zeta. rewrite Hstats. cbn [updateNetworkFees].
  destruct (negb (builds w (passes b))).
  { simpl. split; [lia |]. exists []. rewrite app_nil_r. repeat constructor. }
  destruct prepareOnly.
  { simpl. split; [lia |]. exists []. rewrite app_nil_r. repeat constructor. }
  destruct (existsb succeeded (results cfg w (passes b))).
  { simpl. split; [lia |]. eexists [_]. split; [reflexivity |].
    simpl. repeat constructor; simpl; lia. }
  destruct (lt_dec _ _) as [Hlt | Hge].
  - cbv zeta.
    pose proof (round_raises (currentFee b) ltac:(lia)) as Hround.
    match goal with |- context [prepareAndSubmitTransaction cfg w false ?b4] =>
      assert (Hless : (maxSubmissionAttempts cfg - attempts (status b4) < m)%nat)
        by (simpl in *; lia);
      assert (Hfee4 : 0 <= currentFee b4 <= maxFee cfg) by (simpl; lia);
      assert (Hgrow : currentFee b <= currentFee b4) by (simpl; lia);
      destruct (IH _ Hless false b4 eq_refl Hfee4)
        as [Hend [new [Hb [Hsorted Hall]]]];
      set (r := prepareAndSubmitTransaction cfg w false b4) in *
    end.
    split; [lia |].
    exists ({| broadcast_fee := currentFee b;
               broadcast_clients := List.length (horizonUrls cfg) |} :: new).
    split; [| split].
    + rewrite Hb. simpl. rewrite <- app_assoc. reflexivity.
    + simpl. constructor; [exact Hsorted |].
      rewrite Forall_map. eapply Forall_impl; [| exact Hall].
      cbv beta. intros br Hbr. simpl. lia.
    + constructor; [simpl; lia |].
      eapply Forall_impl; [| exact Hall]. cbv beta. intros br Hbr. lia.
  - simpl. split; [lia |]. eexists [_]. split; [reflexivity |].
    simpl. repeat constructor; simpl; lia.
Qed.

End Traces.

Lemma retries_escalate_without_statistics_witness :
  map broadcast_fee
      (broadcasts (snd (prepareAndSubmitTransaction config
                          (rejectingClients FeeTooLow) false
                          (constructor config))))
  = [300000; 450000; 675000]
  /\ exists new,
       broadcasts (snd (prepareAndSubmitTransaction config
                          (rejectingClients FeeTooLow) false
                          (constructor config)))
       = [] ++ new
       /\ StronglySorted Z.le (map broadcast_fee new).
Proof.
  split; [vm_compute; reflexivity |].
  destruct (retries_escalate_without_statistics config (rejectingClients FeeTooLow)
              false (constructor config))
    as [_ [new [Hb [Hsorted _]]]].
  - intros n. reflexivity.
  - simpl. lia.
  - exists new. split; [exact Hb | exact Hsorted].
Defined.

Lemma retries_bid_the_quote_of_the_statistics_witness :
  map broadcast_fee
      (broadcasts (snd (prepareAndSubmitTransaction config (steadyStatistics 90000)
                          false (constructor config))))
  = [135000; 135000; 135000]
  /\ exists new,
       broadcasts (snd (prepareAndSubmitTransaction config (steadyStatistics 90000)
                          false (constructor config)))
       = [] ++ new
       /\ Forall (fun br => broadcast_fee br = 135000) new.
Proof.
  split; [vm_compute; reflexivity |].
  apply (retries_bid_the_quote_of_the_statistics config (steadyStatistics 90000)
           (FeeStats 90000 100 90000) false (constructor config)).
  intros n. reflexivity.
Defined.

Lemma attempts_count_broadcasts_witness :
  exists new,
    broadcasts (snd (prepareAndSubmitTransaction config
                       (rejectingClients FeeTooLow) false (constructor config)))
    = [] ++ new
    /\ attempts (status (snd (prepareAndSubmitTransaction config
                                (rejectingClients FeeTooLow) false
                                (constructor config))))
       = (0 + List.length new)%nat.
Proof.
  destruct (attempts_count_broadcasts config (rejectingClients FeeTooLow)
              false (constructor config))
    as [new [Hnew [Hcount _]]].
  exists new. split; [exact Hnew | exact Hcount].
Defined.

End BroadcastFacts.

(** ** Bounds of the network fee quote *)

Module QuoteFacts.
Import HighPerformanceSweeper.

(** The fee that [updateNetworkFees] stores is always a multiple of 100 and
    at least the smallest fee the network charged; it is at least
    [baseFee] when the floor is not above the ceiling, and at most
    [maxFee] when the ceiling is a multiple of 100 and the smallest fee
    charged does not exceed it.  Without statistics the fee is kept. *)
Theorem updateNetworkFees_bounds (cfg : Config) (s : feeStats) (fee : Z) :
  let q := updateNetworkFees cfg (Some s) fee in
  (100 | q)
  /\ fee_charged_min s <= q
  /\ (baseFee cfg <= maxFee cfg -> baseFee cfg <= q)
  /\ ((100 | maxFee cfg) -> fee_charged_min s <= maxFee cfg -> q <= maxFee cfg)
  /\ updateNetworkFees cfg None fee = fee.
Proof.
  cbv zeta. unfold updateNetworkFees.
  set (X := Qmax (Qmin (Qmax (inject_Z (fee_charged_p80 s) * feePriorityMultiplier cfg)
                             (inject_Z (baseFee cfg)))
                       (inject_Z (maxFee cfg)))
                 (inject_Z (fee_charged_min s))).
  pose proof (ClaimLoopFacts.ceilTo100_above X) as Habove.
  split; [| split; [| split; [| split]]].
  - exists (Qceiling (X / 100)). reflexivity.
  - rewrite Zle_Qle. eapply Qle_trans; [| exact Habove]. apply Q.le_max_r.
  - intros Hcfg. rewrite Zle_Qle. eapply Qle_trans; [| exact Habove].
    eapply Qle_trans; [| apply Q.le_max_l].
    apply Q.min_glb; [apply Q.le_max_r | rewrite <- Zle_Qle; exact Hcfg].
  - intros [k Hk] Hmin. assert (Hc : maxFee cfg = 100 * k) by lia.
    apply (Z.le_trans _ (JS.ceilTo100 (inject_Z (maxFee cfg))));
      [| rewrite Hc, FeeFacts.ceilTo100_multiple; lia].
    apply FeeFacts.ceilTo100_le.
    apply Q.max_lub; [apply Q.le_min_r | rewrite <- Zle_Qle; exact Hmin].
  - reflexivity.
Qed.

Lemma updateNetworkFees_bounds_witness :
  100000 <= updateNetworkFees config (Some (FeeStats 950000 100 950000)) 300000
  /\ updateNetworkFees config (Some (FeeStats 950000 100 950000)) 300000 <= 1000000.
Proof.
  split.
  - apply (proj1 (proj2 (proj2 (updateNetworkFees_bounds
             config (FeeStats 950000 100 950000) 300000)))).
    simpl. lia.
  - apply (proj1 (proj2 (proj2 (proj2 (updateNetworkFees_bounds
             config (FeeStats 950000 100 950000) 300000))))).
    + exists 10000. reflexivity.
    + simpl. lia.
Defined.

End QuoteFacts.

(** ** Choosing the Horizon client *)

Module HorizonFacts.
Import HighPerformanceMonitoring MonitoringNotions.

Section SortedBy.
Context {A : Type}.
Variable compareFn : A -> A -> option Z.
Variable R : A -> A -> Prop.
Hypothesis R_trans : forall x y z, R x y -> R y z -> R x z.
Hypothesis after_R : forall x y, JS.comesAfter compareFn x y = true -> R y x.
Hypothesis before_R : forall x y, JS.comesAfter compareFn x y = false -> R x y.

Lemma insert_sorted_by (x : A) (l : list A) :
  StronglySorted R l -> StronglySorted R (JS.insert compareFn x l).
Proof.
  induction 1 as [| y l Hsorted IH Hall]; simpl.
  - repeat constructor.
  - destruct (JS.comesAfter compareFn x y) eqn:Hcmp.
    + constructor; [exact IH |].
      eapply Permutation_Forall;
        [symmetry; apply FloodFacts.insert_Permutation |].
      constructor; [apply after_R; exact Hcmp | exact Hall].
    + pose proof (before_R x y Hcmp) as Hxy.
      constructor; [constructor; assumption |].
      constructor; [exact Hxy |].
      eapply Forall_impl; [| exact Hall]. intros z Hz. eapply R_trans; eassumption.
Qed.

Lemma sort_sorted_by (l : list A) : StronglySorted R (JS.sort compareFn l).
Proof.
  induction l as [| x l IH]; simpl; [constructor | apply insert_sorted_by, IH].
Qed.

End SortedBy.

Lemma noSlower_trans (x y z : probe) : noSlower x y -> noSlower y z -> noSlower x z.
Proof.
  unfold noSlower.
  destruct (probe_duration x), (probe_duration y), (probe_duration z);
    try tauto; lia.
Qed.

Lemma byDuration_after (x y : probe) :
  JS.comesAfter byDuration x y = true -> noSlower y x.
Proof.
  unfold JS.comesAfter, byDuration, noSlower.
  destruct (probe_duration x), (probe_duration y); try discriminate; auto.
  intros H. apply Z.ltb_lt in H. lia.
Qed.

Lemma byDuration_before (x y : probe) :
  JS.comesAfter byDuration x y = false -> noSlower x y.
Proof.
  unfold JS.comesAfter, byDuration, noSlower.
  destruct (probe_duration x), (probe_duration y); try discriminate; auto.
  intros H. apply Z.ltb_ge in H. lia.
Qed.

Lemma probes_In (p : probe) (timings : list (option Z)) (k : nat) :
  In p (probes k timings) <->
  exists j timing, nth_error timings j = Some timing /\ p = probeOf (k + j) timing.
Proof.
  revert k. induction timings as [| t timings IH]; intros k; simpl.
  - split; [contradiction | intros [[| j] [timing [H _]]]; discriminate].
  - rewrite IH. split.
    + intros [<- | [j [timing [Hj ->]]]].
      * exists 0%nat, t. rewrite Nat.add_0_r. auto.
      * exists (S j), timing. rewrite Nat.add_succ_r. auto.
    + intros [[| j] [timing [Hj ->]]]; simpl in Hj.
      * injection Hj as <-. left. rewrite Nat.add_0_r. reflexivity.
      * right. exists j, timing. rewrite Nat.add_succ_r. auto.
Qed.

Lemma sorted_probes_head (timings : list (option Z)) (first : probe) (rest : list probe) :
  JS.sort byDuration (probes 0 timings) = first :: rest ->
  (exists j timing,
      nth_error timings j = Some timing /\ first = probeOf j timing)
  /\ forall j timing,
       nth_error timings j = Some timing -> noSlower first (probeOf j timing).
Proof.
  intros Hsort.
  assert (Hsorted : StronglySorted noSlower (first :: rest)).
  { rewrite <- Hsort.
    apply (sort_sorted_by byDuration noSlower noSlower_trans
             byDuration_after byDuration_before). }
  assert (Hin : forall p, In p (first :: rest) <-> In p (probes 0 timings))
    by (intros p; rewrite <- Hsort; apply FloodFacts.sort_In).
  split.
  - apply (probes_In first timings 0), Hin. left. reflexivity.
  - intros j timing Hj.
    assert (Hp : In (probeOf j timing) (first :: rest)).
    { apply Hin, (probes_In _ timings 0). exists j, timing. auto. }
    destruct Hp as [<- | Hp].
    + unfold noSlower. destruct (probe_duration first); [lia | exact I].
    + inversion Hsorted as [| ? ? _ Hall]; subst.
      rewrite Forall_forall in Hall. apply Hall, Hp.
Qed.

(** [testHorizonPerformance] throws only when no clients are configured.
    Otherwise, when some client answered, it selects a client that
    answered and none answered faster, so that the index it leaves is
    that of a configured client; when every client failed it keeps the
    index it had. *)
Theorem testHorizonPerformance_selects_fastest
        (timings : list (option Z)) (bestHorizon : nat) :
  (testHorizonPerformance timings bestHorizon = None <-> timings = [])
  /\ forall i,
       testHorizonPerformance timings bestHorizon = Some i ->
       (exists duration,
           nth_error timings i = Some (Some duration)
           /\ (i < List.length timings)%nat
           /\ forall j other,
                nth_error timings j = Some (Some other) -> duration <= other)
       \/ (i = bestHorizon /\ Forall (fun timing => timing = None) timings).
Proof.
  unfold testHorizonPerformance.
  destruct (JS.sort byDuration (probes 0 timings)) as [| first rest] eqn:Hsort.
  - assert (Hnil : timings = []).
    { destruct timings as [| t timings]; [reflexivity |].
      assert (Hin : In (probeOf 0 t) (JS.sort byDuration (probes 0 (t :: timings))))
        by (apply FloodFacts.sort_In; left; reflexivity).
      rewrite Hsort in Hin. contradiction. }
    split; [tauto | discriminate].
  - destruct (sorted_probes_head timings first rest Hsort)
      as [[j [timing [Hj ->]]] Hfast].
    split.
    { split; [discriminate |]. intros ->. destruct j; discriminate. }
    intros i [= <-].
    destruct timing as [duration |]; simpl.
    + left. exists duration. split; [exact Hj |].
      split; [apply nth_error_Some; congruence |].
      intros j' other Hj'. exact (Hfast j' (Some other) Hj').
    + right. split; [reflexivity |].
      apply Forall_forall. intros t Ht.
      apply In_nth_error in Ht. destruct Ht as [j' Hj'].
      specialize (Hfast j' t Hj').
      destruct t; [contradiction | reflexivity].
Qed.

Lemma testHorizonPerformance_selects_fastest_witness :
  testHorizonPerformance [Some 120; None; Some 85; Some 85] 0 = Some 2%nat
  /\ exists duration,
       nth_error [Some 120; None; Some 85; Some 85] 2 = Some (Some duration)
       /\ forall j other,
            nth_error [Some 120; None; Some 85; Some 85] j = Some (Some other) ->
            duration <= other.
Proof.
  split; [reflexivity |].
  destruct (proj2 (testHorizonPerformance_selects_fastest
                     [Some 120; None; Some 85; Some 85] 0) 2%nat eq_refl)
    as [[duration [Hd [_ Hfast]]] | [_ Hall]].
  - exists duration. split; assumption.
  - inversion Hall as [| ? ? H _]. discriminate.
Defined.



End HorizonFacts.

(** ** Clock, order and timing of the precision claim bot *)

Module ClaimBotFacts.
Import Stellar PrecisionClaimBot PrecisionClaimSchedule.
Import ClockNotions FloodNotions MonitoringNotions.

Lemma latestLedgerNum_step (m : monitor) (poll : option ledger) :
  latestLedgerNum (blockMonitorInterval m poll)
  = match poll with
    | Some l => Z.max (latestLedgerNum m) (ledger_sequence l)
    | None => latestLedgerNum m
    end.
Proof.
  destruct poll as [l |]; [| reflexivity].
  unfold blockMonitorInterval.
  destruct (latestLedgerNum m <? ledger_sequence l) eqn:H; simpl.
  - apply Z.ltb_lt in H. lia.
  - apply Z.ltb_ge in H. lia.
Qed.

Lemma highest_fold (polls : list (option ledger)) (top : Z) :
  top <= fold_left
           (fun top poll =>
              match poll with
              | Some l => Z.max top (ledger_sequence l)
              | None => top
              end) polls top
  /\ forall l, In (Some l) polls ->
       ledger_sequence l
       <= fold_left
            (fun top poll =>
               match poll with
               | Some l => Z.max top (ledger_sequence l)
               | None => top
               end) polls top.
Proof.
  revert top. induction polls as [| [x |] polls IH]; intros top; simpl.
  - split; [lia | contradiction].
  - destruct (IH (Z.max top (ledger_sequence x))) as [Htop Hall].
    split; [lia |]. intros l [[= ->] | Hin]; [lia | apply Hall, Hin].
  - destruct (IH top) as [Htop Hall].
    split; [exact Htop |]. intros l [H | Hin]; [discriminate | apply Hall, Hin].
Qed.

(** The monitor always stands at the highest ledger sequence it has seen:
    after any run of polls, in whatever order their answers come,
    [latestLedgerNum] is the maximum of the first sequence and the polled
    ones, and a poll that fails or brings a sequence not above it changes
    nothing. *)
Theorem latestLedgerNum_is_highest (first : ledger) (polls : list (option ledger)) :
  let m := monitorBlocks first polls in
  latestLedgerNum m = highestSequence first polls
  /\ ledger_sequence first <= latestLedgerNum m
  /\ (forall l, In (Some l) polls -> ledger_sequence l <= latestLedgerNum m)
  /\ (forall poll,
         match poll with
         | Some l => ledger_sequence l <= latestLedgerNum m
         | None => True
         end ->
         blockMonitorInterval m poll = m).
Proof.
  cbv zeta.
  assert (E : forall polls m,
             latestLedgerNum (fold_left blockMonitorInterval polls m)
             = fold_left
                 (fun top poll =>
                    match poll with
                    | Some l => Z.max top (ledger_sequence l)
                    | None => top
                    end) polls (latestLedgerNum m)).
  { clear. induction polls as [| p polls IH]; intros m; simpl; [reflexivity |].
    rewrite IH, latestLedgerNum_step. destruct p; reflexivity. }
  unfold monitorBlocks, highestSequence. rewrite E.
  change (latestLedgerNum (startBlockMonitoring first)) with (ledger_sequence first).
  destruct (highest_fold polls (ledger_sequence first)) as [Htop Hall].
  split; [reflexivity | split; [exact Htop | split; [exact Hall |]]].
  intros [l |] Hl; [| reflexivity].
  unfold blockMonitorInterval. rewrite E.
  change (latestLedgerNum (startBlockMonitoring first)) with (ledger_sequence first).
  apply Z.ltb_ge in Hl. rewrite Hl. reflexivity.
Qed.

Lemma latestLedgerNum_is_highest_witness :
  blockMonitorInterval
    (monitorBlocks (Ledger 100 1000000)
                   [Some (Ledger 102 1010400); Some (Ledger 101 1005100)])
    (Some (Ledger 102 1010400))
  = monitorBlocks (Ledger 100 1000000)
                  [Some (Ledger 102 1010400); Some (Ledger 101 1005100)].
Proof.
  apply (proj2 (proj2 (proj2
           (latestLedgerNum_is_highest (Ledger 100 1000000)
              [Some (Ledger 102 1010400); Some (Ledger 101 1005100)])))
           (Some (Ledger 102 1010400))).
  vm_compute. discriminate.
Defined.

Lemma sum_between (l : list Z) (lo hi : Z) :
  Forall (fun t => lo <= t <= hi) l ->
  Z.of_nat (List.length l) * lo <= fold_right Z.add 0 l
  <= Z.of_nat (List.length l) * hi.
Proof.
  induction 1 as [| t l Ht _ IH]; [simpl; lia |].
  cbn [fold_right List.length]. rewrite Nat2Z.inj_succ. lia.
Qed.

Lemma mean_between (l : list Z) (lo hi : Z) :
  l <> [] ->
  Forall (fun t => lo <= t <= hi) l ->
  (inject_Z lo <= Spec.mean l <= inject_Z hi)%Q.
Proof.
  intros Hne Hall. pose proof (sum_between l lo hi Hall) as [Hlo Hhi].
  assert (Hn : (0 < inject_Z (Z.of_nat (List.length l)))%Q).
  { change 0%Q with (inject_Z 0). rewrite <- Zlt_Qlt.
    destruct l; [contradiction | simpl; lia]. }
  unfold Spec.mean. split.
  - apply Qle_shift_div_l; [exact Hn |].
    rewrite <- inject_Z_mult, <- Zle_Qle. lia.
  - apply Qle_shift_div_r; [exact Hn |].
    rewrite <- inject_Z_mult, <- Zle_Qle. lia.
Qed.

(** Once a block interval has been observed, the estimated block time lies
    between the shortest and the longest of the intervals kept, and the
    expected next close between the last close plus the one and plus the
    other: under a regular cadence the estimate is exact. *)
Theorem block_time_estimate_within_kept_intervals
        (first : ledger) (polls : list (option ledger)) (lo hi : Z) :
  let m := monitorBlocks first polls in
  blockTimes m <> [] ->
  Forall (fun t => lo <= t <= hi) (blockTimes m) ->
  (inject_Z lo <= avgBlockTimeMs m <= inject_Z hi)%Q
  /\ (inject_Z (lastLedgerCloseTime m + lo) <= expectedNextBlockTime m
      <= inject_Z (lastLedgerCloseTime m + hi))%Q.
Proof.
  cbv zeta. intros Hne Hall.
  pose proof (ClockFacts.tracks_polls polls _ _ (ClockFacts.tracks_start first)) as H.
  change (tracks (monitorBlocks first polls) (observedCloses first polls)) in H.
  destruct H as [_ [_ [Htimes Havg]]].
  assert (Hlen : (List.length (observedCloses first polls) <? 2)%nat = false).
  { apply Nat.ltb_ge.
    pose proof (ClockFacts.intervals_length (observedCloses first polls)) as Hi.
    destruct (Spec.intervals (observedCloses first polls)) as [| i l] eqn:Ei.
    - exfalso. apply Hne. rewrite Htimes. reflexivity.
    - change (List.length (i :: l)) with (S (List.length l)) in Hi. lia. }
  rewrite Hlen, <- Htimes in Havg.
  pose proof (mean_between _ lo hi Hne Hall) as [Hlo Hhi].
  assert (Hbounds : (inject_Z lo <= avgBlockTimeMs (monitorBlocks first polls)
                     <= inject_Z hi)%Q)
    by (rewrite Havg; split; assumption).
  split; [exact Hbounds |].
  unfold expectedNextBlockTime. rewrite !inject_Z_plus.
  destruct Hbounds as [H1 H2].
  split; apply Qplus_le_r; assumption.
Qed.

Lemma block_time_estimate_within_kept_intervals_witness :
  expectedNextBlockTime
    (monitorBlocks (Ledger 100 1000000)
       [Some (Ledger 101 1005000); None; Some (Ledger 102 1010000)])
  == inject_Z 1015000.
Proof.
  destruct (block_time_estimate_within_kept_intervals (Ledger 100 1000000)
              [Some (Ledger 101 1005000); None; Some (Ledger 102 1010000)]
              5000 5000)
    as [_ [H1 H2]].
  - vm_compute. discriminate.
  - vm_compute. repeat constructor; discriminate.
  - apply Qle_antisym; assumption.
Defined.

End ClaimBotFacts.

(** ** The schedule of the precision claim bot *)

Module ScheduleFacts.
Import Stellar PrecisionClaimBot PrecisionClaimSchedule.
Import FloodNotions.

Section Candidates.
Variable numberToString : Z -> string.
Variable stringToNumber : string -> option Z.
Variable builds : string -> bool.
Variable buildsFeeBump : string -> bool.

(** A flood is run at most once in the life of a bot: whatever the first
    call of [executeFlood] did, also when its preparation failed and it set
    no timer at all, the bot is left running, every later call returns at
    once without a timer, and [checkUnlockTimeProximity] never again asks
    for an immediate flood. *)
Theorem executeFlood_runs_at_most_once
        (first later : option Z) (b : bot) (unlockTimestamp now : Z) (m : monitor) :
  let flooded :=
    fst (executeFlood numberToString stringToNumber builds buildsFeeBump first b) in
  isRunning flooded = true
  /\ executeFlood numberToString stringToNumber builds buildsFeeBump later flooded
     = (flooded, [])
  /\ floodNow (checkUnlockTimeProximity unlockTimestamp now m flooded) = false.
Proof.
  cbv zeta.
  assert (Hrun : isRunning (fst (executeFlood numberToString stringToNumber
                                   builds buildsFeeBump first b))
                 = true).
  { unfold executeFlood. destruct (isRunning b) eqn:Hb; [exact Hb |].
    cbn [transactions setTransactions].
    destruct (List.length (transactions b) =? 0)%nat; [| reflexivity].
    destruct (prepareTransactions _ _ _ _ _ first) as [[|] txs]; reflexivity. }
  split; [exact Hrun | split].
  - unfold executeFlood at 1. rewrite Hrun. reflexivity.
  - unfold checkUnlockTimeProximity.
    destruct (negb (JS.truthy unlockTimestamp)); [reflexivity |].
    cbn [floodNow]. rewrite Hrun. apply andb_false_r.
Qed.

Lemma insert_last {A : Type} (cmp : A -> A -> option Z) (x : A) (l : list A) :
  Forall (fun y => JS.comesAfter cmp x y = true) l ->
  JS.insert cmp x l = l ++ [x].
Proof.
  induction 1 as [| y l Hy _ IH]; [reflexivity |].
  cbn [JS.insert app]. rewrite Hy, IH. reflexivity.
Qed.

Lemma sort_reverses {A : Type} (cmp : A -> A -> option Z) (l : list A) :
  ForallOrdPairs (fun a b => JS.comesAfter cmp a b = true) l ->
  JS.sort cmp l = rev l.
Proof.
  induction 1 as [| x l Hx _ IH]; [reflexivity |].
  cbn [JS.sort rev]. rewrite IH. apply insert_last.
  apply Forall_rev, Hx.
Qed.

Lemma sort_keeps {A : Type} (cmp : A -> A -> option Z) (l : list A) :
  ForallOrdPairs (fun a b => JS.comesAfter cmp a b = false) l ->
  JS.sort cmp l = l.
Proof.
  induction 1 as [| x l Hx _ IH]; [reflexivity |].
  cbn [JS.sort]. rewrite IH.
  destruct Hx as [| y l Hy _]; [reflexivity |].
  cbn [JS.insert]. rewrite Hy. reflexivity.
Qed.

(** Candidates built for consecutive indices, compared pairwise by a
    relation that holds of every two of them with increasing indices. *)
Lemma built_ordered (R : txInfo -> txInfo -> Prop) (b : bot) (s : Z)
      (first count : nat) (built : list txInfo) :
  Forall2 (fun i t =>
             prepareTransaction numberToString builds buildsFeeBump b s i
             = Some t) (seq first count) built ->
  (forall i j ti tj,
      (i < j < first + count)%nat ->
      prepareTransaction numberToString builds buildsFeeBump b s i = Some ti ->
      prepareTransaction numberToString builds buildsFeeBump b s j = Some tj ->
      R ti tj) ->
  ForallOrdPairs R built.
Proof.
  revert first built.
  induction count as [| count IH]; intros first built Hbuilt HR.
  - inversion Hbuilt. constructor.
  - cbn [seq] in Hbuilt. inversion Hbuilt as [| i t rest ts Ht Hrest]; subst.
    constructor.
    + apply Forall_forall. intros t' Hin.
      destruct (FloodFacts.Forall2_In_right _ _ _ _ Hrest Hin) as [j [Hj Ht']].
      apply in_seq in Hj. apply (HR first j); [lia | exact Ht | exact Ht'].
    + apply (IH (S first)); [exact Hrest |].
      intros i j ti tj Hij. apply HR. lia.
Qed.

Lemma comesAfter_built (b : bot) (s : Z) (i j : nat) (ti tj : txInfo) (x y : Z) :
  prepareTransaction numberToString builds buildsFeeBump b s i = Some ti ->
  prepareTransaction numberToString builds buildsFeeBump b s j = Some tj ->
  JS.toNumber stringToNumber (candidateFee numberToString b i) = Some x ->
  JS.toNumber stringToNumber (candidateFee numberToString b j) = Some y ->
  JS.comesAfter (byFeeDescending stringToNumber) ti tj = (x <? y).
Proof.
  intros Hi Hj Hx Hy.
  destruct (FloodFacts.prepareTransaction_built
              numberToString builds buildsFeeBump b s i ti Hi) as [_ [_ Hfi]].
  destruct (FloodFacts.prepareTransaction_built
              numberToString builds buildsFeeBump b s j tj Hj) as [_ [_ Hfj]].
  apply FloodFacts.comesAfter_byFee; unfold feeNumber;
    [rewrite Hfi | rewrite Hfj]; assumption.
Qed.

(** When [prepareTransactions] completes on fees that are all numbers, it
    leaves the candidates in the reverse of the order they were built in
    if every later candidate bids more than every earlier one, the last
    one built coming first, and in the order they were built in if no
    later candidate bids more than an earlier one. *)
Theorem prepareTransactions_order
        (b : bot) (sourceSequence : Z) (prepared : list txInfo) :
  prepareTransactions numberToString stringToNumber builds buildsFeeBump
    b (Some sourceSequence) = (true, prepared) ->
  (forall i, (i < txCount b)%nat ->
             JS.toNumber stringToNumber (candidateFee numberToString b i) <> None) ->
  exists built,
    Forall2 (fun i t =>
               prepareTransaction numberToString builds buildsFeeBump
                 b sourceSequence i = Some t)
            (seq 0 (txCount b)) built
    /\ ((forall i j x y,
            (i < j < txCount b)%nat ->
            JS.toNumber stringToNumber (candidateFee numberToString b i) = Some x ->
            JS.toNumber stringToNumber (candidateFee numberToString b j) = Some y ->
            x < y) ->
        prepared = rev built)
    /\ ((forall i j x y,
            (i < j < txCount b)%nat ->
            JS.toNumber stringToNumber (candidateFee numberToString b i) = Some x ->
            JS.toNumber stringToNumber (candidateFee numberToString b j) = Some y ->
            y <= x) ->
        prepared = built).
Proof.
  intros Hdone Hnum.
  destruct (FloodFacts.prepareTransactions_completed
              numberToString stringToNumber builds buildsFeeBump
              b sourceSequence prepared Hdone) as [built [Hbuilt Hsort]].
  exists built. split; [exact Hbuilt |].
  split; intros Horder; rewrite Hsort.
  - apply sort_reverses.
    apply (built_ordered _ b sourceSequence 0 (txCount b) built Hbuilt).
    intros i j ti tj Hij Hi Hj.
    pose proof (Hnum i ltac:(lia)) as Hni. pose proof (Hnum j ltac:(lia)) as Hnj.
    destruct (JS.toNumber stringToNumber (candidateFee numberToString b i))
      as [x |] eqn:Ex; [| contradiction].
    destruct (JS.toNumber stringToNumber (candidateFee numberToString b j))
      as [y |] eqn:Ey; [| contradiction].
    rewrite (comesAfter_built b sourceSequence i j ti tj x y Hi Hj Ex Ey).
    apply Z.ltb_lt. apply (Horder i j x y); [lia | exact Ex | exact Ey].
  - apply sort_keeps.
    apply (built_ordered _ b sourceSequence 0 (txCount b) built Hbuilt).
    intros i j ti tj Hij Hi Hj.
    pose proof (Hnum i ltac:(lia)) as Hni. pose proof (Hnum j ltac:(lia)) as Hnj.
    destruct (JS.toNumber stringToNumber (candidateFee numberToString b i))
      as [x |] eqn:Ex; [| contradiction].
    destruct (JS.toNumber stringToNumber (candidateFee numberToString b j))
      as [y |] eqn:Ey; [| contradiction].
    rewrite (comesAfter_built b sourceSequence i j ti tj x y Hi Hj Ex Ey).
    apply Z.ltb_ge. apply (Horder i j x y); [lia | exact Ex | exact Ey].
Qed.

(** Once [initializeKeypairs] has replaced the base fee by the string of the
    fee statistics, the fee computed for candidate [i] is that string
    followed by the digits of [i * feeIncrement], not their sum; the
    candidate is built exactly when the SDK accepts that string as a fee,
    and then carries it on the candidate, on its transaction and on its fee
    bump alike. *)
Theorem fees_after_initializeKeypairs_are_concatenations
        (source : string) (sponsor : option string) (max_fee_max : string)
        (b : bot) (sourceSequence : Z) (i : nat) :
  let ready := initializeKeypairs source sponsor max_fee_max b in
  let bid := (max_fee_max ++ numberToString (Z.of_nat i * feeIncrement b))%string in
  candidateFee numberToString ready i = JS.Str bid
  /\ (forall t,
         prepareTransaction numberToString builds buildsFeeBump
           ready sourceSequence i = Some t ->
         fee t = JS.Str bid
         /\ tx_fee (innerTransaction (tx t)) = bid
         /\ tx t = match sponsor with
                   | Some key => FeeBump key bid (innerTransaction (tx t))
                   | None => Plain (innerTransaction (tx t))
                   end)
  /\ (prepareTransaction numberToString builds buildsFeeBump
        ready sourceSequence i <> None
      <-> builds bid = true
          /\ (sponsor <> None -> buildsFeeBump bid = true)).
Proof.
  cbv zeta. unfold prepareTransaction, candidateFee, initializeKeypairs.
  cbn [useFeeSponsor baseFee feeIncrement sourcePublicKey sourceKeypair
       sponsorKeypair claimableBalanceId targetAddress JS.plus JS.toString].
  split; [reflexivity |].
  destruct (builds _) eqn:Hb.
  - destruct sponsor as [key |].
    + destruct (buildsFeeBump _) eqn:Hf.
      * split; [intros t [= <-]; repeat split |].
        split; [intros _; split; [reflexivity | intros _; reflexivity]
               | discriminate].
      * split; [discriminate |].
        split; [intros H; contradiction H; reflexivity |].
        intros [_ H]. specialize (H ltac:(discriminate)). discriminate.
    + split; [intros t [= <-]; repeat split |].
      split; [intros _; split; [reflexivity | intros H; contradiction H; reflexivity]
             | discriminate].
  - split; [discriminate |].
    split; [intros H; contradiction H; reflexivity | intros [H _]; discriminate].
Qed.

End Candidates.

Lemma prepareTransactions_order_witness :
  exists built,
    Forall2 (fun i t =>
               prepareTransaction JS.decimalString stellarBuilds
                 stellarBuildsFeeBump (readyBot 3) 41 i = Some t)
            [0; 1; 2]%nat built
    /\ snd (prepareTransactions JS.decimalString JS.parseDecimal
              stellarBuilds stellarBuildsFeeBump (readyBot 3) (Some 41))
       = rev built.
Proof.
  destruct (prepareTransactions_order JS.decimalString JS.parseDecimal
              stellarBuilds stellarBuildsFeeBump (readyBot 3) 41
              (snd (prepareTransactions JS.decimalString JS.parseDecimal
                      stellarBuilds stellarBuildsFeeBump (readyBot 3) (Some 41))))
    as [built [Hbuilt [Hrev _]]].
  - vm_compute. reflexivity.
  - intros i Hi.
    do 3 (destruct i as [| i]; [vm_compute; discriminate |]).
    cbn in Hi. lia.
  - exists built. split; [exact Hbuilt |].
    apply Hrev. intros i j x y Hij.
    assert (Hcases : (i = 0%nat /\ j = 1%nat) \/ (i = 0%nat /\ j = 2%nat)
                     \/ (i = 1%nat /\ j = 2%nat))
      by (cbn in Hij; lia).
    destruct Hcases as [[-> ->] | [[-> ->] | [-> ->]]];
      vm_compute; intros [= <-] [= <-]; reflexivity.
Defined.

(** A flood that [checkUnlockTimeProximity] arms for the next block fires at
    least 100 ms after the call and never earlier than 400 ms before the
    unlock time, nor than 400 ms before the expected close of the next
    block; when that close is expected exactly at the unlock time and is
    still 500 ms away, the flood fires 400 ms before the balance unlocks. *)
Theorem armed_flood_fires_from_400ms_before_unlock
        (unlockTimestamp now : Z) (m : monitor) (b : bot) (delay : Q) :
  floodAfter (checkUnlockTimeProximity unlockTimestamp now m b) = Some delay ->
  now < unlockTimestamp
  /\ (100 <= delay)%Q
  /\ (inject_Z unlockTimestamp - 400 <= inject_Z now + delay)%Q
  /\ (expectedNextBlockTime m - 400 <= inject_Z now + delay)%Q
  /\ (expectedNextBlockTime m == inject_Z unlockTimestamp ->
      (now + 500 <= unlockTimestamp)%Z ->
      inject_Z now + delay == inject_Z unlockTimestamp - 400)%Q.
Proof.
  unfold checkUnlockTimeProximity, expectedNextBlockTime.
  destruct (negb (JS.truthy unlockTimestamp)); [discriminate |].
  cbn [floodAfter].
  destruct (0 <? unlockTimestamp - now) eqn:Hpos; [| discriminate].
  apply Z.ltb_lt in Hpos. cbn [andb].
  destruct (negb (Qle_bool (avgBlockTimeMs m * 2)
                           (inject_Z (unlockTimestamp - now)))); [| discriminate].
  destruct (Qle_bool (inject_Z unlockTimestamp)
                     (inject_Z (lastLedgerCloseTime m) + avgBlockTimeMs m))
           eqn:Hnext; [| discriminate].
  apply Qle_bool_iff in Hnext.
  intros [= <-].
  set (expected := (inject_Z (lastLedgerCloseTime m) + avgBlockTimeMs m)%Q) in *.
  pose proof (Q.le_max_l 0 (expected - inject_Z now - 500)) as Hl.
  pose proof (Q.le_max_r 0 (expected - inject_Z now - 500)) as Hr.
  split; [lia |].
  split; [lra |]. split; [lra |]. split; [lra |].
  intros Hexact Hfar.
  assert (Hfar' : (inject_Z now + 500 <= inject_Z unlockTimestamp)%Q).
  { change 500%Q with (inject_Z 500). rewrite <- inject_Z_plus, <- Zle_Qle.
    exact Hfar. }
  rewrite (Q.max_r 0 (expected - inject_Z now - 500)) by lra.
  lra.
Qed.

Lemma armed_flood_fires_from_400ms_before_unlock_witness :
  exists delay,
    floodAfter (checkUnlockTimeProximity 1005000 1000500
                  (Monitor 100 1000000 5000 []) (freshBot 3)) = Some delay
    /\ (inject_Z 1000500 + delay == inject_Z 1005000 - 400)%Q.
Proof.
  eexists. split; [reflexivity |].
  apply (proj2 (proj2 (proj2 (proj2
           (armed_flood_fires_from_400ms_before_unlock 1005000 1000500
              (Monitor 100 1000000 5000 []) (freshBot 3) _ eq_refl))))).
  - reflexivity.
  - lia.
Defined.

(** An immediate flood, whether asked for by [start] or by
    [checkUnlockTimeProximity], is only ever asked for at or after the unlock
    time of a bot that has one. *)
Theorem immediate_flood_only_from_unlock
        (unlockTimestamp now : Z) (m : monitor) (b : bot) :
  start unlockTimestamp now = FloodAtOnce
  \/ floodNow (checkUnlockTimeProximity unlockTimestamp now m b) = true ->
  unlockTimestamp <> 0 /\ unlockTimestamp <= now.
Proof.
  unfold start, checkUnlockTimeProximity, JS.truthy.
  destruct (unlockTimestamp =? 0) eqn:Hz; cbn [negb andb].
  - intros [H | H]; discriminate.
  - apply Z.eqb_neq in Hz. cbn [floodNow].
    destruct (unlockTimestamp <=? now) eqn:Hle.
    + apply Z.leb_le in Hle. intros _. split; assumption.
    + intros [H | H].
      * destruct (30000 <? unlockTimestamp - now); discriminate.
      * destruct (unlockTimestamp - now <=? 0) eqn:Hd; [| discriminate].
        apply Z.leb_le in Hd. apply Z.leb_gt in Hle. lia.
Qed.

Lemma immediate_flood_only_from_unlock_witness :
  1700000000000 <> 0 /\ 1700000000000 <= 1700000000250.
Proof.
  apply (immediate_flood_only_from_unlock 1700000000000 1700000000250
           (Monitor 100 1700000000000 5000 []) (freshBot 3)).
  left. reflexivity.
Defined.



End ScheduleFacts.

(** ** The ledger watcher *)

Module WatchFacts.
Import LedgerWatch MonitoringNotions.

Lemma noRepeat_snoc (l : list ledger) (x : ledger) (d : Z) :
  noRepeat l ->
  (l <> [] -> last (map sequence l) d <> sequence x) ->
  noRepeat (l ++ [x]).
Proof.
  induction l as [| a [| b rest] IH]; intros Hl Hlast.
  - exact I.
  - split; [apply Hlast; discriminate | exact I].
  - destruct Hl as [Hab Hrest].
    change (sequence a <> sequence b /\ noRepeat ((b :: rest) ++ [x])).
    split; [exact Hab |]. apply IH; [exact Hrest |].
    intros _. apply Hlast. discriminate.
Qed.

Lemma monitorTurn_keeps (wt : watcher) (poll : option ledger) :
  noRepeat (announced wt) ->
  lastLedger wt = last (map sequence (announced wt)) 0 ->
  noRepeat (announced (monitorTurn wt poll))
  /\ lastLedger (monitorTurn wt poll)
     = last (map sequence (announced (monitorTurn wt poll))) 0.
Proof.
  intros Hrep Hlast. destruct poll as [l |]; [| split; assumption].
  unfold monitorTurn. destruct (sequence l =? lastLedger wt) eqn:Hsame.
  - split; assumption.
  - apply Z.eqb_neq in Hsame. cbn [announced lastLedger]. split.
    + apply (noRepeat_snoc _ _ 0); [exact Hrep |].
      intros _. rewrite <- Hlast. intros E. apply Hsame. symmetry. exact E.
    + rewrite map_app. cbn [map]. rewrite last_last. reflexivity.
Qed.

Lemma monitorTurns (polls : list (option ledger)) (wt : watcher) :
  noRepeat (announced wt) ->
  lastLedger wt = last (map sequence (announced wt)) 0 ->
  let after := fold_left monitorTurn polls wt in
  lastLedger after = lastPolled (lastLedger wt) polls
  /\ noRepeat (announced after)
  /\ lastLedger after = last (map sequence (announced after)) 0
  /\ slept after
     = slept wt
       + 1000 * Z.of_nat (answered polls)
       + 5000 * Z.of_nat (failed polls)
  /\ (List.length (announced after)
      <= List.length (announced wt)
         + answered polls)%nat.
Proof.
  cbv zeta. revert wt.
  induction polls as [| poll polls IH]; intros wt Hrep Hlast.
  - unfold answered, failed, lastPolled. cbn [fold_left filter List.length].
    repeat split; try assumption; lia.
  - cbn [fold_left].
    destruct (monitorTurn_keeps wt poll Hrep Hlast) as [Hrep' Hlast'].
    destruct (IH (monitorTurn wt poll) Hrep' Hlast')
      as [Hseen [Hno [Hl [Hslept Hcount]]]].
    split; [| split; [exact Hno | split; [exact Hl | split]]].
    + rewrite Hseen. unfold lastPolled. cbn [fold_left].
      destruct poll as [l |]; [| reflexivity].
      unfold monitorTurn.
      destruct (sequence l =? lastLedger wt) eqn:Hsame; [| reflexivity].
      apply Z.eqb_eq in Hsame. cbn [lastLedger]. rewrite Hsame. reflexivity.
    + rewrite Hslept. unfold answered, failed. destruct poll as [l |].
      * cbn [filter List.length]. unfold monitorTurn.
        destruct (sequence l =? lastLedger wt); cbn [slept];
          rewrite Nat2Z.inj_succ; lia.
      * cbn [filter List.length monitorTurn slept].
        rewrite Nat2Z.inj_succ. lia.
    + eapply Nat.le_trans; [exact Hcount |]. unfold answered.
      destruct poll as [l |].
      * cbn [filter List.length]. unfold monitorTurn.
        destruct (sequence l =? lastLedger wt); cbn [announced];
          rewrite ?length_app; cbn [List.length]; lia.
      * cbn [filter List.length monitorTurn announced]. lia.
Qed.

(** After any run of polls the watcher remembers the sequence of the last
    poll that answered (0 before any did), whether or not it is above the
    ones seen before, and that is the sequence of the last ledger it
    announced; it never announces the same sequence twice in a row, and at
    most one ledger per answered poll; and it has slept one second for every
    poll that answered and five for every poll that failed. *)
Theorem monitorBlocks_announces_changes (polls : list (option ledger)) :
  let wt := monitorBlocks polls in
  lastLedger wt = lastPolled 0 polls
  /\ noRepeat (announced wt)
  /\ lastLedger wt = last (map sequence (announced wt)) 0
  /\ slept wt
     = 1000 * Z.of_nat (answered polls)
       + 5000 * Z.of_nat (failed polls)
  /\ (List.length (announced wt)
      <= answered polls)%nat.
Proof.
  cbv zeta. unfold monitorBlocks.
  destruct (monitorTurns polls initial I eq_refl) as [H1 [H2 [H3 [H4 H5]]]].
  repeat split; assumption.
Qed.

End WatchFacts.

(** ** The unlock time of the precision claim bot *)

Module UnlockTimeFacts.
Import Horizon PrecisionClaimSchedule MonitoringNotions.

Section Fetch.
Variable dateGetTime : string -> Z.
Variable sourcePublicKey : string.

Lemma fetch_fold (claimants : list claimant) (unlockTimestamp : Z) :
  fold_left (fetchClaimant dateGetTime sourcePublicKey) claimants unlockTimestamp
  = if JS.truthy unlockTimestamp then unlockTimestamp
    else hd 0 (filter JS.truthy (topLevelBounds dateGetTime sourcePublicKey claimants)).
Proof.
  revert unlockTimestamp.
  induction claimants as [| c rest IH]; intros ts.
  - cbn [fold_left topLevelBounds flat_map filter hd].
    unfold JS.truthy. destruct (ts =? 0) eqn:E; [| reflexivity].
    apply Z.eqb_eq in E. exact E.
  - cbn [fold_left]. rewrite IH. unfold topLevelBounds. cbn [flat_map].
    fold (topLevelBounds dateGetTime sourcePublicKey rest).
    unfold fetchClaimant.
    destruct (destination c =? sourcePublicKey)%string; [| reflexivity].
    destruct (claim_predicate c) as [p |]; [| reflexivity].
    destruct (not_ p) as [inner |]; [| reflexivity].
    destruct (abs_before inner) as [iso |]; [| reflexivity].
    destruct (iso =? "")%string; [reflexivity |].
    cbn [negb app filter].
    destruct (JS.truthy ts) eqn:Hts; cbn [negb].
    + rewrite Hts. reflexivity.
    + destruct (JS.truthy (dateGetTime iso)); reflexivity.
Qed.

(** [fetchClaimableBalanceDetails] leaves a configured unlock time as it
    is, whatever the ledger says; without one it takes the first truthy
    instant that a claimant of the source account carries as the
    [abs_before] directly under the [not] at the top of its predicate, and
    leaves the unlock time unset when there is none: bounds nested under
    [and] or [or], and [abs_before_epoch], are not read. *)
Theorem fetchClaimableBalanceDetails_unlock_time
        (unlockTimestamp : Z) (balance : Horizon.balance) :
  fetchClaimableBalanceDetails dateGetTime sourcePublicKey unlockTimestamp balance
  = if JS.truthy unlockTimestamp then unlockTimestamp
    else hd 0 (filter JS.truthy
                 (topLevelBounds dateGetTime sourcePublicKey (claimants balance))).
Proof. apply fetch_fold. Qed.

(** A bot started without a configured unlock time on a balance none of
    whose claimants for the source account carries a top-level
    [not.abs_before] never acts by itself: [start] awaits the manual
    trigger and [checkUnlockTimeProximity] sets nothing off, at any time
    and whatever the block monitor has seen. *)
Theorem start_without_top_level_bound_awaits_trigger
        (balance : Horizon.balance) (now later : Z)
        (m : PrecisionClaimBot.monitor) (b : PrecisionClaimBot.bot) :
  topLevelBounds dateGetTime sourcePublicKey (claimants balance) = [] ->
  let unlockTimestamp :=
    fetchClaimableBalanceDetails dateGetTime sourcePublicKey 0 balance in
  start unlockTimestamp now = AwaitTrigger
  /\ checkUnlockTimeProximity unlockTimestamp later m b
     = {| prepareNow := false; floodAfter := None; floodNow := false |}.
Proof.
  intros Hnone. cbv zeta.
  unfold fetchClaimableBalanceDetails. rewrite fetch_fold, Hnone.
  split; reflexivity.
Qed.

End Fetch.

Lemma start_without_top_level_bound_awaits_trigger_witness :
  HighPerformanceSweeper.extractUnlockTime "GSOURCE"
    (PredicateNotions.lockedUntil "GSOURCE" 1700000000)
  = Some 1700000000000
  /\ start (fetchClaimableBalanceDetails (fun _ => 1700000000000) "GSOURCE" 0
              (PredicateNotions.lockedUntil "GSOURCE" 1700000000))
           1700000001000
     = AwaitTrigger.
Proof.
  split; [reflexivity |].
  apply (start_without_top_level_bound_awaits_trigger
           (fun _ => 1700000000000) "GSOURCE"
           (PredicateNotions.lockedUntil "GSOURCE" 1700000000)
           1700000001000 1700000001000
           (PrecisionClaimBot.Monitor 100 1700000000000 5000 [])
           (FloodNotions.freshBot 3) eq_refl).
Defined.

End UnlockTimeFacts.
